(** * The channel relay (src/socket.ts) and the client-side chunk reassembler
      (src/cursor_mcp_plugin/ui/utils/websocket.ts)

    A shallow embedding of the two programs and the properties of the relay
    protocol: membership gate, broadcast fan-out, chunked transport, comment
    normalisation, leave on close, and the reassembler's session map. *)

From Stdlib Require Import List String Ascii Bool Arith ZArith NArith QArith Qround Lia.
From Stdlib Require DecimalString DecimalN DecimalZ.
Import ListNotations.
Close Scope Q_scope.

Set Implicit Arguments.
Set Warnings "-register-all".

(* ================================================================== *)
(** * JavaScript values *)
(* ================================================================== *)

Module Js.

(** A JavaScript string is its sequence of UTF-16 code units. *)
Definition jsstring := list N.

(** A string literal of the source text. *)
Definition lit (s : string) : jsstring := map N_of_ascii (list_ascii_of_string s).

Fixpoint str_eqb (a b : jsstring) : bool :=
  match a, b with
  | [], [] => true
  | x :: a', y :: b' => N.eqb x y && str_eqb a' b'
  | _, _ => false
  end.

(** What [JSON.parse] can return and what the handlers build from it.
    [VUndefined] is the value of an absent property. *)
Inductive value : Type :=
| VUndefined
| VNull
| VBool (b : bool)
| VNum (q : Q)
| VStr (s : jsstring)
| VArr (items : list value)
| VObj (fields : list (jsstring * value)).

Definition str (s : string) : value := VStr (lit s).
Definition num (z : Z) : value := VNum (inject_Z z).

(** An object literal [{k1: v1, ...}] of the source. *)
Definition obj (fields : list (string * value)) : value :=
  VObj (map (fun kv => (lit (fst kv), snd kv)) fields).

(** ToBoolean: what [!x], [x || y] and [if (x)] test. *)
Definition truthy (v : value) : bool :=
  match v with
  | VUndefined | VNull => false
  | VBool b => b
  | VNum q => negb (Qeq_bool q (inject_Z 0))
  | VStr s => match s with [] => false | _ => true end
  | VArr _ | VObj _ => true
  end.

(** [typeof v === "string"]. *)
Definition typeof_string (v : value) : bool :=
  match v with VStr _ => true | _ => false end.

(** The string a value is once [typeof] has said it is one. *)
Definition string_of (v : value) : jsstring :=
  match v with VStr s => s | _ => [] end.

(** [v === "s"] for a string literal [s]. *)
Definition is_str (v : value) (s : string) : bool :=
  match v with VStr t => str_eqb t (lit s) | _ => false end.

Inductive exn : Type :=
| TypeError (property : string)   (* a property of undefined or null, or a write on a primitive *)
| SyntaxError                     (* JSON.parse *)
| RangeError                      (* new Array(n) *)
| SendError                       (* thrown by a socket's send *)
| ListenerError.                  (* thrown by a subscribed store listener *)

Inductive result (A : Type) : Type :=
| Ok (a : A)
| Throw (e : exn).
Arguments Ok {A} a.
Arguments Throw {A} e.

(** An own property of an object, [undefined] when there is none. *)
Fixpoint own (fields : list (jsstring * value)) (k : jsstring) : value :=
  match fields with
  | [] => VUndefined
  | (k', v) :: rest => if str_eqb k' k then v else own rest k
  end.

(** [v.k] for the property names the two programs read: none of them is a
    property of a primitive's or an array's prototype. *)
Definition get (v : value) (k : string) : result value :=
  match v with
  | VUndefined | VNull => Throw (TypeError k)
  | VObj fields => Ok (own fields (lit k))
  | VBool _ | VNum _ | VStr _ | VArr _ => Ok VUndefined
  end.

(** Writing an own property: an existing key keeps its place, a new key goes
    last. *)
Fixpoint set_field (fields : list (jsstring * value)) (k : jsstring) (x : value)
  : list (jsstring * value) :=
  match fields with
  | [] => [(k, x)]
  | (k', v) :: rest =>
      if str_eqb k' k then (k', x) :: rest else (k', v) :: set_field rest k x
  end.

(** [v.k = x] in strict code (both programs are ES modules): a TypeError on
    undefined, null and on primitives. A named property given to an array is
    kept beside its elements; it is not among them and is not serialized, and
    no later read of the programs asks for it, so the array is left as it is. *)
Definition assign (v : value) (k : string) (x : value) : result value :=
  match v with
  | VObj fields => Ok (VObj (set_field fields (lit k) x))
  | VArr items => Ok (VArr items)
  | VUndefined | VNull | VBool _ | VNum _ | VStr _ => Throw (TypeError k)
  end.

(** Whether an object has an own property of a name. *)
Definition has_own (fields : list (jsstring * value)) (k : string) : bool :=
  existsb (fun kv => str_eqb (fst kv) (lit k)) fields.

(** The library functions of the JavaScript engine that the programs call and
    whose text output is not fixed here. *)
Class Engine : Type := {
  (** [JSON.stringify(v)] for a value other than [undefined] *)
  json_text : value -> jsstring;
  (** [JSON.parse(text)]; [None] is a SyntaxError *)
  json_parse : jsstring -> option value;
  (** [String(x)] for a number *)
  number_to_string : Q -> jsstring;
  (** [String(error)] for a caught exception *)
  error_text : exn -> jsstring;
  (** the date and time part, before the final Z, of [toISOString()] at a
      time given in milliseconds *)
  iso_date_time : Z -> jsstring;
  (** [Number(text)] for a string; [None] when it is NaN or infinite *)
  string_to_number : jsstring -> option Q
}.

Section WithEngine.
Context {engine : Engine}.

(** [JSON.stringify(v)]: [undefined] (here [None]) for [undefined]. *)
Definition JSON_stringify (v : value) : option jsstring :=
  match v with
  | VUndefined => None
  | _ => Some (json_text v)
  end.

(** The decimal digits of an integer, with its sign when it is negative. *)
Definition decimal (z : Z) : jsstring := lit (DecimalString.NilZero.string_of_int (Z.to_int z)).

(** [String(x)] for a number: the decimal digits of an integer that a double
    holds exactly, the text of the engine for another number. *)
Definition Number_toString (q : Q) : jsstring :=
  if Qeq_bool q (inject_Z (Qfloor q)) && (Z.abs (Qfloor q) <=? 2 ^ 53)%Z
  then decimal (Qfloor q)
  else number_to_string q.

(** [`${x}`] and [String(x)] for an integer. *)
Definition number_text (z : Z) : jsstring := Number_toString (inject_Z z).

(** The texts of [array.join(separator)] put together. *)
Fixpoint separated (separator : jsstring) (texts : list jsstring) : jsstring :=
  match texts with
  | [] => []
  | [t] => t
  | t :: rest => t ++ separator ++ separated separator rest
  end.

(** [`${v}`] and [String(v)] for a value that [JSON.parse] returned or a
    handler read from one. An object has the prototype of objects: its text
    is the one of Object.prototype.toString unless it has an own property
    toString, which is no function and leaves no way to a primitive value,
    so that the conversion throws a TypeError. An array is converted by its
    method join with a comma, which takes undefined and null for the empty
    text and converts the other elements in the same way. *)
Fixpoint String_of (v : value) : result jsstring :=
  match v with
  | VUndefined => Ok (lit "undefined")
  | VNull => Ok (lit "null")
  | VBool true => Ok (lit "true")
  | VBool false => Ok (lit "false")
  | VNum q => Ok (Number_toString q)
  | VStr s => Ok s
  | VArr items =>
      match
        (fix texts (xs : list value) : result (list jsstring) :=
           match xs with
           | [] => Ok []
           | x :: rest =>
               match (match x with
                      | VUndefined | VNull => Ok []
                      | _ => String_of x
                      end) with
               | Ok t => match texts rest with
                         | Ok ts => Ok (t :: ts)
                         | Throw e => Throw e
                         end
               | Throw e => Throw e
               end
           end) items
      with
      | Ok ts => Ok (separated (lit ",") ts)
      | Throw e => Throw e
      end
  | VObj fields =>
      if has_own fields "toString" then Throw (TypeError "toString")
      else Ok (lit "[object Object]")
  end.

(** [Number(v)] for a value that [JSON.parse] returned or a handler read
    from one; [None] when it is NaN or infinite. An object or an array is
    made a primitive value first: the method valueOf they inherit returns
    the object itself, and one of their own is no function, so that the text
    of [String(v)] is taken, or its TypeError. *)
Definition Number_of (v : value) : result (option Q) :=
  match v with
  | VUndefined => Ok None
  | VNull => Ok (Some 0%Q)
  | VBool true => Ok (Some 1%Q)
  | VBool false => Ok (Some 0%Q)
  | VNum q => Ok (Some q)
  | VStr s => Ok (string_to_number s)
  | VArr _ | VObj _ =>
      match String_of v with
      | Ok s => Ok (string_to_number s)
      | Throw e => Throw e
      end
  end.

(** The text of a string of the source, when every code unit is below 256. *)
Fixpoint latin (s : jsstring) : option string :=
  match s with
  | [] => Some EmptyString
  | c :: rest =>
      if (c <? 256)%N then
        match latin rest with
        | Some t => Some (String (ascii_of_N c) t)
        | None => None
        end
      else None
  end.

(** The array index a property key denotes, if it denotes one: the key is
    the decimal digits, without a zero in front, of an integer from 0 to
    2^32 - 2. *)
Definition array_index (key : jsstring) : option nat :=
  match latin key with
  | Some text =>
      match DecimalString.NilZero.uint_of_string text with
      | Some digits =>
          let n := N.of_uint digits in
          if str_eqb (decimal (Z.of_N n)) key && (n <? 2 ^ 32 - 1)%N
          then Some (N.to_nat n) else None
      | None => None
      end
  | None => None
  end.

(** [new Date(t).toISOString()]. *)
Definition toISOString (t : Z) : jsstring := iso_date_time t ++ lit "Z".

End WithEngine.

(** [text.length] of the result of [JSON.stringify]. *)
Definition text_length (text : option jsstring) : result Z :=
  match text with
  | Some s => Ok (Z.of_nat (List.length s))
  | None => Throw (TypeError "length")
  end.

(** An index argument of [slice], relative to the length. *)
Definition relative_index (i len : Z) : Z :=
  if (i <? 0)%Z then Z.max (len + i) 0 else Z.min i len.

(** [s.slice(start, end)]. *)
Definition slice (s : jsstring) (start finish : Z) : jsstring :=
  let len := Z.of_nat (List.length s) in
  let from := relative_index start len in
  let to := relative_index finish len in
  firstn (Z.to_nat (to - from)) (skipn (Z.to_nat from) s).

(** [Math.ceil(a / b)] on two lengths: the quotient by the power of two [b]
    is exact in floating point. *)
Definition Math_ceil_div (a b : Z) : Z := Qceiling (inject_Z a / inject_Z b).

End Js.

(* ================================================================== *)
(** * A monad for handlers: state, exceptions and a trace of effects *)
(* ================================================================== *)

Module Eff.
Import Js.

Section Monad.
Context {St E : Type}.

(** A computation over a state [St] that returns or throws and leaves a trace
    of observable effects [E], oldest first. *)
Definition M (A : Type) : Type := St -> result A * St * list E.

Definition ret {A} (a : A) : M A := fun s => (Ok a, s, []).

Definition bind {A B} (m : M A) (f : A -> M B) : M B :=
  fun s =>
    match m s with
    | (Ok a, s1, t1) =>
        match f a s1 with
        | (r, s2, t2) => (r, s2, t1 ++ t2)
        end
    | (Throw e, s1, t1) => (Throw e, s1, t1)
    end.

Definition throw {A} (e : exn) : M A := fun s => (Throw e, s, []).

(** A result computed without effect, thrown when it is an exception. *)
Definition lift {A} (r : result A) : M A := fun s => (r, s, []).

(** [try { m } catch (e) { h e }] *)
Definition try_catch {A} (m : M A) (h : exn -> M A) : M A :=
  fun s =>
    match m s with
    | (Ok a, s1, t1) => (Ok a, s1, t1)
    | (Throw e, s1, t1) =>
        match h e s1 with
        | (r, s2, t2) => (r, s2, t1 ++ t2)
        end
    end.

Definition read {A} (f : St -> A) : M A := fun s => (Ok (f s), s, []).
Definition modify (f : St -> St) : M unit := fun s => (Ok tt, f s, []).
Definition emit (e : E) : M unit := fun s => (Ok tt, s, [e]).

(** [xs.forEach(f)] and the body of a counting [for] loop: an exception of
    the body ends the loop. *)
Fixpoint forEach {A} (xs : list A) (f : A -> M unit) : M unit :=
  match xs with
  | [] => ret tt
  | x :: rest => bind (f x) (fun _ => forEach rest f)
  end.

End Monad.

Arguments M : clear implicits.

Definition outcome {St E A} (r : result A * St * list E) : result A := fst (fst r).
Definition final {St E A} (r : result A * St * list E) : St := snd (fst r).
Definition trace {St E A} (r : result A * St * list E) : list E := snd r.

End Eff.

Declare Scope eff_scope.
Delimit Scope eff_scope with eff.
Notation "x <- m ;; k" := (Eff.bind m (fun x => k))
  (at level 100, m at next level, right associativity) : eff_scope.
Notation "m ;; k" := (Eff.bind m (fun _ => k))
  (at level 100, right associativity) : eff_scope.

(* ================================================================== *)
(** * The relay: src/socket.ts *)
(* ================================================================== *)

Module Relay.
Import Js Eff.
Local Open Scope string_scope.
Local Open Scope list_scope.
Local Open Scope eff_scope.

(** A [ServerWebSocket] object, by identity. *)
Definition conn := nat.

Inductive ReadyState : Type := CONNECTING | OPEN | CLOSING | CLOSED.

(** [client.readyState === WebSocket.OPEN] *)
Definition is_open (r : ReadyState) : bool :=
  match r with OPEN => true | _ => false end.

(** A [Set<ServerWebSocket>]: its members in insertion order, each once. *)
Definition Set_has (ws : conn) (s : list conn) : bool := existsb (Nat.eqb ws) s.
Definition Set_add (ws : conn) (s : list conn) : list conn :=
  if Set_has ws s then s else s ++ [ws].
Definition Set_delete (ws : conn) (s : list conn) : list conn :=
  filter (fun c => negb (Nat.eqb c ws)) s.

(** The [Map<string, Set<ServerWebSocket>>] named [channels], in insertion
    order. *)
Definition ChannelMap := list (jsstring * list conn).

Fixpoint Map_get (name : jsstring) (m : ChannelMap) : option (list conn) :=
  match m with
  | [] => None
  | (k, s) :: rest => if str_eqb k name then Some s else Map_get name rest
  end.

Definition Map_has (name : jsstring) (m : ChannelMap) : bool :=
  match Map_get name m with Some _ => true | None => false end.

Fixpoint Map_set (name : jsstring) (s : list conn) (m : ChannelMap) : ChannelMap :=
  match m with
  | [] => [(name, s)]
  | (k, s') :: rest =>
      if str_eqb k name then (k, s) :: rest else (k, s') :: Map_set name s rest
  end.

(** What a handler does to the Set object it holds: the Set stored under a
    name is created once and never replaced or removed, so the name stands
    for the object. *)
Definition Map_update (name : jsstring) (f : list conn -> list conn) (m : ChannelMap)
  : ChannelMap :=
  map (fun entry => if str_eqb (fst entry) name then (fst entry, f (snd entry)) else entry) m.

(** What the relay does that can be observed from outside. *)
Inductive effect : Type :=
| Sent (to : conn) (envelope : value)      (* to.send(JSON.stringify(envelope)) returned *)
| SendThrew (to : conn) (envelope : value) (* the same call threw *)
| ConsoleLog (label : jsstring)             (* console.log, the text before the values *)
| ConsoleError (label : jsstring)           (* console.error *)
| Timeout (ms : Z).                         (* await of a setTimeout promise *)

Record World : Type := {
  channels : ChannelMap;
  (** the runtime's side of every socket *)
  readyState : conn -> ReadyState;
  sendThrows : conn -> bool;
  (** the sockets whose [close] method handleConnection has replaced *)
  closeReplaced : list conn;
  (** [Date.now()] and [Math.random().toString(36).substr(2, 9)] *)
  now : Z;
  random36 : jsstring
}.

Definition with_channels (f : ChannelMap -> ChannelMap) (w : World) : World :=
  {| channels := f (channels w); readyState := readyState w; sendThrows := sendThrows w;
     closeReplaced := closeReplaced w; now := now w; random36 := random36 w |}.

Definition with_readyState (ws : conn) (r : ReadyState) (w : World) : World :=
  {| channels := channels w;
     readyState := fun c => if Nat.eqb c ws then r else readyState w c;
     sendThrows := sendThrows w;
     closeReplaced := closeReplaced w; now := now w; random36 := random36 w |}.

Definition with_closeReplaced (ws : conn) (w : World) : World :=
  {| channels := channels w; readyState := readyState w; sendThrows := sendThrows w;
     closeReplaced := ws :: closeReplaced w; now := now w; random36 := random36 w |}.

Definition R := M World effect.

(** A reference to the Set of a channel. *)
Definition SetRef := jsstring.

Definition members_of (clients : SetRef) (w : World) : list conn :=
  match Map_get clients (channels w) with Some s => s | None => [] end.

Definition members (clients : SetRef) : R (list conn) := read (members_of clients).

Definition console_log (label : jsstring) : R unit := emit (ConsoleLog label).
Definition console_error (label : jsstring) : R unit := emit (ConsoleError label).

(** [client.send(JSON.stringify(envelope))] *)
Definition send (client : conn) (envelope : value) : R unit :=
  fun w =>
    if sendThrows w client
    then (Throw SendError, w, [SendThrew client envelope])
    else (Ok tt, w, [Sent client envelope]).

Definition client_is_open (client : conn) : R bool :=
  read (fun w => is_open (readyState w client)).

(** The event loop: what the callbacks that run while a handler waits for a
    timer make of the state (sockets open, send frames and close, and the
    clock moves on). Their own sends are no part of the run of the handler
    that waits. The clock is part of the state and has moved on when a timer
    fires, so that no two waits of a run begin in the same state and a
    function of the state stands for any sequence of events. No callback of
    the program removes or replaces the Set of a channel. *)
Class EventLoop : Type := {
  meanwhile : World -> World
}.

(** [await new Promise(resolve => setTimeout(resolve, ms))]: the handler
    gives way to the event loop and goes on in the state it finds when the
    timer has fired. *)
Definition sleep {loop : EventLoop} (ms : Z) : R unit :=
  emit (Timeout ms) ;;
  modify meanwhile.

(** [!channelName || typeof channelName !== "string"] *)
Definition channel_name_missing (channelName : value) : bool :=
  negb (truthy channelName) || negb (typeof_string channelName).

Section Handlers.
Context {engine : Engine} {loop : EventLoop}.

(** ** Utility functions (socket.ts 412-472) *)

Definition broadcastToChannel (clients : SetRef) (message : value) : R unit :=
  cs <- members clients ;;
  forEach cs (fun client =>
    open <- client_is_open client ;;
    if open then
      try_catch (send client message)
                (fun error => console_error (lit "Error sending message to client:"))
    else ret tt).

Definition broadcastLargePayload (clients : SetRef) (message : value) : R unit :=
  let chunkSize := (512 * 1024)%Z in
  payload <- lift (get message "payload") ;;
  let payloadStr := JSON_stringify payload in
  size <- lift (text_length payloadStr) ;;
  let totalChunks := Math_ceil_div size chunkSize in
  console_log (lit "Chunking large payload: " ++ number_text size ++ lit " bytes into "
               ++ number_text totalChunks ++ lit " chunks") ;;
  channel <- lift (get message "channel") ;;
  id <- lift (get message "id") ;;
  broadcastToChannel clients
    (obj [("type", str "uml:payload:chunked:start");
          ("totalChunks", num totalChunks);
          ("chunkSize", num chunkSize);
          ("totalSize", num size);
          ("channel", channel);
          ("id", id)]) ;;
  forEach (map Z.of_nat (seq 0 (Z.to_nat totalChunks))) (fun i =>
    let start := (i * chunkSize)%Z in
    let finish := Z.min (start + chunkSize) size in
    let chunk := slice (match payloadStr with Some s => s | None => [] end) start finish in
    broadcastToChannel clients
      (obj [("type", str "uml:payload:chunk");
            ("chunkIndex", num i);
            ("totalChunks", num totalChunks);
            ("chunk", VStr chunk);
            ("channel", channel);
            ("id", id)]) ;;
    sleep 10) ;;
  broadcastToChannel clients
    (obj [("type", str "uml:payload:chunked:complete");
          ("channel", channel);
          ("id", id)]).

(** ** Message handlers (socket.ts 307-409) *)

(** The envelope of the pass-through handlers. *)
Definition relay_envelope (type : string) (message : value) : R value :=
  payload <- lift (get message "payload") ;;
  channel <- lift (get message "channel") ;;
  id <- lift (get message "id") ;;
  ret (obj [("type", str type); ("payload", payload); ("channel", channel); ("id", id)]).

Definition handleUmlGenerate (clients : SetRef) (message : value) : R unit :=
  console_log (lit "Handling UML generation request:") ;;
  payload <- lift (get message "payload") ;;
  channel <- lift (get message "channel") ;;
  id <- lift (get message "id") ;;
  broadcastToChannel clients
    (obj [("type", str "uml:generate:started");
          ("message", str "UML generation started");
          ("payload", payload);
          ("channel", channel);
          ("id", id)]).

Definition handleUmlPayload (clients : SetRef) (message : value) : R unit :=
  console_log (lit "Broadcasting UML payload to clients") ;;
  payload <- lift (get message "payload") ;;
  payloadSize <- lift (text_length (JSON_stringify payload)) ;;
  let maxSize := (1024 * 1024)%Z in
  if (maxSize <? payloadSize)%Z then
    broadcastLargePayload clients message
  else
    envelope <- relay_envelope "uml:payload" message ;;
    broadcastToChannel clients envelope.

Definition handleCodeOpen (clients : SetRef) (message : value) : R unit :=
  console_log (lit "Broadcasting code open request:") ;;
  envelope <- relay_envelope "code:open" message ;;
  broadcastToChannel clients envelope.

Definition handleCodeHighlight (clients : SetRef) (message : value) : R unit :=
  console_log (lit "Broadcasting code highlight:") ;;
  envelope <- relay_envelope "code:highlight" message ;;
  broadcastToChannel clients envelope.

(** [new Date().toISOString()] *)
Definition server_timestamp (w : World) : jsstring := toISOString (now w).

(** [`comment_${Date.now()}_${Math.random().toString(36).substr(2, 9)}`] *)
Definition server_comment_id (w : World) : jsstring :=
  lit "comment_" ++ number_text (now w) ++ lit "_" ++ random36 w.

Definition handleCommentUpsert (clients : SetRef) (message : value) : R unit :=
  console_log (lit "Broadcasting comment upsert:") ;;
  payload <- lift (get message "payload") ;;
  createdAt <- lift (get payload "createdAt") ;;
  payload <- (if negb (truthy createdAt) then
                stamp <- read server_timestamp ;;
                lift (assign payload "createdAt" (VStr stamp))
              else ret payload) ;;
  id <- lift (get payload "id") ;;
  payload <- (if negb (truthy id) then
                fresh <- read server_comment_id ;;
                lift (assign payload "id" (VStr fresh))
              else ret payload) ;;
  channel <- lift (get message "channel") ;;
  id <- lift (get message "id") ;;
  broadcastToChannel clients
    (obj [("type", str "comments:upsert");
          ("payload", payload);
          ("channel", channel);
          ("id", id)]).

Definition handleCommentExport (clients : SetRef) (message : value) : R unit :=
  console_log (lit "Broadcasting comment export request:") ;;
  envelope <- relay_envelope "comments:export" message ;;
  broadcastToChannel clients envelope.

(** ** The dispatcher for the domain types (socket.ts 247-304) *)

Definition error_reply (text : string) : value :=
  obj [("type", str "error"); ("message", str text)].

(** The [switch] inside the [try]. *)
Definition handleSpecialMessage_switch (channelClients : SetRef) (data : value) : R unit :=
  type <- lift (get data "type") ;;
  if is_str type "uml:generate" then handleUmlGenerate channelClients data
  else if is_str type "uml:payload" then handleUmlPayload channelClients data
  else if is_str type "code:open" then handleCodeOpen channelClients data
  else if is_str type "code:highlight" then handleCodeHighlight channelClients data
  else if is_str type "comments:upsert" then handleCommentUpsert channelClients data
  else if is_str type "comments:export" then handleCommentExport channelClients data
  else
    text <- lift (String_of type) ;;
    console_log (lit "Unknown message type: " ++ text).

(** The envelope of the [catch], for the text of the type. *)
Definition handler_error_envelope (type : jsstring) (channelName : value) (error : exn)
  : value :=
  obj [("type", str "error");
       ("message", VStr (lit "Failed to handle " ++ type ++ lit ": " ++ error_text error));
       ("channel", channelName)].

Definition handleSpecialMessage (ws : conn) (data : value) : R unit :=
  channelName <- lift (get data "channel") ;;
  if channel_name_missing channelName then
    send ws (error_reply "Channel name is required")
  else
    let channelClients : SetRef := string_of channelName in
    known <- read (fun w => Map_has channelClients (channels w)) ;;
    member <- read (fun w => Set_has ws (members_of channelClients w)) ;;
    if negb known || negb member then
      send ws (error_reply "You must join the channel first")
    else
      try_catch (handleSpecialMessage_switch channelClients data)
        (fun error =>
           type <- lift (get data "type") ;;
           text <- lift (String_of type) ;;
           console_error (lit "Error handling " ++ text ++ lit ":") ;;
           broadcastToChannel channelClients (handler_error_envelope text channelName error)).

(** ** The socket callbacks (socket.ts 72-103 and 139-243) *)

(** The function that handleConnection stores in [ws.close]. *)
Definition handleConnection_close (ws : conn) : R unit :=
  console_log (lit "Client disconnected") ;;
  names <- read (fun w => map fst (channels w)) ;;
  forEach names (fun channelName =>
    has <- read (fun w => Set_has ws (members_of channelName w)) ;;
    if has then
      modify (with_channels (Map_update channelName (Set_delete ws))) ;;
      clients <- members channelName ;;
      forEach clients (fun client =>
        open <- client_is_open client ;;
        if open then
          send client (obj [("type", str "system");
                            ("message", str "A user has left the channel");
                            ("channel", VStr channelName)])
        else ret tt)
    else ret tt).

Definition handleConnection (ws : conn) : R unit :=
  console_log (lit "New client connected") ;;
  send ws (obj [("type", str "system");
                ("message", str "Please join a channel to start chatting")]) ;;
  modify (with_closeReplaced ws).

(** An inbound frame as [JSON.parse] reads it. *)
Inductive frame : Type :=
| Malformed
| Parsed (data : value).

Definition JSON_parse (message : frame) : R value :=
  match message with
  | Parsed data => ret data
  | Malformed => throw SyntaxError
  end.

(** The branch [data.type === "join"] of [message]. *)
Definition message_join (ws : conn) (data : value) : R unit :=
  channelName <- lift (get data "channel") ;;
  if channel_name_missing channelName then
    send ws (error_reply "Channel name is required")
  else
    let name := string_of channelName in
    known <- read (fun w => Map_has name (channels w)) ;;
    (if negb known then modify (with_channels (Map_set name [])) else ret tt) ;;
    let channelClients : SetRef := name in
    modify (with_channels (Map_update channelClients (Set_add ws))) ;;
    send ws (obj [("type", str "system");
                  ("message", VStr (lit "Joined channel: " ++ name));
                  ("channel", channelName)]) ;;
    id <- lift (get data "id") ;;
    console_log (lit "Sending message to client:") ;;
    send ws (obj [("type", str "system");
                  ("message", obj [("id", id);
                                   ("result", VStr (lit "Connected to channel: " ++ name))]);
                  ("channel", channelName)]) ;;
    clients <- members channelClients ;;
    forEach clients (fun client =>
      open <- client_is_open client ;;
      if negb (Nat.eqb client ws) && open then
        send client (obj [("type", str "system");
                          ("message", str "A new user has joined the channel");
                          ("channel", channelName)])
      else ret tt).

(** The branch [data.type === "message"] of [message]. *)
Definition message_chat (ws : conn) (data : value) : R unit :=
  channelName <- lift (get data "channel") ;;
  if channel_name_missing channelName then
    send ws (error_reply "Channel name is required")
  else
    let channelClients : SetRef := string_of channelName in
    known <- read (fun w => Map_has channelClients (channels w)) ;;
    member <- read (fun w => Set_has ws (members_of channelClients w)) ;;
    if negb known || negb member then
      send ws (error_reply "You must join the channel first")
    else
      clients <- members channelClients ;;
      forEach clients (fun client =>
        open <- client_is_open client ;;
        if open then
          console_log (lit "Broadcasting message to client:") ;;
          text <- lift (get data "message") ;;
          send client (obj [("type", str "broadcast");
                            ("message", text);
                            ("sender", if Nat.eqb client ws then str "You" else str "User");
                            ("channel", channelName)])
        else ret tt).

Definition message (ws : conn) (message : frame) : R unit :=
  try_catch
    (console_log (lit "Received message from client:") ;;
     data <- JSON_parse message ;;
     type <- lift (get data "type") ;;
     if is_str type "join" then message_join ws data
     else if is_str type "message" then message_chat ws data
     else handleSpecialMessage ws data)
    (fun err => console_error (lit "Error handling message:")).

Definition close (ws : conn) : R unit :=
  modify (with_channels (map (fun entry => (fst entry, Set_delete ws (snd entry))))).

(** The events of a socket, and the callback of [websocket: { open, message,
    close }] the runtime calls at each, after it has moved the socket to its
    new state. *)
Inductive socket_event : Type :=
| Opens (ws : conn)
| Receives (ws : conn) (message : frame)
| Closes (ws : conn).

Definition websocket (ev : socket_event) : R unit :=
  match ev with
  | Opens ws => modify (with_readyState ws OPEN) ;; handleConnection ws
  | Receives ws m => message ws m
  | Closes ws => modify (with_readyState ws CLOSED) ;; close ws
  end.

End Handlers.

(** The envelopes a trace hands to [send] for one connection, in order,
    whether the call returned or threw. *)
Fixpoint attempts_to (c : conn) (t : list effect) : list value :=
  match t with
  | [] => []
  | Sent to envelope :: rest =>
      if Nat.eqb to c then envelope :: attempts_to c rest else attempts_to c rest
  | SendThrew to envelope :: rest =>
      if Nat.eqb to c then envelope :: attempts_to c rest else attempts_to c rest
  | _ :: rest => attempts_to c rest
  end.

(** The envelopes a trace delivers to one connection. *)
Fixpoint delivered_to (c : conn) (t : list effect) : list value :=
  match t with
  | [] => []
  | Sent to envelope :: rest =>
      if Nat.eqb to c then envelope :: delivered_to c rest else delivered_to c rest
  | _ :: rest => delivered_to c rest
  end.

(** The type tags of the six domain messages, and of the channel-scoped
    messages other than join. *)
Definition domain_types : list string :=
  ["uml:generate"; "uml:payload"; "code:open"; "code:highlight";
   "comments:upsert"; "comments:export"].

Definition channel_scoped_types : list string := "message" :: domain_types.

End Relay.

(* ================================================================== *)
(** * The client-side reassembler: src/cursor_mcp_plugin/ui/utils/websocket.ts *)
(* ================================================================== *)

Module Client.
Import Js Eff.
Local Open Scope string_scope.
Local Open Scope list_scope.
Local Open Scope eff_scope.

(** An array as the reassembler holds one: its elements, [None] being a
    hole, and the writes under keys that are no array index, the oldest
    first. Such a write makes or changes a property of the array beside its
    elements; three keys matter to what the reassembler does later: length,
    which changes the elements, join, which hides the method of that name,
    and __proto__, which replaces the prototype. *)
Record JsArray : Type := {
  slots : list (option value);
  named : list (jsstring * value)
}.

(** An entry of [chunkedMessages]. *)
Record ChunkSession : Type := {
  chunks : JsArray;
  received : Z;
  total : value
}.

(** The part of the store's [AppState] that a diagram delivery writes
    (store.ts 58-63 and 95-98). *)
Record AppState : Type := {
  diagram : value;
  directoryTree : value;
  selectedNodeIds : list jsstring;
  dimmedNodeIds : list jsstring
}.

(** A subscribed listener, as far as the reassembler can tell: whether it
    throws when called with a state. *)
Definition listener := AppState -> bool.

Record State : Type := {
  chunkedMessages : list (value * ChunkSession);
  store : AppState;
  listeners : list listener
}.

Inductive effect : Type :=
| ConsoleLog (label : jsstring)    (* console.log, the constant text it starts with *)
| ConsoleError (label : jsstring)  (* console.error *)
| Notified (state : AppState).     (* a listener called with the store's state *)

Definition C := M State effect.

Definition console_log (label : jsstring) : C unit := emit (ConsoleLog label).
Definition console_error (label : jsstring) : C unit := emit (ConsoleError label).

(** SameValueZero, the equality of [Map] keys; an object or array parsed from
    one frame is never the object parsed from another. *)
Definition same_key (a b : value) : bool :=
  match a, b with
  | VUndefined, VUndefined => true
  | VNull, VNull => true
  | VBool x, VBool y => Bool.eqb x y
  | VNum x, VNum y => Qeq_bool x y
  | VStr x, VStr y => str_eqb x y
  | _, _ => false
  end.

Fixpoint Map_get (k : value) (m : list (value * ChunkSession)) : option ChunkSession :=
  match m with
  | [] => None
  | (k', s) :: rest => if same_key k' k then Some s else Map_get k rest
  end.

Fixpoint Map_set (k : value) (s : ChunkSession) (m : list (value * ChunkSession))
  : list (value * ChunkSession) :=
  match m with
  | [] => [(k, s)]
  | (k', s') :: rest =>
      if same_key k' k then (k', s) :: rest else (k', s') :: Map_set k s rest
  end.

Definition Map_delete (k : value) (m : list (value * ChunkSession))
  : list (value * ChunkSession) :=
  filter (fun entry => negb (same_key (fst entry) k)) m.

Definition with_chunkedMessages
  (f : list (value * ChunkSession) -> list (value * ChunkSession)) (s : State) : State :=
  {| chunkedMessages := f (chunkedMessages s); store := store s; listeners := listeners s |}.

Definition with_store (f : AppState -> AppState) (s : State) : State :=
  {| chunkedMessages := chunkedMessages s; store := f (store s); listeners := listeners s |}.

(** ** The store (store.ts) *)

Definition notify : C unit :=
  ls <- read listeners ;;
  forEach ls (fun l =>
    st <- read store ;;
    emit (Notified st) ;;
    if l st then throw ListenerError else ret tt).

Definition setDiagram (d : value) : C unit :=
  modify (with_store (fun st =>
    {| diagram := d; directoryTree := directoryTree st;
       selectedNodeIds := []; dimmedNodeIds := [] |})) ;;
  notify.

Definition setDirectoryTree (tree : value) : C unit :=
  modify (with_store (fun st =>
    {| diagram := diagram st; directoryTree := tree;
       selectedNodeIds := selectedNodeIds st; dimmedNodeIds := dimmedNodeIds st |})) ;;
  notify.

(** ** Arrays *)

(** Whether a number is an array length: an integer from 0 to 2^32 - 1. *)
Definition is_array_length (q : Q) : bool :=
  Qeq_bool q (inject_Z (Qfloor q)) && (0 <=? Qfloor q)%Z && (Qfloor q <? 2 ^ 32)%Z.

(** [new Array(n).fill(x)]: [n] slots for a number that is an array length, a
    RangeError for another number, and the one slot of [[n]] otherwise. *)
Definition new_Array_fill (n x : value) : result JsArray :=
  match n with
  | VNum q =>
      if is_array_length q
      then Ok {| slots := repeat (Some x) (Z.to_nat (Qfloor q)); named := [] |}
      else Throw RangeError
  | _ => Ok {| slots := [Some x]; named := [] |}
  end.

(** Writing the element [i]: past the end the array grows, the slots between
    are holes. *)
Fixpoint store_at (i : nat) (x : value) (slots : list (option value))
  : list (option value) :=
  match i, slots with
  | O, [] => [Some x]
  | O, _ :: rest => Some x :: rest
  | S i', [] => None :: store_at i' x []
  | S i', y :: rest => y :: store_at i' x rest
  end.

Section Handlers.
Context {engine : Engine}.

(** [a.length = x]: the elements up to the new length, followed by holes
    when the array grows; a RangeError when the number of [x] is no array
    length, and the TypeError of a value that has no number. *)
Definition set_length (slots : list (option value)) (x : value)
  : result (list (option value)) :=
  match Number_of x with
  | Ok (Some q) =>
      if is_array_length q
      then Ok (firstn (Z.to_nat (Qfloor q)) slots
               ++ repeat None (Z.to_nat (Qfloor q) - List.length slots))
      else Throw RangeError
  | Ok None => Throw RangeError
  | Throw e => Throw e
  end.

(** [a[key] = x]: the key is made a string, which throws for an object that
    has no text; the string of an array index names an element, the string
    length the length, and another one a property beside the elements. *)
Definition array_assign (a : JsArray) (key x : value) : result JsArray :=
  match String_of key with
  | Ok name =>
      match array_index name with
      | Some i => Ok {| slots := store_at i x (slots a); named := named a |}
      | None =>
          if str_eqb name (lit "length") then
            match set_length (slots a) x with
            | Ok slots' => Ok {| slots := slots'; named := named a ++ [(name, x)] |}
            | Throw e => Throw e
            end
          else Ok {| slots := slots a; named := named a ++ [(name, x)] |}
      end
  | Throw e => Throw e
  end.

(** The texts of the elements for [join]: undefined, null and a hole give
    the empty text; the conversion of another element may throw. *)
Fixpoint element_texts (slots : list (option value)) : result (list jsstring) :=
  match slots with
  | [] => Ok []
  | slot :: rest =>
      match (match slot with
             | None | Some VUndefined | Some VNull => Ok []
             | Some v => String_of v
             end) with
      | Ok t => match element_texts rest with
                | Ok ts => Ok (t :: ts)
                | Throw e => Throw e
                end
      | Throw e => Throw e
      end
  end.

(** The values written under a key, the oldest first. *)
Definition written_under (k : string) (named : list (jsstring * value)) : list value :=
  map snd (filter (fun kv => str_eqb (fst kv) (lit k)) named).

(** Whether a write under the key __proto__ reaches the setter of
    Object.prototype, for an array with the given prototype, [None] being
    Array.prototype: not when the prototype is null, nor when it is an
    object with a property __proto__ of its own, as [JSON.parse] makes them.
    The write then makes a property of the array, and so does every later
    one. *)
Definition setter_reached (prototype : option value) : bool :=
  match prototype with
  | None => true
  | Some (VArr _) => true
  | Some (VObj fields) => negb (has_own fields "__proto__")
  | Some _ => false
  end.

(** The prototype of an array after writes under the key __proto__, the
    oldest first: the setter takes an object, an array or null, and leaves
    the prototype as it is for another value. *)
Fixpoint prototype_after (prototype : option value) (writes : list value) : option value :=
  match writes with
  | [] => prototype
  | x :: rest =>
      if setter_reached prototype then
        match x with
        | VNull | VObj _ | VArr _ => prototype_after (Some x) rest
        | VUndefined | VBool _ | VNum _ | VStr _ => prototype_after prototype rest
        end
      else prototype
  end.

(** The elements as they are read when the prototype is an array with the
    given elements: a hole shows the element of the prototype. *)
Fixpoint inherited (slots : list (option value)) (items : list value)
  : list (option value) :=
  match slots with
  | [] => []
  | slot :: rest =>
      match slot with
      | Some v => Some v
      | None => hd_error items
      end :: inherited rest (tl items)
  end.

(** [a.join('')]: a TypeError when a write under the key join has hidden
    the method, since no value of a frame is a function, and when the
    prototype was replaced by null or by an object, which have no such
    method; the texts of the elements put together otherwise. *)
Definition join_empty (a : JsArray) : result jsstring :=
  if has_own (named a) "join" then Throw (TypeError "join")
  else
    match
      match prototype_after None (written_under "__proto__" (named a)) with
      | None => Ok (slots a)
      | Some (VArr items) => Ok (inherited (slots a) items)
      | Some _ => Throw (TypeError "join")
      end
    with
    | Ok elements =>
        match element_texts elements with
        | Ok ts => Ok (List.concat ts)
        | Throw e => Throw e
        end
    | Throw e => Throw e
    end.

(** [JSON.parse(text)] *)
Definition JSON_parse (text : jsstring) : C value :=
  match json_parse text with
  | Some v => ret v
  | None => throw SyntaxError
  end.

(** [{ ...message, payload: x }]; a frame that reached a handler has a [type]
    and is an object. *)
Definition spread_with_payload (message x : value) : value :=
  match message with
  | VObj fields => VObj (set_field fields (lit "payload") x)
  | _ => obj [("payload", x)]
  end.

(** [message.id || 'default'] *)
Definition messageId_of (id : value) : value :=
  if truthy id then id else str "default".

(** ** The handlers (websocket.ts 121-175) *)

Definition handleUmlPayload (message : value) : C unit :=
  payload <- lift (get message "payload") ;;
  if truthy payload then
    d <- lift (get payload "diagram") ;;
    if truthy d then
      setDiagram d ;;
      directory <- lift (get payload "directory") ;;
      (if truthy directory then setDirectoryTree directory else ret tt) ;;
      console_log (lit "UML diagram loaded:")
    else ret tt
  else ret tt.

Definition handleChunkedStart (message : value) : C unit :=
  id <- lift (get message "id") ;;
  let messageId := messageId_of id in
  payload <- lift (get message "payload") ;;
  totalChunks <- lift (get payload "totalChunks") ;;
  array <- lift (new_Array_fill totalChunks (str "")) ;;
  modify (with_chunkedMessages
            (Map_set messageId {| chunks := array; received := 0%Z; total := totalChunks |})) ;;
  text <- lift (String_of totalChunks) ;;
  console_log (lit "Starting chunked message reception: ").

Definition handleChunk (message : value) : C unit :=
  id <- lift (get message "id") ;;
  let messageId := messageId_of id in
  chunkedMsg <- read (fun s => Map_get messageId (chunkedMessages s)) ;;
  match chunkedMsg with
  | Some session =>
      payload <- lift (get message "payload") ;;
      if truthy payload then
        chunkIndex <- lift (get payload "chunkIndex") ;;
        chunk <- lift (get payload "chunk") ;;
        array <- lift (array_assign (chunks session) chunkIndex chunk) ;;
        modify (with_chunkedMessages
                  (Map_set messageId
                     {| chunks := array;
                        received := (received session + 1)%Z;
                        total := total session |})) ;;
        (* [chunkIndex + 1] has a text whenever the key had one *)
        text <- lift (String_of (total session)) ;;
        console_log (lit "Received chunk ")
      else ret tt
  | None => ret tt
  end.

Definition handleChunkedComplete (message : value) : C unit :=
  id <- lift (get message "id") ;;
  let messageId := messageId_of id in
  chunkedMsg <- read (fun s => Map_get messageId (chunkedMessages s)) ;;
  match chunkedMsg with
  | Some session =>
      completePayload <- lift (join_empty (chunks session)) ;;
      try_catch
        (parsedPayload <- JSON_parse completePayload ;;
         handleUmlPayload (spread_with_payload message parsedPayload))
        (fun error => console_error (lit "Error parsing chunked payload:")) ;;
      modify (with_chunkedMessages (Map_delete messageId)) ;;
      console_log (lit "Chunked message completed")
  | None => ret tt
  end.

End Handlers.

End Client.

(* ================================================================== *)
(** * Sample engine, worlds and frames *)
(* ================================================================== *)

Module Samples.
Import Js Eff Relay.
Local Open Scope string_scope.
Local Open Scope list_scope.

(** The JSON text of an object with a diagram named d. *)
Definition diagram_text : jsstring :=
  lit "{" ++ [34%N] ++ lit "diagram" ++ [34%N] ++ lit ":" ++ [34%N] ++ lit "d" ++ [34%N]
  ++ lit "}".

(** A string between quotes. *)
Definition quoted (s : jsstring) : jsstring := [34%N] ++ s ++ [34%N].

(** The JSON text of a value whose strings need no escape and whose numbers
    are integers: a property whose value is undefined is left out. *)
Fixpoint sample_json (v : value) : jsstring :=
  match v with
  | VUndefined | VNull => lit "null"
  | VBool true => lit "true"
  | VBool false => lit "false"
  | VNum q => decimal (Qfloor q)
  | VStr s => quoted s
  | VArr items =>
      lit "["
      ++ separated (lit ",")
           ((fix texts (xs : list value) : list jsstring :=
               match xs with
               | [] => []
               | x :: rest => sample_json x :: texts rest
               end) items)
      ++ lit "]"
  | VObj fields =>
      lit "{"
      ++ separated (lit ",")
           ((fix texts (kvs : list (jsstring * value)) : list jsstring :=
               match kvs with
               | [] => []
               | (k, x) :: rest =>
                   match x with
                   | VUndefined => texts rest
                   | _ => (quoted k ++ lit ":" ++ sample_json x) :: texts rest
                   end
               end) fields)
      ++ lit "}"
  end.

(** An engine for the sample runs. It stringifies the values of the samples
    as [JSON.stringify] does, and parses the texts of the samples as
    [JSON.parse] does: the empty object, the object with a diagram, and the
    empty text, which is no JSON. No sample run parses another text, prints
    a number that is no integer, reads the clock at another time than that
    of the sample worlds, or takes a string for a number, which this engine
    does for decimal digits only; the text of an exception is the one of
    this engine. *)
Definition sample_engine : Engine :=
  {| json_text := sample_json;
     json_parse := fun t => if str_eqb t (lit "{}") then Some (VObj [])
                            else if str_eqb t diagram_text
                                 then Some (obj [("diagram", str "d")])
                                 else None;
     number_to_string := fun _ => lit "NaN";
     error_text := fun e => match e with
                            | TypeError p => lit "TypeError: " ++ lit p
                            | _ => lit "Error"
                            end;
     iso_date_time := fun _ => lit "2023-11-14T22:13:20.000";
     string_to_number := fun s =>
       match latin s with
       | Some text =>
           match DecimalString.NilZero.uint_of_string text with
           | Some digits => Some (inject_Z (Z.of_N (N.of_uint digits)))
           | None => None
           end
       | None => None
       end |}.

(** The state ten milliseconds later. *)
Definition later (w : World) : World :=
  {| channels := channels w; readyState := readyState w; sendThrows := sendThrows w;
     closeReplaced := closeReplaced w; now := (now w + 10)%Z; random36 := random36 w |}.

(** An event loop in which no socket event comes while a handler waits. *)
Definition alone : EventLoop := {| meanwhile := later |}.

Definition room : jsstring := lit "room".

(** A world with the given channels, where the sockets of [closing] are
    closing and the sends to those of [failing] throw. *)
Definition sample_world (chs : ChannelMap) (closing failing : list conn) : World :=
  {| channels := chs;
     readyState := fun c => if existsb (Nat.eqb c) closing then CLOSING else OPEN;
     sendThrows := fun c => existsb (Nat.eqb c) failing;
     closeReplaced := [];
     now := 1700000000000%Z;
     random36 := lit "k3j9x2m1q" |}.

(** The fields of a frame for [room] with the id m1. *)
Definition frame_of (type : string) (rest : list (string * value)) : list (jsstring * value) :=
  map (fun kv => (lit (fst kv), snd kv))
      (("type", str type) :: ("channel", str "room") :: ("id", str "m1") :: rest).

(** The fields of a frame for [room] whose type is any value. *)
Definition frame_of_type (type : value) : list (jsstring * value) :=
  [(lit "type", type); (lit "channel", str "room"); (lit "id", str "m1")].


(** A text of one code unit more than 1 MiB. *)
Definition big_text : jsstring := repeat 120%N (N.to_nat 1048577).

(** A comment whose [id] is present and empty. *)
Definition comment_fields : list (jsstring * value) :=
  map (fun kv => (lit (fst kv), snd kv))
      [("id", str ""); ("file", str "a.ts"); ("line", num 3); ("text", str "why?");
       ("createdAt", str "2024-05-01T10:00:00.000Z")].

(** A session whose two chunks are received. *)
Definition sample_session : Client.ChunkSession :=
  {| Client.chunks := {| Client.slots := [Some (str "{"); Some (str "}")];
                         Client.named := [] |};
     Client.received := 2%Z; Client.total := num 2 |}.

(** A session whose only chunk is an object with a property toString. *)
Definition textless_session : Client.ChunkSession :=
  {| Client.chunks := {| Client.slots := [Some (obj [("toString", num 0)])];
                         Client.named := [] |};
     Client.received := 1%Z; Client.total := num 1 |}.

(** A client holding the given sessions, an empty store and no listener. *)
Definition sample_client (sessions : list (value * Client.ChunkSession)) : Client.State :=
  {| Client.chunkedMessages := sessions;
     Client.store := {| Client.diagram := VNull; Client.directoryTree := VNull;
                        Client.selectedNodeIds := []; Client.dimmedNodeIds := [] |};
     Client.listeners := [] |}.

End Samples.

(* ================================================================== *)
(** * Vocabulary of the statements *)
(* ================================================================== *)

Import Js Eff Relay.
Local Open Scope string_scope.
Local Open Scope list_scope.
Unset Implicit Arguments.

Section Vocabulary.
Context {engine : Engine} {loop : EventLoop}.

(** The state a handler finds after it has waited [k] times for a timer. *)
Definition after_waits (k : nat) (w : World) : World := Nat.iter k meanwhile w.

(** The trace of one broadcast over the members [cs]. *)
Definition broadcast_trace (w : World) (cs : list conn) (envelope : value) : list effect :=
  flat_map (fun client =>
    if is_open (readyState w client) then
      if sendThrows w client
      then [SendThrew client envelope; ConsoleError (lit "Error sending message to client:")]
      else [Sent client envelope]
    else []) cs.

(** The two lines [message] logs. *)
Definition received_log : effect := ConsoleLog (lit "Received message from client:").
Definition handling_error_log : effect := ConsoleError (lit "Error handling message:").

(** What [message] makes of the run of the branch it takes. *)
Definition message_wraps (r : result unit * World * list effect) : result unit * World * list effect :=
  match r with
  | (Ok a, w1, t1) => (Ok a, w1, received_log :: t1)
  | (Throw e, w1, t1) => (Ok tt, w1, received_log :: t1 ++ [handling_error_log])
  end.

(** The envelope of a pass-through handler for the fields of a frame. *)
Definition relayed (type : string) (fields : list (jsstring * value)) : value :=
  obj [("type", str type);
       ("payload", own fields (lit "payload"));
       ("channel", own fields (lit "channel"));
       ("id", own fields (lit "id"))].

(** The frames that reach the [switch]: a type other than join and message,
    a channel name, a sender that is a member. *)
Definition reaches_switch (ws : conn) (fields : list (jsstring * value))
    (name : jsstring) (w : World) : Prop :=
  is_str (own fields (lit "type")) "join" = false /\
  is_str (own fields (lit "type")) "message" = false /\
  own fields (lit "channel") = VStr name /\
  name <> [] /\
  In ws (members_of name w).

(** The three kinds of envelope of a chunked payload. *)
Definition chunked_start (fields : list (jsstring * value)) (size : Z) : value :=
  obj [("type", str "uml:payload:chunked:start");
       ("totalChunks", num (Math_ceil_div size 524288));
       ("chunkSize", num 524288);
       ("totalSize", num size);
       ("channel", own fields (lit "channel"));
       ("id", own fields (lit "id"))].

Definition chunked_chunk (fields : list (jsstring * value)) (text : jsstring) (i : Z) : value :=
  obj [("type", str "uml:payload:chunk");
       ("chunkIndex", num i);
       ("totalChunks", num (Math_ceil_div (Z.of_nat (List.length text)) 524288));
       ("chunk", VStr (slice text (i * 524288) (Z.min ((i + 1) * 524288) (Z.of_nat (List.length text)))));
       ("channel", own fields (lit "channel"));
       ("id", own fields (lit "id"))].

Definition chunked_complete (fields : list (jsstring * value)) : value :=
  obj [("type", str "uml:payload:chunked:complete");
       ("channel", own fields (lit "channel"));
       ("id", own fields (lit "id"))].

(** The indices the [for] loop runs through. *)
Definition chunk_indices (size : Z) : list Z :=
  map Z.of_nat (seq 0 (Z.to_nat (Math_ceil_div size 524288))).

(** A field of a comment filled when its value is falsy. *)
Definition filled (k : string) (x : jsstring) (pf : list (jsstring * value))
  : list (jsstring * value) :=
  if truthy (own pf (lit k)) then pf else set_field pf (lit k) (VStr x).

(** The payload of a comment after [handleCommentUpsert]. *)
Definition normalized (w : World) (pf : list (jsstring * value)) : list (jsstring * value) :=
  filled "id" (server_comment_id w) (filled "createdAt" (server_timestamp w) pf).

Definition upsert_log : effect := ConsoleLog (lit "Broadcasting comment upsert:").

(** A type that is none of join, message and the six domain types. *)
Definition unknown_type (ty : value) : bool :=
  negb (existsb (is_str ty) ("join" :: channel_scoped_types)).

(** The type and the channel of a frame as [message] reads them: a text that
    is no JSON has none, and neither has null, whose properties cannot be
    read. *)
Definition type_of_frame (message : frame) : option value :=
  match message with
  | Parsed data => match get data "type" with Ok ty => Some ty | Throw _ => None end
  | Malformed => None
  end.

Definition channel_of_frame (message : frame) : option value :=
  match message with
  | Parsed data => match get data "channel" with Ok ch => Some ch | Throw _ => None end
  | Malformed => None
  end.

(** A frame that names no channel: its channel is missing, empty or no
    string. *)
Definition nameless (message : frame) : bool :=
  match channel_of_frame message with
  | Some ch => channel_name_missing ch
  | None => true
  end.

(** A frame whose type is none of join, message and the six domain types;
    a frame without a type is one. *)
Definition unlisted (message : frame) : bool :=
  match type_of_frame message with
  | Some ty => unknown_type ty
  | None => true
  end.

(** The world after the two writes of a join. *)
Definition joined (ws : conn) (name : jsstring) (w : World) : World :=
  with_channels (Map_update name (Set_add ws))
    (if Map_has name (channels w) then w else with_channels (Map_set name []) w).

(** The three envelopes of a join. *)
Definition join_ack (name : jsstring) : value :=
  obj [("type", str "system");
       ("message", VStr (lit "Joined channel: " ++ name));
       ("channel", VStr name)].

Definition join_echo (id : value) (name : jsstring) : value :=
  obj [("type", str "system");
       ("message", obj [("id", id);
                        ("result", VStr (lit "Connected to channel: " ++ name))]);
       ("channel", VStr name)].

Definition join_notice (name : jsstring) : value :=
  obj [("type", str "system");
       ("message", str "A new user has joined the channel");
       ("channel", VStr name)].

End Vocabulary.

(* ================================================================== *)
(** * Vocabulary of the further statements on the relay *)
(* ================================================================== *)

Section RelayVocabulary.
Context {engine : Engine} {loop : EventLoop}.

(** A property of the state that a computation keeps, however it ends. *)
Definition keeps {St E A : Type} (P : St -> Prop) (m : M St E A) : Prop :=
  forall s, P s -> P (final (m s)).

(** A property of the state that a write keeps. *)
Definition stable_under {St : Type} (f : St -> St) (P : St -> Prop) : Prop :=
  forall s, P s -> P (f s).

(** The registry as a Map of Sets: no channel name twice, no member twice. *)
Definition distinct (w : World) : Prop :=
  NoDup (map fst (channels w)) /\
  Forall (fun entry => NoDup (snd entry)) (channels w).

(** The state after a sequence of socket events. *)
Fixpoint run_events (evs : list socket_event) (w : World) : World :=
  match evs with
  | [] => w
  | ev :: rest => run_events rest (final (websocket ev w))
  end.

(** The envelope the chat loop sends to one member. *)
Definition chat_envelope (ws : conn) (fields : list (jsstring * value)) (client : conn)
  : value :=
  obj [("type", str "broadcast");
       ("message", own fields (lit "message"));
       ("sender", if Nat.eqb client ws then str "You" else str "User");
       ("channel", own fields (lit "channel"))].

(** The members the chat loop reaches: all of them up to the first open
    member whose send throws, that one included. *)
Fixpoint reached (w : World) (cs : list conn) : list conn :=
  match cs with
  | [] => []
  | c :: rest =>
      if is_open (readyState w c) && sendThrows w c then [c] else c :: reached w rest
  end.

(** The trace of the chat loop over the members [cs]. *)
Fixpoint chat_trace (w : World) (ws : conn) (fields : list (jsstring * value))
    (cs : list conn) : list effect :=
  match cs with
  | [] => []
  | c :: rest =>
      if is_open (readyState w c) then
        ConsoleLog (lit "Broadcasting message to client:")
        :: (if sendThrows w c
            then [SendThrew c (chat_envelope ws fields c)]
            else Sent c (chat_envelope ws fields c) :: chat_trace w ws fields rest)
      else chat_trace w ws fields rest
  end.

(** The notification of the function kept in [ws.close]. *)
Definition left_notice (name : jsstring) : value :=
  obj [("type", str "system");
       ("message", str "A user has left the channel");
       ("channel", VStr name)].

End RelayVocabulary.

(* ================================================================== *)
(** * Vocabulary of the further statements on the reassembler *)
(* ================================================================== *)

Section ReassemblerVocabulary.
Context {engine : Engine}.

(** A start frame and a chunk frame in the shape the reassembler reads:
    the numbers and the chunk under [payload]. *)
Definition start_frame (id : value) (totalChunks : Z) : list (jsstring * value) :=
  [(lit "type", str "uml:payload:chunked:start");
   (lit "id", id);
   (lit "payload", obj [("totalChunks", num totalChunks)])].

Definition chunk_frame (id : value) (index : nat) (chunk : jsstring)
  : list (jsstring * value) :=
  [(lit "type", str "uml:payload:chunk");
   (lit "id", id);
   (lit "payload", obj [("chunkIndex", num (Z.of_nat index)); ("chunk", VStr chunk)])].

(** The chunk frames of the pieces [ps], numbered from [k]. *)
Fixpoint chunk_frames (id : value) (k : nat) (ps : list jsstring)
  : list (list (jsstring * value)) :=
  match ps with
  | [] => []
  | p :: rest => chunk_frame id k p :: chunk_frames id (S k) rest
  end.

(** The state of the client after [handleChunk] has taken the frames in
    order. *)
Fixpoint after_chunks (frames : list (list (jsstring * value))) (s : Client.State)
  : Client.State :=
  match frames with
  | [] => s
  | m :: rest => after_chunks rest (final (Client.handleChunk (VObj m) s))
  end.

(** The array whose elements are the pieces [ps], followed by the elements
    [rest], and which has no other property. *)
Definition array_of (ps : list jsstring) (rest : list (option value)) : Client.JsArray :=
  {| Client.slots := map (fun p => Some (VStr p)) ps ++ rest; Client.named := [] |}.

(** The states of the store with which a trace calls the listeners, in
    order. *)
Fixpoint notifications (t : list Client.effect) : list Client.AppState :=
  match t with
  | [] => []
  | Client.Notified st :: rest => st :: notifications rest
  | _ :: rest => notifications rest
  end.

(** The ids a frame has by its type: a string or none. *)
Definition string_or_absent (id : value) : Prop :=
  id = VUndefined \/ exists s, id = VStr s.

(** The pieces the relay cuts from a text. *)
Definition pieces (text : jsstring) : list jsstring :=
  map (fun i => slice text (i * 524288)
                  (Z.min ((i + 1) * 524288) (Z.of_nat (List.length text))))
      (chunk_indices (Z.of_nat (List.length text))).

End ReassemblerVocabulary.

(* ================================================================== *)
(** * The client's inbox: the dispatcher of
      src/cursor_mcp_plugin/ui/utils/websocket.ts (45-52 and 71-119) *)
(* ================================================================== *)

Module Inbox.
Import Js Eff.
Local Open Scope string_scope.
Local Open Scope list_scope.
Local Open Scope eff_scope.

Section Dispatch.
Context {engine : Engine}.

(** The handlers of the three message types that write store fields beside
    the ones of [Client.AppState]; the dispatcher is the same whatever they
    do. *)
Variables handleCodeOpen handleCodeHighlight handleCommentUpsert : value -> Client.C unit.

Definition handleSystemMessage (message : value) : Client.C unit :=
  text <- lift (get message "message") ;;
  Client.console_log (lit "System message:").

Definition handleMessage (message : value) : Client.C unit :=
  type <- lift (get message "type") ;;
  Client.console_log (lit "Received message:") ;;
  if is_str type "system" then handleSystemMessage message
  else if is_str type "uml:payload" then Client.handleUmlPayload message
  else if is_str type "uml:payload:chunked:start" then Client.handleChunkedStart message
  else if is_str type "uml:payload:chunk" then Client.handleChunk message
  else if is_str type "uml:payload:chunked:complete" then Client.handleChunkedComplete message
  else if is_str type "code:open" then handleCodeOpen message
  else if is_str type "code:highlight" then handleCodeHighlight message
  else if is_str type "comments:upsert" then handleCommentUpsert message
  else if is_str type "error" then
    text <- lift (get message "message") ;;
    Client.console_error (lit "Server error:")
  else Client.console_log (lit "Unhandled message type:").

(** [ws.onmessage]; the text of the event is given as [JSON.parse] reads
    it. *)
Definition onmessage (data : Relay.frame) : Client.C unit :=
  try_catch
    (message <- match data with
                | Relay.Parsed v => ret v
                | Relay.Malformed => throw SyntaxError
                end ;;
     handleMessage message)
    (fun error => Client.console_error (lit "Error parsing WebSocket message:")).

End Dispatch.

(** The message types whose case of [handleMessage] calls a handler that
    writes: all the cases but system and error, which log. *)
Definition writing_types : list string :=
  ["uml:payload"; "uml:payload:chunked:start"; "uml:payload:chunk";
   "uml:payload:chunked:complete"; "code:open"; "code:highlight"; "comments:upsert"].

End Inbox.

(* ================================================================== *)
(** * Vocabulary of the further statements on the inbox *)
(* ================================================================== *)

Section InboxVocabulary.
Context {engine : Engine}.
Variables handleCodeOpen handleCodeHighlight handleCommentUpsert : value -> Client.C unit.

(** The state of the client after its [onmessage] has taken the frames in
    order. *)
Fixpoint after_frames (frames : list value) (s : Client.State) : Client.State :=
  match frames with
  | [] => s
  | m :: rest =>
      after_frames rest
        (final (Inbox.onmessage handleCodeOpen handleCodeHighlight handleCommentUpsert
                  (Parsed m) s))
  end.

(** The envelopes the relay sends a member for a payload of the text [text],
    in order. *)
Definition relay_chunk_envelopes (fields : list (jsstring * value)) (text : jsstring)
  : list value :=
  chunked_start fields (Z.of_nat (List.length text))
  :: map (chunked_chunk fields text) (chunk_indices (Z.of_nat (List.length text)))
  ++ [chunked_complete fields].

(** The frame of a diagram delivery with the fields of [fields] and the
    payload [v], as [handleChunkedComplete] builds it. *)
Definition delivery_of (fields : list (jsstring * value)) (v : value) : value :=
  Client.spread_with_payload (VObj fields) v.

(** The store after a diagram [d] is set. *)
Definition with_diagram (d : value) (st : Client.AppState) : Client.AppState :=
  {| Client.diagram := d; Client.directoryTree := Client.directoryTree st;
     Client.selectedNodeIds := []; Client.dimmedNodeIds := [] |}.

Definition with_directory (tree : value) (st : Client.AppState) : Client.AppState :=
  {| Client.diagram := Client.diagram st; Client.directoryTree := tree;
     Client.selectedNodeIds := Client.selectedNodeIds st;
     Client.dimmedNodeIds := Client.dimmedNodeIds st |}.

End InboxVocabulary.

Section DeliveryVocabulary.
Context {engine : Engine}.

(** Two states of the client with the same store and the same listeners. *)
Definition same_store (s s' : Client.State) : Prop :=
  Client.store s = Client.store s' /\ Client.listeners s = Client.listeners s'.

(** A computation that neither reads nor writes the sessions. *)
Definition session_blind {A : Type} (m : Client.C A) : Prop :=
  forall s s', same_store s s' ->
    outcome (m s) = outcome (m s') /\
    trace (m s) = trace (m s') /\
    same_store (final (m s)) (final (m s')).

(** The calls of the listeners [ls] at the store [st], up to the first that
    throws. *)
Fixpoint notified (ls : list Client.listener) (st : Client.AppState) : list Client.effect :=
  match ls with
  | [] => []
  | l :: rest => Client.Notified st :: (if l st then [] else notified rest st)
  end.

(** A frame of the type uml:payload with a payload. *)
Definition payload_frame (id payload : value) : value :=
  obj [("type", str "uml:payload"); ("id", id); ("payload", payload)].

Definition complete_frame (id : value) : list (jsstring * value) :=
  [(lit "type", str "uml:payload:chunked:complete"); (lit "id", id)].

(** The two lines [onmessage] and [handleMessage] log around a handler. *)
Definition inbox_received : Client.effect := Client.ConsoleLog (lit "Received message:").
Definition inbox_error : Client.effect :=
  Client.ConsoleError (lit "Error parsing WebSocket message:").

(** The line the dispatcher logs for a type that has no handler writing to
    the store. *)
Definition logged_only (type : value) : Client.effect :=
  if is_str type "system" then Client.ConsoleLog (lit "System message:")
  else if is_str type "error" then Client.ConsoleError (lit "Server error:")
  else Client.ConsoleLog (lit "Unhandled message type:").

End DeliveryVocabulary.

(* ================================================================== *)
(** * The store: src/cursor_mcp_plugin/ui/store/store.ts, over the types of
      its types module *)
(* ================================================================== *)

Module Store.
Import Js Eff.
Local Open Scope string_scope.
Local Open Scope list_scope.
Local Open Scope eff_scope.

(** ** The types of the store, with the fields that are not optional and the
    optional ones the store reads or writes *)

Inductive NodeKind : Type :=
| KClass | KModule | KFunction | KInterface | KType | KEnum.

Inductive EdgeType : Type :=
| EImport | EExtends | EImplements | ECalls | EReferences | EContains.

Module UmlNode.
Record t : Type := { id : jsstring; label : jsstring; kind : NodeKind; file : jsstring }.
End UmlNode.

Module UmlEdge.
Record t : Type := { id : jsstring; source : jsstring; target : jsstring; type : EdgeType }.
End UmlEdge.

Module UmlDiagram.
Record t : Type := { nodes : list UmlNode.t; edges : list UmlEdge.t }.
End UmlDiagram.

Module CodeComment.
Record t : Type := {
  id : jsstring;
  file : jsstring;
  line : Q;
  text : jsstring;
  createdAt : jsstring;
  range : option (Q * Q)
}.
End CodeComment.

(** [Omit<CodeComment, 'id' | 'createdAt'>] *)
Module CommentDraft.
Record t : Type := {
  file : jsstring;
  line : Q;
  text : jsstring;
  range : option (Q * Q)
}.
End CommentDraft.

(** [Partial<CodeComment>]: a field is [Some] when the object has the key. *)
Module CommentUpdates.
Record t : Type := {
  id : option jsstring;
  file : option jsstring;
  line : option Q;
  text : option jsstring;
  createdAt : option jsstring;
  range : option (Q * Q)
}.
End CommentUpdates.

Module FileContent.
Record t : Type := {
  path : jsstring;
  content : jsstring;
  highlightedLines : option (list Q);
  selectedRange : option (Q * Q)
}.
End FileContent.

Inductive DirKind : Type := KDir | KFile.

Inductive DirNode : Type :=
  mkDirNode {
    name : jsstring;
    path : jsstring;
    dir_kind : DirKind;
    children : option (list DirNode);
    expanded : option bool
  }.

Record AppState : Type := {
  diagram : option UmlDiagram.t;
  diagramVisible : bool;
  selectedNodeIds : list jsstring;
  dimmedNodeIds : list jsstring;
  directoryTree : option DirNode;
  selectedFilePath : option jsstring;
  openFile : option FileContent.t;
  comments : list CodeComment.t;
  leftPanelVisible : bool;
  rightPanelVisible : bool;
  bottomPanelVisible : bool;
  isConnected : bool;
  channelName : option jsstring
}.

(** The state the class starts with. *)
Definition initial : AppState :=
  {| diagram := None; diagramVisible := true; selectedNodeIds := []; dimmedNodeIds := [];
     directoryTree := None; selectedFilePath := None; openFile := None; comments := [];
     leftPanelVisible := true; rightPanelVisible := true; bottomPanelVisible := true;
     isConnected := false; channelName := None |}.

(** A subscribed listener: whether it throws when called with a state. *)
Definition listener := AppState -> bool.

Record State : Type := {
  state : AppState;
  listeners : list listener;
  (** [Date.now()] and [Math.random().toString(36).substr(2, 9)] *)
  now : Z;
  random36 : jsstring
}.

Inductive effect : Type :=
| Notified (st : AppState).   (* a listener called with [getState()] *)

Definition S := M State effect.

Definition with_state (f : AppState -> AppState) (s : State) : State :=
  {| state := f (state s); listeners := listeners s; now := now s; random36 := random36 s |}.

(** The writes of single fields. *)
Definition set_dimmedNodeIds (x : list jsstring) (a : AppState) : AppState :=
  {| diagram := diagram a; diagramVisible := diagramVisible a;
     selectedNodeIds := selectedNodeIds a; dimmedNodeIds := x;
     directoryTree := directoryTree a; selectedFilePath := selectedFilePath a;
     openFile := openFile a; comments := comments a;
     leftPanelVisible := leftPanelVisible a; rightPanelVisible := rightPanelVisible a;
     bottomPanelVisible := bottomPanelVisible a; isConnected := isConnected a;
     channelName := channelName a |}.

Definition set_selectedFilePath (x : option jsstring) (a : AppState) : AppState :=
  {| diagram := diagram a; diagramVisible := diagramVisible a;
     selectedNodeIds := selectedNodeIds a; dimmedNodeIds := dimmedNodeIds a;
     directoryTree := directoryTree a; selectedFilePath := x;
     openFile := openFile a; comments := comments a;
     leftPanelVisible := leftPanelVisible a; rightPanelVisible := rightPanelVisible a;
     bottomPanelVisible := bottomPanelVisible a; isConnected := isConnected a;
     channelName := channelName a |}.

Definition set_comments (x : list CodeComment.t) (a : AppState) : AppState :=
  {| diagram := diagram a; diagramVisible := diagramVisible a;
     selectedNodeIds := selectedNodeIds a; dimmedNodeIds := dimmedNodeIds a;
     directoryTree := directoryTree a; selectedFilePath := selectedFilePath a;
     openFile := openFile a; comments := x;
     leftPanelVisible := leftPanelVisible a; rightPanelVisible := rightPanelVisible a;
     bottomPanelVisible := bottomPanelVisible a; isConnected := isConnected a;
     channelName := channelName a |}.

Definition set_connection (connected : bool) (name : option jsstring) (a : AppState)
  : AppState :=
  {| diagram := diagram a; diagramVisible := diagramVisible a;
     selectedNodeIds := selectedNodeIds a; dimmedNodeIds := dimmedNodeIds a;
     directoryTree := directoryTree a; selectedFilePath := selectedFilePath a;
     openFile := openFile a; comments := comments a;
     leftPanelVisible := leftPanelVisible a; rightPanelVisible := rightPanelVisible a;
     bottomPanelVisible := bottomPanelVisible a; isConnected := connected;
     channelName := name |}.

(** A [Set<string>]: its members in insertion order, each once. *)
Definition Set_has (x : jsstring) (s : list jsstring) : bool := existsb (str_eqb x) s.
Definition Set_add (x : jsstring) (s : list jsstring) : list jsstring :=
  if Set_has x s then s else s ++ [x].

(** [new Set(xs)] *)
Definition new_Set (xs : list jsstring) : list jsstring :=
  fold_left (fun s x => Set_add x s) xs [].

(** [xs.findIndex(p)], [None] for -1. *)
Fixpoint findIndex {A} (p : A -> bool) (xs : list A) : option nat :=
  match xs with
  | [] => None
  | x :: rest => if p x then Some 0 else option_map Datatypes.S (findIndex p rest)
  end.

(** [xs[i] = x] at an index found by [findIndex]. *)
Fixpoint replace_at {A} (i : nat) (x : A) (xs : list A) : list A :=
  match i, xs with
  | _, [] => []
  | O, _ :: rest => x :: rest
  | Datatypes.S i', y :: rest => y :: replace_at i' x rest
  end.

(** ** The methods *)

(** [notify] calls the listeners in order with [getState()], a copy of the
    state; a listener that throws ends the loop and the method. *)
Definition notify : S unit :=
  ls <- read listeners ;;
  forEach ls (fun l =>
    st <- read state ;;
    emit (Notified st) ;;
    if l st then throw ListenerError else ret tt).

(** [setConnectionState(isConnected, channelName?)]: an absent or empty
    name leaves the stored one. *)
Definition setConnectionState (connected : bool) (name : option jsstring) : S unit :=
  modify (with_state (fun a =>
    set_connection connected
      (match name with
       | Some (c :: n) => Some (c :: n)
       | _ => channelName a
       end) a)) ;;
  notify.

Definition dimNodes (nodeIds : list jsstring) : S unit :=
  modify (with_state (set_dimmedNodeIds [])) ;;
  forEach nodeIds (fun id =>
    modify (with_state (fun a => set_dimmedNodeIds (Set_add id (dimmedNodeIds a)) a))) ;;
  notify.

Definition clearDimming : S unit :=
  modify (with_state (set_dimmedNodeIds [])) ;;
  notify.

(** The loop of dimUnrelatedNodes over the edges. *)
Definition connect_edge (related : list jsstring) (edge : UmlEdge.t) : list jsstring :=
  let related := if Set_has (UmlEdge.source edge) related
                 then Set_add (UmlEdge.target edge) related else related in
  if Set_has (UmlEdge.target edge) related
  then Set_add (UmlEdge.source edge) related else related.

Definition relatedNodeIds (d : UmlDiagram.t) (filePath : jsstring) : list jsstring :=
  fold_left connect_edge (UmlDiagram.edges d)
    (new_Set (map UmlNode.id
                (filter (fun node => str_eqb (UmlNode.file node) filePath)
                        (UmlDiagram.nodes d)))).

Definition dimUnrelatedNodes (filePath : jsstring) : S unit :=
  d <- read (fun s => diagram (state s)) ;;
  match d with
  | None => ret tt
  | Some d =>
      let related := relatedNodeIds d filePath in
      let nodesToDim :=
        map UmlNode.id
            (filter (fun node => negb (Set_has (UmlNode.id node) related))
                    (UmlDiagram.nodes d)) in
      dimNodes nodesToDim
  end.

(** [selectFile(filePath)]: the empty path is falsy. *)
Definition selectFile (filePath : jsstring) : S unit :=
  modify (with_state (set_selectedFilePath (Some filePath))) ;;
  d <- read (fun s => diagram (state s)) ;;
  (match d, filePath with
   | Some _, _ :: _ => dimUnrelatedNodes filePath
   | _, _ => ret tt
   end) ;;
  notify.

(** The id and the time addComment gives a comment. *)
Section WithEngine.
Context {engine : Engine}.

Definition local_comment_id (s : State) : jsstring :=
  lit "comment_" ++ number_text (now s) ++ lit "_" ++ random36 s.

Definition local_timestamp (s : State) : jsstring := toISOString (now s).

Definition addComment (comment : CommentDraft.t) : S CodeComment.t :=
  id <- read local_comment_id ;;
  createdAt <- read local_timestamp ;;
  let newComment :=
    {| CodeComment.id := id;
       CodeComment.file := CommentDraft.file comment;
       CodeComment.line := CommentDraft.line comment;
       CodeComment.text := CommentDraft.text comment;
       CodeComment.createdAt := createdAt;
       CodeComment.range := CommentDraft.range comment |} in
  modify (with_state (fun a => set_comments (comments a ++ [newComment]) a)) ;;
  notify ;;
  ret newComment.

End WithEngine.

(** [{ ...comment, ...updates }] *)
Definition spread_updates (c : CodeComment.t) (u : CommentUpdates.t) : CodeComment.t :=
  let or {A} (x : option A) (y : A) := match x with Some v => v | None => y end in
  {| CodeComment.id := or (CommentUpdates.id u) (CodeComment.id c);
     CodeComment.file := or (CommentUpdates.file u) (CodeComment.file c);
     CodeComment.line := or (CommentUpdates.line u) (CodeComment.line c);
     CodeComment.text := or (CommentUpdates.text u) (CodeComment.text c);
     CodeComment.createdAt := or (CommentUpdates.createdAt u) (CodeComment.createdAt c);
     CodeComment.range := match CommentUpdates.range u with
                          | Some r => Some r
                          | None => CodeComment.range c
                          end |}.

Definition updateComment (commentId : jsstring) (updates : CommentUpdates.t) : S unit :=
  cs <- read (fun s => comments (state s)) ;;
  match findIndex (fun c => str_eqb (CodeComment.id c) commentId) cs with
  | Some index =>
      match nth_error cs index with
      | Some c =>
          modify (with_state (set_comments (replace_at index (spread_updates c updates) cs))) ;;
          notify
      | None => ret tt
      end
  | None => ret tt
  end.

Definition deleteComment (commentId : jsstring) : S unit :=
  modify (with_state (fun a =>
    set_comments (filter (fun c => negb (str_eqb (CodeComment.id c) commentId))
                         (comments a)) a)) ;;
  notify.

Definition getCommentsForFile (filePath : jsstring) (s : State) : list CodeComment.t :=
  filter (fun c => str_eqb (CodeComment.file c) filePath) (comments (state s)).

End Store.

(* ================================================================== *)
(** * The client's connection: the rest of
      src/cursor_mcp_plugin/ui/utils/websocket.ts *)
(* ================================================================== *)

Module WsClient.
Import Js Eff.
Local Open Scope string_scope.
Local Open Scope list_scope.
Local Open Scope eff_scope.

Record State : Type := {
  (** [this.ws]: null, or the socket it refers to, by its readyState *)
  ws : option Relay.ReadyState;
  channelName : option jsstring;
  reconnectAttempts : Z;
  messageQueue : list value;
  (** the store module's singleton *)
  store : Store.State
}.

Inductive effect : Type :=
| ConsoleLog (label : jsstring)   (* console.log, the constant text it starts with *)
| ConsoleError (label : jsstring) (* console.error *)
| Sent (message : value)          (* this.ws.send(JSON.stringify(message)) *)
| Timeout (ms : Z)                (* setTimeout(callback, ms) *)
| Resolved                        (* resolve() of the promise of connect *)
| OfStore (e : Store.effect).

Definition W := M State effect.

Definition console_log (label : jsstring) : W unit := emit (ConsoleLog label).
Definition console_error (label : jsstring) : W unit := emit (ConsoleError label).

Definition maxReconnectAttempts : Z := 5.
Definition reconnectInterval : Z := 1000.

Definition set_store (st : Store.State) (s : State) : State :=
  {| ws := ws s; channelName := channelName s; reconnectAttempts := reconnectAttempts s;
     messageQueue := messageQueue s; store := st |}.

Definition set_reconnectAttempts (n : Z) (s : State) : State :=
  {| ws := ws s; channelName := channelName s; reconnectAttempts := n;
     messageQueue := messageQueue s; store := store s |}.

Definition set_messageQueue (q : list value) (s : State) : State :=
  {| ws := ws s; channelName := channelName s; reconnectAttempts := reconnectAttempts s;
     messageQueue := q; store := store s |}.

(** What the runtime does to the socket [this.ws] refers to. *)
Definition set_ws (socket : option Relay.ReadyState) (s : State) : State :=
  {| ws := socket; channelName := channelName s; reconnectAttempts := reconnectAttempts s;
     messageQueue := messageQueue s; store := store s |}.

(** A call of a method of the store. *)
Definition of_store {A} (m : Store.S A) : W A :=
  fun s =>
    match m (store s) with
    | (r, st, t) => (r, set_store st s, map OfStore t)
    end.

Section Methods.
Context {engine : Engine}.

Definition generateId : W jsstring :=
  read (fun s => lit "msg_" ++ number_text (Store.now (store s)) ++ lit "_"
                 ++ Store.random36 (store s)).

(** [send(message)] *)
Definition send (message : value) : W unit :=
  socket <- read ws ;;
  match socket with
  | Some Relay.OPEN => emit (Sent message)
  | _ => modify (fun s => set_messageQueue (messageQueue s ++ [message]) s)
  end.

(** [processMessageQueue()], for at most [fuel] turns of its loop; [None]
    when the loop has not ended by then. *)
Fixpoint processMessageQueue (fuel : nat) : W (option unit) :=
  match fuel with
  | O => ret None
  | Datatypes.S fuel' =>
      queue <- read messageQueue ;;
      match queue with
      | [] => ret (Some tt)
      | message :: rest =>
          modify (set_messageQueue rest) ;;
          (if truthy message then send message else ret tt) ;;
          processMessageQueue fuel'
      end
  end.

Definition join_message (channel id : jsstring) : value :=
  obj [("type", str "join"); ("channel", VStr channel); ("id", VStr id)].

(** [ws.onopen] of the socket that [connect(serverUrl, channel)] made. *)
Definition onopen (channel : jsstring) (fuel : nat) : W (option unit) :=
  console_log (lit "WebSocket connected") ;;
  modify (set_reconnectAttempts 0) ;;
  of_store (Store.setConnectionState true (Some channel)) ;;
  id <- generateId ;;
  send (join_message channel id) ;;
  done <- processMessageQueue fuel ;;
  match done with
  | Some _ => emit Resolved ;; ret (Some tt)
  | None => ret None
  end.

(** [attemptReconnect()]; the callback it gives to setTimeout runs later. *)
Definition attemptReconnect : W unit :=
  attempts <- read reconnectAttempts ;;
  if (attempts <? maxReconnectAttempts)%Z then
    modify (set_reconnectAttempts (attempts + 1)) ;;
    console_log (lit "Attempting to reconnect (") ;;
    emit (Timeout (reconnectInterval * (attempts + 1)))
  else console_error (lit "Max reconnection attempts reached").

(** [ws.onclose] *)
Definition onclose : W unit :=
  console_log (lit "WebSocket disconnected") ;;
  of_store (Store.setConnectionState false None) ;;
  attemptReconnect.

(** [this.channelName!] in a message: the name or null. *)
Definition channel_field (s : State) : value :=
  match channelName s with
  | Some name => VStr name
  | None => VNull
  end.

(** The message of a public method. *)
Definition request (type : string) (payload : value) : W unit :=
  channel <- read channel_field ;;
  id <- generateId ;;
  send (obj [("type", str type); ("channel", channel); ("id", VStr id);
             ("payload", payload)]).

(** [generateUml(rootPath, maxFiles = 500)]: the default stands for an
    argument that is absent or undefined. *)
Definition generateUml (rootPath maxFiles : value) : W unit :=
  let maxFiles := match maxFiles with VUndefined => num 500 | _ => maxFiles end in
  request "uml:generate" (obj [("rootPath", rootPath); ("maxFiles", maxFiles)]).

Definition openFile (file line symbol : value) : W unit :=
  request "code:open" (obj [("file", file); ("line", line); ("symbol", symbol)]).

Definition highlightCode (file range : value) : W unit :=
  request "code:highlight" (obj [("file", file); ("range", range)]).

Definition upsertComment (file line text commentId : value) : W unit :=
  request "comments:upsert"
    (obj [("id", commentId); ("file", file); ("line", line); ("text", text)]).

Definition exportComments (format : value) : W unit :=
  request "comments:export" (obj [("format", format)]).

(** [isConnected()] *)
Definition isConnected (s : State) : bool :=
  match ws s with
  | Some r => Relay.is_open r
  | None => false
  end.

(** The payload of a comments:upsert frame, as the relay's type of the
    message has it, with the range the store's comments may carry. *)
Record UpsertPayload : Type := {
  id : option jsstring;
  file : jsstring;
  line : Q;
  text : jsstring;
  createdAt : option jsstring;
  range : option (Q * Q)
}.

(** The payload as the two methods of the store take it. *)
Definition as_updates (p : UpsertPayload) : Store.CommentUpdates.t :=
  {| Store.CommentUpdates.id := id p;
     Store.CommentUpdates.file := Some (file p);
     Store.CommentUpdates.line := Some (line p);
     Store.CommentUpdates.text := Some (text p);
     Store.CommentUpdates.createdAt := createdAt p;
     Store.CommentUpdates.range := range p |}.

Definition as_draft (p : UpsertPayload) : Store.CommentDraft.t :=
  {| Store.CommentDraft.file := file p;
     Store.CommentDraft.line := line p;
     Store.CommentDraft.text := text p;
     Store.CommentDraft.range := range p |}.

(** [c.id === comment.id] *)
Definition has_id (commentId : option jsstring) (c : Store.CodeComment.t) : bool :=
  match commentId with
  | Some i => str_eqb (Store.CodeComment.id c) i
  | None => false
  end.

Definition handleCommentUpsert (comment : UpsertPayload) : W unit :=
  console_log (lit "Comment upsert:") ;;
  cs <- read (fun s => Store.comments (Store.state (store s))) ;;
  match Store.findIndex (has_id (id comment)) cs, id comment with
  | Some _, Some commentId => of_store (Store.updateComment commentId (as_updates comment))
  | _, _ => of_store (Store.addComment (as_draft comment)) ;; ret tt
  end.

(** [handleCodeOpen(message)] for a payload with the file [file]. *)
Definition handleCodeOpen (file : jsstring) : W unit :=
  console_log (lit "Code open request:") ;;
  of_store (Store.selectFile file).

End Methods.

(** The messages a trace hands to the socket, in order. *)
Fixpoint sent (t : list effect) : list value :=
  match t with
  | [] => []
  | Sent m :: rest => m :: sent rest
  | _ :: rest => sent rest
  end.

(** The delays of the timers a trace sets, in order. *)
Fixpoint timeouts (t : list effect) : list Z :=
  match t with
  | [] => []
  | Timeout ms :: rest => ms :: timeouts rest
  | _ :: rest => timeouts rest
  end.

End WsClient.

(* ================================================================== *)
(** * Vocabulary of the further statements on the store and the connection *)
(* ================================================================== *)

Section ConnectionVocabulary.
Context {engine : Engine}.

(** A store none of whose listeners throws. *)
Definition quiet (st : Store.State) : Prop :=
  forall l a, In l (Store.listeners st) -> l a = false.

(** The nodes of a diagram that lie in a file, and the edges that touch a
    node id. *)
Definition in_file (filePath : jsstring) (n : Store.UmlNode.t) : Prop :=
  Store.UmlNode.file n = filePath.

Definition touches (e : Store.UmlEdge.t) (x : jsstring) : Prop :=
  Store.UmlEdge.source e = x \/ Store.UmlEdge.target e = x.

(** The client after [send] has been called with each message in turn. *)
Fixpoint after_sends (ms : list value) (s : WsClient.State) : WsClient.State :=
  match ms with
  | [] => s
  | m :: rest => after_sends rest (final (WsClient.send m s))
  end.

(** What these calls of [send] do that can be observed, in order. *)
Fixpoint trace_of_sends (ms : list value) (s : WsClient.State) : list WsClient.effect :=
  match ms with
  | [] => []
  | m :: rest =>
      trace (WsClient.send m s) ++ trace_of_sends rest (final (WsClient.send m s))
  end.

(** The client after [onclose] has run [k] times, and the timers these runs
    set. *)
Fixpoint after_closes (k : nat) (s : WsClient.State) : WsClient.State :=
  match k with
  | O => s
  | Datatypes.S k' => after_closes k' (final (WsClient.onclose s))
  end.

Fixpoint timers_of_closes (k : nat) (s : WsClient.State) : list Z :=
  match k with
  | O => []
  | Datatypes.S k' =>
      WsClient.timeouts (trace (WsClient.onclose s))
      ++ timers_of_closes k' (final (WsClient.onclose s))
  end.

(** The delays from the attempt [a + 1] on, [k] of them at most, none after
    the fifth attempt. *)
Fixpoint backoff (a : Z) (k : nat) : list Z :=
  match k with
  | O => []
  | Datatypes.S k' => if (a <? 5)%Z then 1000 * (a + 1) :: backoff (a + 1) k' else []
  end%Z.

(** The comment addComment makes of a payload. *)
Definition local_copy (p : WsClient.UpsertPayload) (st : Store.State) : Store.CodeComment.t :=
  {| Store.CodeComment.id := Store.local_comment_id st;
     Store.CodeComment.file := WsClient.file p;
     Store.CodeComment.line := WsClient.line p;
     Store.CodeComment.text := WsClient.text p;
     Store.CodeComment.createdAt := Store.local_timestamp st;
     Store.CodeComment.range := WsClient.range p |}.

End ConnectionVocabulary.

(* ================================================================== *)
(** * Sample clients, stores and diagrams *)
(* ================================================================== *)

Module MoreSamples.
Import Js Eff Relay Samples.
Local Open Scope string_scope.
Local Open Scope list_scope.

(** A client with the given listeners, an empty store and no session. *)
Definition listening_client (ls : list Client.listener) : Client.State :=
  {| Client.chunkedMessages := [];
     Client.store := {| Client.diagram := VNull; Client.directoryTree := VNull;
                        Client.selectedNodeIds := [lit "n1"];
                        Client.dimmedNodeIds := [lit "n2"] |};
     Client.listeners := ls |}.

Definition calm : Client.listener := fun _ => false.
Definition throwing : Client.listener := fun _ => true.

(** A payload with a diagram and a directory, and the frame carrying it. *)
Definition diagram_payload : list (jsstring * value) :=
  [(lit "diagram", str "d"); (lit "directory", str "t")].

Definition diagram_frame : value :=
  obj [("type", str "uml:payload"); ("payload", VObj diagram_payload)].

(** The text of the object with a diagram, cut in two. *)
Definition diagram_head : jsstring :=
  lit "{" ++ [34%N] ++ lit "diagram" ++ [34%N] ++ lit ":".

Definition diagram_tail : jsstring := [34%N] ++ lit "d" ++ [34%N] ++ lit "}".

(** A session that has received the two halves. *)
Definition diagram_session : Client.ChunkSession :=
  {| Client.chunks := {| Client.slots := [Some (VStr diagram_head); Some (VStr diagram_tail)];
                         Client.named := [] |};
     Client.received := 2%Z; Client.total := num 2 |}.

(** A session whose only slot is still the empty string. *)
Definition waiting_session : Client.ChunkSession :=
  {| Client.chunks := {| Client.slots := [Some (str "")]; Client.named := [] |};
     Client.received := 0%Z; Client.total := num 1 |}.

(** A handler that does nothing, for the three types of the inbox whose
    handlers are left open. *)
Definition idle_handler : value -> Client.C unit := fun _ => ret tt.

(** Three nodes in three files, the first two joined by an edge. *)
Definition node_of (id file : string) : Store.UmlNode.t :=
  {| Store.UmlNode.id := lit id; Store.UmlNode.label := lit id;
     Store.UmlNode.kind := Store.KClass; Store.UmlNode.file := lit file |}.

Definition sample_diagram : Store.UmlDiagram.t :=
  {| Store.UmlDiagram.nodes := [node_of "a" "a.ts"; node_of "b" "b.ts"; node_of "c" "c.ts"];
     Store.UmlDiagram.edges :=
       [{| Store.UmlEdge.id := lit "e1"; Store.UmlEdge.source := lit "b";
           Store.UmlEdge.target := lit "a"; Store.UmlEdge.type := Store.EImport |}] |}.

Definition sample_comment : Store.CodeComment.t :=
  {| Store.CodeComment.id := lit "c1"; Store.CodeComment.file := lit "a.ts";
     Store.CodeComment.line := inject_Z 3; Store.CodeComment.text := lit "why?";
     Store.CodeComment.createdAt := lit "2024-05-01T10:00:00.000Z";
     Store.CodeComment.range := None |}.

(** A store with a diagram and comments, and one listener that does not
    throw. *)
Definition sample_store (d : option Store.UmlDiagram.t) (cs : list Store.CodeComment.t)
  : Store.State :=
  {| Store.state :=
       {| Store.diagram := d; Store.diagramVisible := true;
          Store.selectedNodeIds := []; Store.dimmedNodeIds := [lit "a"];
          Store.directoryTree := None; Store.selectedFilePath := None;
          Store.openFile := None; Store.comments := cs;
          Store.leftPanelVisible := true; Store.rightPanelVisible := true;
          Store.bottomPanelVisible := true; Store.isConnected := false;
          Store.channelName := None |};
     Store.listeners := [fun _ => false];
     Store.now := 1700000000000%Z;
     Store.random36 := lit "k3j9x2m1q" |}.

(** A client whose field [ws] is as given, after the given number of
    attempts to reconnect, with an empty queue. *)
Definition sample_connection (socket : option ReadyState) (attempts : Z)
    (cs : list Store.CodeComment.t) : WsClient.State :=
  {| WsClient.ws := socket; WsClient.channelName := Some room;
     WsClient.reconnectAttempts := attempts; WsClient.messageQueue := [];
     WsClient.store := sample_store None cs |}.

(** The payload of an upsert of the comment c1. *)
Definition sample_upsert : WsClient.UpsertPayload :=
  {| WsClient.id := Some (lit "c1"); WsClient.file := lit "a.ts";
     WsClient.line := inject_Z 3; WsClient.text := lit "because";
     WsClient.createdAt := Some (lit "2024-05-02T08:00:00.000Z");
     WsClient.range := None |}.

End MoreSamples.

(* ================================================================== *)
(** * Facts *)
(* ================================================================== *)

Ltac eval_tags :=
  repeat match goal with
  | |- context [is_str (str ?a) ?b] =>
      let v := eval vm_compute in (is_str (str a) b) in
      change (is_str (str a) b) with v
  end.

Section Facts.
Context {engine : Engine} {loop : EventLoop}.

(** ** The sends of a trace *)

Lemma attempts_to_app c t1 t2 :
  attempts_to c (t1 ++ t2) = attempts_to c t1 ++ attempts_to c t2.
Proof.
  induction t1 as [|e t1 IH]; simpl; [reflexivity|].
  destruct e; try destruct (Nat.eqb to c); simpl; rewrite IH; reflexivity.
Qed.

Lemma delivered_to_app c t1 t2 :
  delivered_to c (t1 ++ t2) = delivered_to c t1 ++ delivered_to c t2.
Proof.
  induction t1 as [|e t1 IH]; simpl; [reflexivity|].
  destruct e; try destruct (Nat.eqb to c); simpl; rewrite IH; reflexivity.
Qed.

Lemma forEach_steady {St E A} (xs : list A) (f : A -> M St E unit) (g : A -> list E) s :
  (forall x, In x xs -> f x s = (Ok tt, s, g x)) ->
  forEach xs f s = (Ok tt, s, flat_map g xs).
Proof.
  induction xs as [|x xs IH]; intros Hf; [reflexivity|].
  cbn [forEach flat_map]. unfold bind.
  rewrite (Hf x) by (left; reflexivity).
  rewrite IH by (intros y Hy; apply Hf; right; exact Hy).
  reflexivity.
Qed.

Lemma broadcastToChannel_run clients envelope w :
  broadcastToChannel clients envelope w
  = (Ok tt, w, broadcast_trace w (members_of clients w) envelope).
Proof.
  unfold broadcastToChannel, bind at 1, members, read.
  rewrite forEach_steady with (g := fun client =>
    if is_open (readyState w client) then
      if sendThrows w client
      then [SendThrew client envelope; ConsoleError (lit "Error sending message to client:")]
      else [Sent client envelope]
    else []).
  - reflexivity.
  - intros c _. unfold bind, client_is_open, read, try_catch, send, console_error, emit, ret.
    destruct (is_open (readyState w c)); [destruct (sendThrows w c)|]; reflexivity.
Qed.

Lemma Set_has_In c cs : Set_has c cs = true <-> In c cs.
Proof.
  unfold Set_has. rewrite existsb_exists. split.
  - intros [x [Hin Heq]]. apply Nat.eqb_eq in Heq. subst. exact Hin.
  - intros Hin. exists c. split; [exact Hin | apply Nat.eqb_refl].
Qed.

Lemma attempts_broadcast_absent w cs envelope c :
  ~ In c cs -> attempts_to c (broadcast_trace w cs envelope) = [].
Proof.
  induction cs as [|x cs IH]; intros Hn; [reflexivity|].
  cbn [broadcast_trace flat_map]. rewrite attempts_to_app.
  fold (broadcast_trace w cs envelope). rewrite IH by (intros H; apply Hn; right; exact H).
  assert (Hx : Nat.eqb x c = false) by (apply Nat.eqb_neq; intros ->; apply Hn; left; reflexivity).
  destruct (is_open (readyState w x)); [destruct (sendThrows w x)|]; cbn; rewrite ?Hx; reflexivity.
Qed.

Lemma attempts_broadcast w cs envelope c :
  NoDup cs ->
  attempts_to c (broadcast_trace w cs envelope)
  = if Set_has c cs && is_open (readyState w c) then [envelope] else [].
Proof.
  induction 1 as [|x cs Hx Hnd IH]; [reflexivity|].
  cbn [broadcast_trace flat_map]. rewrite attempts_to_app.
  fold (broadcast_trace w cs envelope).
  unfold Set_has in *. cbn [existsb].
  destruct (Nat.eqb c x) eqn:Hcx.
  - apply Nat.eqb_eq in Hcx. subst x.
    rewrite attempts_broadcast_absent by exact Hx. cbn [orb andb].
    destruct (is_open (readyState w c)); [destruct (sendThrows w c)|];
      cbn; rewrite ?Nat.eqb_refl; reflexivity.
  - rewrite IH. cbn [orb].
    assert (Hxc : Nat.eqb x c = false) by (rewrite Nat.eqb_sym; exact Hcx).
    destruct (is_open (readyState w x)); [destruct (sendThrows w x)|];
      cbn; rewrite ?Hxc; reflexivity.
Qed.

(** ** The dispatcher *)

Lemma message_run ws data ty w :
  get data "type" = Ok ty ->
  message ws (Parsed data) w =
  message_wraps ((if is_str ty "join" then message_join ws data
                  else if is_str ty "message" then message_chat ws data
                  else handleSpecialMessage ws data) w).
Proof.
  intros Hty. unfold message, try_catch, bind, console_log, console_error, emit, JSON_parse, ret, lift.
  rewrite Hty. cbv beta iota.
  destruct (is_str ty "join"); [|destruct (is_str ty "message")];
    match goal with
    | |- context [message_wraps (?f ws data w)] =>
        destruct (f ws data w) as [[[a|e] w1] t1]
    end; cbn [message_wraps app]; try destruct a; reflexivity.
Qed.

Lemma Set_has_known ws name w :
  Set_has ws (members_of name w) = true -> Map_has name (channels w) = true.
Proof.
  unfold members_of, Map_has. destruct (Map_get name (channels w)); [reflexivity|discriminate].
Qed.

Lemma channel_name_present name :
  name <> [] -> channel_name_missing (VStr name) = false.
Proof. destruct name; [congruence | reflexivity]. Qed.

Lemma handleSpecialMessage_member ws data name w :
  get data "channel" = Ok (VStr name) ->
  name <> [] ->
  Set_has ws (members_of name w) = true ->
  handleSpecialMessage ws data w =
  try_catch (handleSpecialMessage_switch name data)
    (fun error =>
       bind (lift (get data "type")) (fun type =>
       bind (lift (String_of type)) (fun text =>
       bind (console_error (lit "Error handling " ++ text ++ lit ":")) (fun _ =>
       broadcastToChannel name (handler_error_envelope text (VStr name) error))))) w.
Proof.
  intros Hch Hne Hin. unfold handleSpecialMessage.
  unfold bind at 1. unfold lift at 1. rewrite Hch.
  rewrite (channel_name_present name Hne). cbn [string_of app].
  unfold bind at 1. unfold read at 1. rewrite (Set_has_known ws name w Hin).
  unfold bind at 1. unfold read at 1. rewrite Hin. cbn [negb orb].
  destruct (try_catch _ _ w) as [[r w1] t1]. reflexivity.
Qed.

Lemma handleSpecialMessage_gate ws data name w :
  get data "channel" = Ok (VStr name) ->
  name <> [] ->
  Set_has ws (members_of name w) = false ->
  handleSpecialMessage ws data w = send ws (error_reply "You must join the channel first") w.
Proof.
  intros Hch Hne Hin. unfold handleSpecialMessage.
  unfold bind at 1. unfold lift at 1. rewrite Hch.
  rewrite (channel_name_present name Hne). cbn [string_of app].
  unfold bind at 1. unfold read at 1.
  unfold bind at 1. unfold read at 1. rewrite Hin. rewrite orb_true_r.
  destruct (send _ _ w) as [[r w1] t1]. destruct (Map_has name (channels w)); reflexivity.
Qed.

Lemma handleSpecialMessage_nameless ws data ch w :
  get data "channel" = Ok ch ->
  channel_name_missing ch = true ->
  handleSpecialMessage ws data w = send ws (error_reply "Channel name is required") w.
Proof.
  intros Hch Hm. unfold handleSpecialMessage.
  unfold bind at 1. unfold lift at 1. rewrite Hch. rewrite Hm.
  destruct (send _ _ w) as [[r w1] t1]. rewrite app_nil_l. reflexivity.
Qed.

Lemma message_chat_gate ws data name w :
  get data "channel" = Ok (VStr name) ->
  name <> [] ->
  Set_has ws (members_of name w) = false ->
  message_chat ws data w = send ws (error_reply "You must join the channel first") w.
Proof.
  intros Hch Hne Hin. unfold message_chat.
  unfold bind at 1. unfold lift at 1. rewrite Hch.
  rewrite (channel_name_present name Hne). cbn [string_of app].
  unfold bind at 1. unfold read at 1.
  unfold bind at 1. unfold read at 1. rewrite Hin. rewrite orb_true_r.
  destruct (send _ _ w) as [[r w1] t1]. destruct (Map_has name (channels w)); reflexivity.
Qed.

(** A reply to the sender alone, whether its send returns or throws. *)
Lemma message_wraps_send ws envelope w :
  let r := message_wraps (send ws envelope w) in
  outcome r = Ok tt /\ final r = w /\
  forall c, attempts_to c (trace r) = if Nat.eqb c ws then [envelope] else [].
Proof.
  unfold send. destruct (sendThrows w ws); cbn; (split; [reflexivity|split; [reflexivity|]]);
    intros c; rewrite (Nat.eqb_sym ws c); destruct (Nat.eqb c ws); reflexivity.
Qed.

Lemma Set_has_false ws cs : ~ In ws cs -> Set_has ws cs = false.
Proof.
  intros Hn. destruct (Set_has ws cs) eqn:H; [|reflexivity].
  apply Set_has_In in H. contradiction.
Qed.

(** C3. A frame of type message or of one of the six domain types that names
    a channel of which its sender is no member: [message] returns normally,
    the state, the member sets included, is unchanged, the sender is sent
    exactly one error envelope with the message "You must join the channel
    first", and no other connection is sent anything. *)
Theorem membership_gate (ws : conn) (fields : list (jsstring * value)) (ty : string)
    (name : jsstring) (w : World) :
  In ty channel_scoped_types ->
  own fields (lit "type") = str ty ->
  own fields (lit "channel") = VStr name ->
  name <> [] ->
  ~ In ws (members_of name w) ->
  let r := message ws (Parsed (VObj fields)) w in
  outcome r = Ok tt /\
  final r = w /\
  forall c, attempts_to c (trace r) =
            if Nat.eqb c ws
            then [obj [("type", str "error");
                       ("message", str "You must join the channel first")]]
            else [].
Proof.
  intros Hty Htype Hch Hne Hnot.
  assert (Hg : get (VObj fields) "channel" = Ok (VStr name)) by (cbn [get]; rewrite Hch; reflexivity).
  apply Set_has_false in Hnot.
  cbv zeta. rewrite message_run with (ty := str ty) by (cbn [get]; rewrite Htype; reflexivity).
  cbn [channel_scoped_types domain_types In] in Hty.
  repeat (destruct Hty as [<- | Hty]); try contradiction; eval_tags; cbv iota.
  all: first [rewrite message_chat_gate with (name := name) by assumption
             | rewrite handleSpecialMessage_gate with (name := name) by assumption];
    apply message_wraps_send.
Qed.

Lemma relay_envelope_run type fields w :
  relay_envelope type (VObj fields) w = (Ok (relayed type fields), w, []).
Proof. reflexivity. Qed.

Lemma handleUmlPayload_small clients fields w :
  own fields (lit "payload") <> VUndefined ->
  (Z.of_nat (List.length (json_text (own fields (lit "payload")))) <= 1048576)%Z ->
  handleUmlPayload clients (VObj fields) w =
  (Ok tt, w, ConsoleLog (lit "Broadcasting UML payload to clients")
             :: broadcast_trace w (members_of clients w) (relayed "uml:payload" fields)).
Proof.
  intros Hdef Hle. unfold handleUmlPayload.
  unfold bind at 1. unfold console_log, emit.
  unfold bind at 1. unfold lift at 1. cbn [get].
  unfold bind at 1. unfold lift at 1.
  destruct (own fields (lit "payload")) eqn:Hp; try congruence;
    cbn [JSON_stringify text_length];
    (replace (1024 * 1024 <? _)%Z with false by (symmetry; apply Z.ltb_ge; exact Hle));
    unfold bind at 1; rewrite relay_envelope_run; rewrite broadcastToChannel_run;
    unfold relayed; rewrite Hp; reflexivity.
Qed.

Lemma switch_run name fields w :
  handleSpecialMessage_switch name (VObj fields) w =
  let ty := own fields (lit "type") in
  if is_str ty "uml:generate" then handleUmlGenerate name (VObj fields) w
  else if is_str ty "uml:payload" then handleUmlPayload name (VObj fields) w
  else if is_str ty "code:open" then handleCodeOpen name (VObj fields) w
  else if is_str ty "code:highlight" then handleCodeHighlight name (VObj fields) w
  else if is_str ty "comments:upsert" then handleCommentUpsert name (VObj fields) w
  else if is_str ty "comments:export" then handleCommentExport name (VObj fields) w
  else match String_of ty with
       | Ok text => (Ok tt, w, [ConsoleLog (lit "Unknown message type: " ++ text)])
       | Throw e => (Throw e, w, [])
       end.
Proof.
  unfold handleSpecialMessage_switch. unfold bind at 1. unfold lift at 1. cbn [get]. cbv zeta.
  repeat match goal with
  | |- context [if is_str ?a ?b then _ else _] => destruct (is_str a b)
  end;
  match goal with
  | |- context [?h name (VObj fields) w] => destruct (h name (VObj fields) w) as [[r w1] t1]
  | _ => idtac
  end; try reflexivity.
  unfold bind, lift, console_log, emit.
  destruct (String_of (own fields (lit "type"))); reflexivity.
Qed.

Lemma message_switch_ok ws fields name w w1 t1 :
  reaches_switch ws fields name w ->
  handleSpecialMessage_switch name (VObj fields) w = (Ok tt, w1, t1) ->
  message ws (Parsed (VObj fields)) w = (Ok tt, w1, received_log :: t1).
Proof.
  intros (Hj & Hm & Hch & Hne & Hin) Hrun.
  rewrite message_run with (ty := own fields (lit "type")) by reflexivity.
  rewrite Hj, Hm.
  rewrite handleSpecialMessage_member with (name := name);
    [| cbn [get]; rewrite Hch; reflexivity | exact Hne | apply Set_has_In; exact Hin].
  unfold try_catch. rewrite Hrun. reflexivity.
Qed.

Lemma message_switch_throw ws fields name w w1 t1 e text :
  reaches_switch ws fields name w ->
  String_of (own fields (lit "type")) = Ok text ->
  handleSpecialMessage_switch name (VObj fields) w = (Throw e, w1, t1) ->
  message ws (Parsed (VObj fields)) w =
  (Ok tt, w1,
   received_log :: t1
   ++ ConsoleError (lit "Error handling " ++ text ++ lit ":")
   :: broadcast_trace w1 (members_of name w1) (handler_error_envelope text (VStr name) e)).
Proof.
  intros (Hj & Hm & Hch & Hne & Hin) Htext Hrun.
  rewrite message_run with (ty := own fields (lit "type")) by reflexivity.
  rewrite Hj, Hm.
  rewrite handleSpecialMessage_member with (name := name);
    [| cbn [get]; rewrite Hch; reflexivity | exact Hne | apply Set_has_In; exact Hin].
  unfold try_catch. rewrite Hrun.
  unfold bind, lift, console_error, emit. cbn [get]. rewrite Htext.
  rewrite broadcastToChannel_run. reflexivity.
Qed.

(** An exception of the [switch] for a type that has no text: the [catch]
    throws in its turn and the exception ends in [message]. *)
Lemma message_switch_textless ws fields name w w1 t1 e e' :
  reaches_switch ws fields name w ->
  String_of (own fields (lit "type")) = Throw e' ->
  handleSpecialMessage_switch name (VObj fields) w = (Throw e, w1, t1) ->
  message ws (Parsed (VObj fields)) w
  = (Ok tt, w1, received_log :: t1 ++ [handling_error_log]).
Proof.
  intros (Hj & Hm & Hch & Hne & Hin) Htext Hrun.
  rewrite message_run with (ty := own fields (lit "type")) by reflexivity.
  rewrite Hj, Hm.
  rewrite handleSpecialMessage_member with (name := name);
    [| cbn [get]; rewrite Hch; reflexivity | exact Hne | apply Set_has_In; exact Hin].
  unfold try_catch. rewrite Hrun.
  unfold bind, lift. cbn [get]. rewrite Htext.
  cbn [message_wraps]. rewrite app_nil_r. reflexivity.
Qed.

Lemma reaches_switch_of_type ws fields ty name w :
  In ty domain_types ->
  own fields (lit "type") = str ty ->
  own fields (lit "channel") = VStr name ->
  name <> [] ->
  In ws (members_of name w) ->
  reaches_switch ws fields name w.
Proof.
  intros Hty Htype Hch Hne Hin. unfold reaches_switch. rewrite Htype.
  repeat split; try assumption;
    cbn [domain_types In] in Hty;
    repeat (destruct Hty as [<- | Hty]); try contradiction; reflexivity.
Qed.

(** C5. A uml:payload frame of a channel member whose payload text has at
    most 1048576 code units (1048576 included): every open member of the
    channel is sent exactly one envelope, of type uml:payload, with the
    payload, the channel and the id of the frame; nobody else is sent
    anything, no chunk-protocol envelope is sent and the handler does not
    wait between sends. *)
Theorem small_payload_single_frame (ws : conn) (fields : list (jsstring * value))
    (name : jsstring) (w : World) :
  own fields (lit "type") = str "uml:payload" ->
  own fields (lit "channel") = VStr name ->
  name <> [] ->
  In ws (members_of name w) ->
  NoDup (members_of name w) ->
  own fields (lit "payload") <> VUndefined ->
  (Z.of_nat (List.length (json_text (own fields (lit "payload")))) <= 1048576)%Z ->
  let r := message ws (Parsed (VObj fields)) w in
  let envelope := obj [("type", str "uml:payload");
                       ("payload", own fields (lit "payload"));
                       ("channel", VStr name);
                       ("id", own fields (lit "id"))] in
  outcome r = Ok tt /\
  final r = w /\
  (exists logs, (forall c, attempts_to c logs = []) /\
                trace r = logs ++ trace (broadcastToChannel name envelope w)) /\
  (forall c, attempts_to c (trace r) =
             if Set_has c (members_of name w) && is_open (readyState w c)
             then [envelope] else []) /\
  ~ In (Timeout 10) (trace r).
Proof.
  intros Htype Hch Hne Hin Hnd Hdef Hle. cbv zeta.
  assert (Hreach : reaches_switch ws fields name w).
  { apply reaches_switch_of_type with (ty := "uml:payload"); try assumption.
    cbn; tauto. }
  rewrite (message_switch_ok ws fields name w w
             (ConsoleLog (lit "Broadcasting UML payload to clients")
              :: broadcast_trace w (members_of name w) (relayed "uml:payload" fields)) Hreach).
  2:{ rewrite switch_run. cbv zeta. rewrite Htype. eval_tags. cbv iota.
      apply handleUmlPayload_small; assumption. }
  unfold outcome, final, trace. cbn [fst snd].
  split; [reflexivity|]. split; [reflexivity|]. split; [|split].
  - exists [received_log; ConsoleLog (lit "Broadcasting UML payload to clients")].
    split; [intros c; reflexivity|].
    rewrite broadcastToChannel_run. unfold relayed. rewrite Hch. reflexivity.
  - intros c. cbn [attempts_to received_log]. rewrite attempts_broadcast by exact Hnd.
    unfold relayed. rewrite Hch. reflexivity.
  - cbn [In received_log]. intros [H|[H|H]]; try discriminate.
    unfold broadcast_trace in H. apply in_flat_map in H. destruct H as [x [_ H]].
    destruct (is_open (readyState w x)); [destruct (sendThrows w x)|]; cbn in H;
      intuition discriminate.
Qed.

Lemma JSON_stringify_defined payload :
  payload <> VUndefined -> JSON_stringify payload = Some (json_text payload).
Proof. destruct payload; try reflexivity. congruence. Qed.

(** A loop does the same with two bodies that do the same. *)
Lemma forEach_ext {St E A} (xs : list A) (f g : A -> M St E unit) s :
  (forall x s', f x s' = g x s') ->
  forEach xs f s = forEach xs g s.
Proof.
  intros Hext. revert s. induction xs as [|x xs IH]; intros s; [reflexivity|].
  cbn [forEach]. unfold bind. rewrite Hext.
  destruct (g x s) as [[[[]|e] s1] t1]; [rewrite IH|]; reflexivity.
Qed.

(** The loop of broadcastLargePayload from the chunk [a] on: every chunk is
    broadcast in the state the wait before it has left. *)
Lemma chunk_loop_run clients (envelope : Z -> value) w (n a : nat) :
  forEach (map Z.of_nat (seq a n))
          (fun i => bind (broadcastToChannel clients (envelope i)) (fun _ => sleep 10))
          (after_waits a w)
  = (Ok tt, after_waits (a + n) w,
     flat_map (fun k => broadcast_trace (after_waits k w) (members_of clients (after_waits k w))
                          (envelope (Z.of_nat k))
                        ++ [Timeout 10])
              (seq a n)).
Proof.
  revert a. induction n as [|n IH]; intros a.
  - rewrite Nat.add_0_r. reflexivity.
  - cbn [seq map forEach flat_map].
    unfold bind at 1. unfold bind at 1. rewrite broadcastToChannel_run.
    unfold sleep at 1. unfold bind at 1, emit at 1, modify at 1.
    change (meanwhile (after_waits a w)) with (after_waits (S a) w).
    rewrite (IH (S a)). rewrite Nat.add_succ_r. cbn [Nat.add app].
    rewrite <- !app_assoc. reflexivity.
Qed.

Lemma broadcastLargePayload_run clients fields w :
  own fields (lit "payload") <> VUndefined ->
  let text := json_text (own fields (lit "payload")) in
  let size := Z.of_nat (List.length text) in
  let n := Z.to_nat (Math_ceil_div size 524288) in
  exists label,
  broadcastLargePayload clients (VObj fields) w =
  (Ok tt, after_waits n w,
   ConsoleLog label
   :: broadcast_trace w (members_of clients w) (chunked_start fields size)
   ++ flat_map (fun k => broadcast_trace (after_waits k w) (members_of clients (after_waits k w))
                           (chunked_chunk fields text (Z.of_nat k))
                         ++ [Timeout 10])
               (seq 0 n)
   ++ broadcast_trace (after_waits n w) (members_of clients (after_waits n w))
        (chunked_complete fields)).
Proof.
  intros Hdef text size n. eexists.
  unfold broadcastLargePayload. cbv zeta.
  unfold bind at 1. unfold lift at 1. cbn [get].
  rewrite (JSON_stringify_defined _ Hdef).
  unfold bind at 1. unfold lift at 1. cbn [text_length].
  unfold bind at 1. unfold console_log at 1, emit at 1.
  unfold bind at 1. unfold lift at 1.
  unfold bind at 1. unfold lift at 1.
  unfold bind at 1. rewrite broadcastToChannel_run.
  unfold bind at 1.
  change (512 * 1024)%Z with 524288%Z. fold text. fold size. fold n.
  rewrite forEach_ext with
    (g := fun i => bind (broadcastToChannel clients (chunked_chunk fields text i))
                        (fun _ => sleep 10)).
  - change w with (after_waits 0 w) at 1.
    rewrite chunk_loop_run. rewrite broadcastToChannel_run. cbn [Nat.add app].
    unfold chunked_start, chunked_complete. reflexivity.
  - intros i w'. unfold chunked_chunk. fold text. fold size.
    replace (i * 524288 + 524288)%Z with ((i + 1) * 524288)%Z by lia.
    reflexivity.
Qed.

Lemma handleUmlPayload_large clients fields w :
  own fields (lit "payload") <> VUndefined ->
  let text := json_text (own fields (lit "payload")) in
  let size := Z.of_nat (List.length text) in
  let n := Z.to_nat (Math_ceil_div size 524288) in
  (1048576 < size)%Z ->
  exists label,
  handleUmlPayload clients (VObj fields) w =
  (Ok tt, after_waits n w,
   ConsoleLog (lit "Broadcasting UML payload to clients")
   :: ConsoleLog label
   :: broadcast_trace w (members_of clients w) (chunked_start fields size)
   ++ flat_map (fun k => broadcast_trace (after_waits k w) (members_of clients (after_waits k w))
                           (chunked_chunk fields text (Z.of_nat k))
                         ++ [Timeout 10])
               (seq 0 n)
   ++ broadcast_trace (after_waits n w) (members_of clients (after_waits n w))
        (chunked_complete fields)).
Proof.
  intros Hdef text size n Hlt.
  destruct (broadcastLargePayload_run clients fields w Hdef) as [label Hrun].
  exists label. unfold handleUmlPayload.
  unfold bind at 1. unfold console_log, emit.
  unfold bind at 1. unfold lift at 1. cbn [get].
  unfold bind at 1. unfold lift at 1.
  rewrite (JSON_stringify_defined _ Hdef). cbn [text_length].
  fold text. fold size.
  replace (1024 * 1024 <? size)%Z with true by (symmetry; apply Z.ltb_lt; exact Hlt).
  rewrite Hrun. reflexivity.
Qed.

(** ** Slicing a text into chunks *)

Lemma firstn_chain {A} (a b : nat) (l : list A) :
  firstn a l ++ firstn b (skipn a l) = firstn (a + b) l.
Proof.
  revert l. induction a as [|a IH]; intros l; [reflexivity|].
  destruct l as [|x l]; cbn [firstn skipn Nat.add app].
  - rewrite firstn_nil. reflexivity.
  - rewrite IH. reflexivity.
Qed.

(** The slice the loop takes at index [i], on naturals. *)
Lemma slice_chunk (text : jsstring) (cs : Z) (i : nat) :
  (0 < cs)%Z ->
  slice text (Z.of_nat i * cs) (Z.min ((Z.of_nat i + 1) * cs) (Z.of_nat (List.length text)))
  = firstn (Z.to_nat cs) (skipn (i * Z.to_nat cs) text).
Proof.
  intros Hcs. unfold slice, relative_index.
  set (len := Z.of_nat (List.length text)).
  assert (Hlen : (0 <= len)%Z) by (unfold len; lia).
  replace (Z.of_nat i * cs <? 0)%Z with false by (symmetry; apply Z.ltb_ge; nia).
  replace (Z.min ((Z.of_nat i + 1) * cs) len <? 0)%Z with false
    by (symmetry; apply Z.ltb_ge; apply Z.min_glb; nia).
  destruct (Z.le_gt_cases len (Z.of_nat i * cs)) as [Hpast | Hin].
  - (* the chunk starts at or past the end *)
    replace (Z.min (Z.min ((Z.of_nat i + 1) * cs) len) len - Z.min (Z.of_nat i * cs) len)%Z
      with 0%Z by lia.
    cbn [Z.to_nat firstn].
    rewrite (skipn_all2 (n := (i * Z.to_nat cs)%nat)); [rewrite firstn_nil; reflexivity|].
    unfold len in Hpast. nia.
  - replace (Z.min (Z.of_nat i * cs) len) with (Z.of_nat i * cs)%Z by lia.
    replace (Z.to_nat (Z.of_nat i * cs)) with (i * Z.to_nat cs)%nat by nia.
    destruct (Z.le_gt_cases ((Z.of_nat i + 1) * cs) len) as [Hfull | Hlast].
    + replace (Z.min (Z.min ((Z.of_nat i + 1) * cs) len) len - Z.of_nat i * cs)%Z
        with cs by lia.
      reflexivity.
    + replace (Z.min (Z.min ((Z.of_nat i + 1) * cs) len) len) with len by lia.
      rewrite (firstn_all2 (n := Z.to_nat cs)); [apply firstn_all2|];
        rewrite length_skipn; unfold len in *; nia.
Qed.

Lemma chunks_concat (text : jsstring) (cs : Z) (n k : nat) :
  (0 < cs)%Z ->
  List.concat (map (fun i => slice text (i * cs)
                               (Z.min ((i + 1) * cs) (Z.of_nat (List.length text))))
                   (map Z.of_nat (seq k n)))
  = firstn (n * Z.to_nat cs) (skipn (k * Z.to_nat cs) text).
Proof.
  intros Hcs. revert k. induction n as [|n IH]; intros k; [reflexivity|].
  cbn [seq map List.concat]. rewrite IH. rewrite slice_chunk by exact Hcs.
  replace (S k * Z.to_nat cs)%nat with (Z.to_nat cs + k * Z.to_nat cs)%nat by lia.
  rewrite <- skipn_skipn. rewrite firstn_chain.
  replace (S n * Z.to_nat cs)%nat with (Z.to_nat cs + n * Z.to_nat cs)%nat by lia.
  reflexivity.
Qed.

Lemma Math_ceil_div_spec (a b : Z) :
  (0 < b)%Z -> (0 <= a)%Z ->
  (a <= Math_ceil_div a b * b < a + b)%Z.
Proof.
  intros Hb Ha. unfold Math_ceil_div, Qceiling.
  assert (Hq : Qfloor (- (inject_Z a / inject_Z b)) = ((- a) / b)%Z).
  { destruct b as [|b|b]; try lia.
    unfold Qdiv, Qinv, Qmult, Qopp, inject_Z, Qfloor; cbn.
    rewrite Z.mul_1_r. reflexivity. }
  rewrite Hq.
  pose proof (Z.div_mod (- a) b ltac:(lia)) as Hdm.
  pose proof (Z.mod_pos_bound (- a) b Hb) as Hmod.
  nia.
Qed.

Lemma chunks_reassemble (text : jsstring) :
  let size := Z.of_nat (List.length text) in
  List.concat (map (fun i => slice text (i * 524288) (Z.min ((i + 1) * 524288) size))
                   (chunk_indices size))
  = text.
Proof.
  cbv zeta. unfold chunk_indices.
  rewrite chunks_concat by lia.
  cbn [Nat.mul skipn]. apply firstn_all2.
  pose proof (Math_ceil_div_spec (Z.of_nat (List.length text)) 524288 ltac:(lia) ltac:(lia)).
  nia.
Qed.







(** ** Strings and fields *)

Lemma str_eqb_eq (a b : jsstring) : str_eqb a b = true <-> a = b.
Proof.
  revert b. induction a as [|x a IH]; intros [|y b]; cbn [str_eqb]; split; intros H;
    try reflexivity; try discriminate.
  - apply andb_true_iff in H. destruct H as [Hx Hr].
    apply N.eqb_eq in Hx. apply IH in Hr. subst. reflexivity.
  - injection H as -> ->. rewrite N.eqb_refl. cbn. apply IH. reflexivity.
Qed.

Lemma str_eqb_refl (a : jsstring) : str_eqb a a = true.
Proof. apply str_eqb_eq. reflexivity. Qed.

Lemma str_eqb_neq (a b : jsstring) : a <> b -> str_eqb a b = false.
Proof.
  intros Hn. destruct (str_eqb a b) eqn:H; [|reflexivity].
  apply str_eqb_eq in H. contradiction.
Qed.

Lemma is_str_true (v : value) (s : string) : is_str v s = true -> v = str s.
Proof.
  destruct v; cbn [is_str]; try discriminate.
  intros H. apply str_eqb_eq in H. subst. reflexivity.
Qed.

Lemma own_set_field_same fields k x : own (set_field fields k x) k = x.
Proof.
  induction fields as [|[k' v] rest IH]; cbn [set_field own].
  - rewrite str_eqb_refl. reflexivity.
  - destruct (str_eqb k' k) eqn:Hk; cbn [own]; rewrite Hk; [reflexivity | exact IH].
Qed.

Lemma own_set_field_other fields k x k' :
  k' <> k -> own (set_field fields k x) k' = own fields k'.
Proof.
  intros Hn. induction fields as [|[k0 v] rest IH]; cbn [set_field own].
  - rewrite (str_eqb_neq k k') by congruence. reflexivity.
  - destruct (str_eqb k0 k) eqn:Hk; cbn [own].
    + apply str_eqb_eq in Hk. subst k0.
      rewrite (str_eqb_neq k k') by congruence. reflexivity.
    + rewrite IH. reflexivity.
Qed.

(** ** How the handlers end *)

Lemma handleCommentUpsert_object clients fields pf w :
  own fields (lit "payload") = VObj pf ->
  handleCommentUpsert clients (VObj fields) w =
  (Ok tt, w,
   upsert_log :: broadcast_trace w (members_of clients w)
     (obj [("type", str "comments:upsert");
           ("payload", VObj (normalized w pf));
           ("channel", own fields (lit "channel"));
           ("id", own fields (lit "id"))])).
Proof.
  intros Hp. unfold handleCommentUpsert.
  unfold bind at 1. unfold console_log, emit.
  unfold bind at 1. unfold lift at 1. cbn [get]. rewrite Hp.
  unfold bind at 1. unfold lift at 1. cbn [get].
  unfold normalized. unfold filled at 2.
  destruct (truthy (own pf (lit "createdAt"))); cbn [negb].
  - unfold bind at 1. unfold ret at 1.
    unfold bind at 1. unfold lift at 1. cbn [get].
    unfold filled.
    destruct (truthy (own pf (lit "id"))); cbn [negb];
      unfold bind, ret, read, lift; cbn [assign get]; rewrite broadcastToChannel_run; reflexivity.
  - unfold bind at 1. unfold bind at 1. unfold read at 1. unfold lift at 1. cbn [assign].
    unfold bind at 1. unfold lift at 1. cbn [get].
    unfold filled.
    destruct (truthy (own (set_field pf (lit "createdAt") (VStr (server_timestamp w))) (lit "id")));
      cbn [negb];
      unfold bind, ret, read, lift; cbn [assign get]; rewrite broadcastToChannel_run; reflexivity.
Qed.

(** The ways [handleCommentUpsert] ends on a payload that is no object. *)
Lemma handleCommentUpsert_other clients fields w :
  (forall pf, own fields (lit "payload") <> VObj pf) ->
  (exists t, handleCommentUpsert clients (VObj fields) w = (Ok tt, w, t)) \/
  (exists e, handleCommentUpsert clients (VObj fields) w = (Throw e, w, [upsert_log])).
Proof.
  intros Hnot. unfold handleCommentUpsert.
  unfold bind at 1. unfold console_log, emit.
  unfold bind at 1. unfold lift at 1. cbn [get].
  destruct (own fields (lit "payload")) as [| |b|q|s|items|pf] eqn:Hp.
  7:{ exfalso. apply (Hnot pf). reflexivity. }
  1-5: right; eexists; unfold bind, lift, read; cbn [get truthy negb assign]; reflexivity.
  left. eexists.
  unfold bind, lift, read, ret; cbn [get truthy negb assign].
  rewrite broadcastToChannel_run. reflexivity.
Qed.

Lemma handleUmlPayload_outcome clients fields w :
  (exists t w', handleUmlPayload clients (VObj fields) w = (Ok tt, w', t)) \/
  (exists e, handleUmlPayload clients (VObj fields) w
             = (Throw e, w, [ConsoleLog (lit "Broadcasting UML payload to clients")])).
Proof.
  destruct (own fields (lit "payload")) eqn:Hp.
  1:{ right. eexists. unfold handleUmlPayload, bind, lift, console_log, emit.
      cbn [get]. rewrite Hp. cbn [JSON_stringify text_length]. reflexivity. }
  all: left;
    assert (Hdef : own fields (lit "payload") <> VUndefined) by (rewrite Hp; discriminate);
    destruct (Z.le_gt_cases (Z.of_nat (List.length (json_text (own fields (lit "payload")))))
                1048576) as [Hle | Hgt];
    [ eexists; eexists; apply (handleUmlPayload_small clients fields w Hdef Hle)
    | destruct (handleUmlPayload_large clients fields w Hdef Hgt) as [label Hrun];
      eexists; eexists; exact Hrun ].
Qed.

Lemma pass_through_run clients fields w (label : string) (type : string) :
  bind (console_log (lit label))
       (fun _ => bind (relay_envelope type (VObj fields))
                      (fun envelope => broadcastToChannel clients envelope)) w
  = (Ok tt, w, ConsoleLog (lit label)
               :: broadcast_trace w (members_of clients w) (relayed type fields)).
Proof.
  unfold bind at 1. unfold console_log, emit.
  unfold bind at 1. rewrite relay_envelope_run, broadcastToChannel_run. reflexivity.
Qed.

Lemma handleUmlGenerate_run clients fields w :
  exists t, handleUmlGenerate clients (VObj fields) w = (Ok tt, w, t).
Proof.
  eexists. unfold handleUmlGenerate, bind, lift, console_log, emit. cbn [get].
  rewrite broadcastToChannel_run. reflexivity.
Qed.

(** An exception of the [switch] comes before any send and leaves the state
    as it was; it is thrown by one of two handlers, or by the default case
    for a type that has no text. *)
Lemma switch_throws_early name fields w e w1 t1 :
  handleSpecialMessage_switch name (VObj fields) w = (Throw e, w1, t1) ->
  w1 = w /\
  (forall c, attempts_to c t1 = []) /\
  (own fields (lit "type") = str "uml:payload" \/
   own fields (lit "type") = str "comments:upsert" \/
   String_of (own fields (lit "type")) = Throw e).
Proof.
  rewrite switch_run. cbv zeta.
  destruct (is_str (own fields (lit "type")) "uml:generate").
  { destruct (handleUmlGenerate_run name fields w) as [t ->]. discriminate. }
  destruct (is_str (own fields (lit "type")) "uml:payload") eqn:Hup.
  { apply is_str_true in Hup.
    destruct (handleUmlPayload_outcome name fields w) as [[t [w' ->]] | [e' ->]];
      [discriminate|].
    intros H. injection H as <- <- <-.
    split; [reflexivity | split; [intros c; reflexivity | tauto]]. }
  destruct (is_str (own fields (lit "type")) "code:open").
  { unfold handleCodeOpen. rewrite pass_through_run. discriminate. }
  destruct (is_str (own fields (lit "type")) "code:highlight").
  { unfold handleCodeHighlight. rewrite pass_through_run. discriminate. }
  destruct (is_str (own fields (lit "type")) "comments:upsert") eqn:Hcu.
  { apply is_str_true in Hcu.
    destruct (own fields (lit "payload")) as [| |b|q|s|items|pf] eqn:Hp.
    7:{ rewrite (handleCommentUpsert_object name fields pf w Hp). discriminate. }
    all: destruct (handleCommentUpsert_other name fields w) as [[t ->] | [e' ->]];
      [ intros pf; rewrite Hp; discriminate | discriminate
      | intros H; injection H as <- <- <-;
        split; [reflexivity | split; [intros c; reflexivity | tauto]] ]. }
  destruct (is_str (own fields (lit "type")) "comments:export").
  { unfold handleCommentExport. rewrite pass_through_run. discriminate. }
  destruct (String_of (own fields (lit "type"))) as [text|e'] eqn:Htext; [discriminate|].
  intros H. injection H as <- <- <-.
  split; [reflexivity | split; [intros c; reflexivity | tauto]].
Qed.

(** C6. When a domain handler throws while it handles the frame of a channel
    member, the exception is caught by [handleSpecialMessage]: [message]
    returns normally, no socket changes state, and the broadcast hands every
    open member of the channel (the sender is one of them or not) exactly one
    error envelope, whose message holds the type of the frame and the text of
    the exception and which names the channel. The frame is one whose type
    has a text, as every string has: the [switch] throws for such a frame
    only inside a domain handler, and it is shown that its type is one of
    the six. (For a type without a text, an object with a property toString,
    the template literal of the default case throws, no domain handler
    does.) *)
Theorem handler_exception_reported (ws : conn) (fields : list (jsstring * value))
    (name : jsstring) (w w1 : World) (e : exn) (t1 : list effect) (text : jsstring) :
  own fields (lit "channel") = VStr name ->
  name <> [] ->
  In ws (members_of name w) ->
  NoDup (members_of name w) ->
  String_of (own fields (lit "type")) = Ok text ->
  handleSpecialMessage_switch name (VObj fields) w = (Throw e, w1, t1) ->
  let r := message ws (Parsed (VObj fields)) w in
  exists ty : string,
    In ty domain_types /\
    own fields (lit "type") = str ty /\
    let envelope := obj [("type", str "error");
                         ("message", VStr (lit "Failed to handle " ++ lit ty ++ lit ": "
                                           ++ error_text e));
                         ("channel", VStr name)] in
    outcome r = Ok tt /\
    final r = w /\
    (exists logs, (forall c, attempts_to c logs = []) /\
                  trace r = logs ++ trace (broadcastToChannel name envelope w)) /\
    forall c, attempts_to c (trace r) =
              if Set_has c (members_of name w) && is_open (readyState w c)
              then [envelope] else [].
Proof.
  intros Hch Hne Hin Hnd Htext Hthrow. cbv zeta.
  destruct (switch_throws_early name fields w e w1 t1 Hthrow) as (-> & Hquiet & Htype).
  assert (Hty : exists ty, In ty domain_types /\ own fields (lit "type") = str ty).
  { destruct Htype as [H | [H | H]];
      [exists "uml:payload" | exists "comments:upsert" | congruence];
      (split; [cbn; tauto | exact H]). }
  destruct Hty as (ty & Hdom & Hstr). exists ty.
  assert (Hreach : reaches_switch ws fields name w)
    by (apply (reaches_switch_of_type ws fields ty name w); assumption).
  assert (Hlit : text = lit ty)
    by (rewrite Hstr in Htext; cbn [str String_of] in Htext; congruence).
  subst text.
  rewrite (message_switch_throw ws fields name w w t1 e (lit ty) Hreach Htext Hthrow).
  unfold outcome, final, trace. cbn [fst snd].
  split; [exact Hdom|]. split; [exact Hstr|]. split; [reflexivity|]. split; [reflexivity|].
  split.
  - exists (received_log :: t1
            ++ [ConsoleError (lit "Error handling " ++ lit ty ++ lit ":")]).
    split.
    + intros c. cbn [attempts_to received_log]. rewrite attempts_to_app, Hquiet. reflexivity.
    + rewrite broadcastToChannel_run. cbn [app]. rewrite <- app_assoc. cbn [app].
      unfold handler_error_envelope. reflexivity.
  - intros c. cbn [attempts_to received_log]. rewrite attempts_to_app, Hquiet.
    cbn [app attempts_to]. rewrite attempts_broadcast by exact Hnd.
    unfold handler_error_envelope. reflexivity.
Qed.

Lemma channel_name_given (ch : value) :
  channel_name_missing ch = false -> exists name, ch = VStr name /\ name <> [].
Proof.
  unfold channel_name_missing. intros H. apply orb_false_iff in H. destruct H as [Ht Hs].
  destruct ch; try discriminate. exists s. split; [reflexivity|].
  destruct s; [discriminate | congruence].
Qed.

Lemma filled_same k x pf :
  own (filled k x pf) (lit k) = if truthy (own pf (lit k)) then own pf (lit k) else VStr x.
Proof.
  unfold filled. destruct (truthy (own pf (lit k))); [reflexivity|].
  apply own_set_field_same.
Qed.

Lemma filled_other k x pf k' :
  k' <> lit k -> own (filled k x pf) k' = own pf k'.
Proof.
  intros Hn. unfold filled. destruct (truthy (own pf (lit k))); [reflexivity|].
  apply own_set_field_other. exact Hn.
Qed.

Lemma truthy_filled k x pf :
  x <> [] -> truthy (own (filled k x pf) (lit k)) = true.
Proof.
  intros Hx. rewrite filled_same. destruct (truthy (own pf (lit k))) eqn:Ht; [exact Ht|].
  destruct x; [congruence | reflexivity].
Qed.

(** C7, amended. A comments:upsert frame of a channel member whose payload is
    an object: every open member is sent one comments:upsert envelope with
    the channel and the id of the frame, whose payload is the payload of the
    frame except that [createdAt], when absent or falsy (the empty string,
    null, 0, false), is the server's timestamp and [id], when absent or falsy,
    is the server's comment id; every other field, and a truthy [createdAt] or
    [id], is as it came; both are truthy afterwards. *)
Theorem comment_upsert_normalized (ws : conn) (fields pf : list (jsstring * value))
    (name : jsstring) (w : World) :
  own fields (lit "type") = str "comments:upsert" ->
  own fields (lit "channel") = VStr name ->
  name <> [] ->
  In ws (members_of name w) ->
  NoDup (members_of name w) ->
  own fields (lit "payload") = VObj pf ->
  let r := message ws (Parsed (VObj fields)) w in
  exists pf' : list (jsstring * value),
    outcome r = Ok tt /\
    final r = w /\
    (forall c, attempts_to c (trace r) =
               if Set_has c (members_of name w) && is_open (readyState w c)
               then [obj [("type", str "comments:upsert");
                          ("payload", VObj pf');
                          ("channel", VStr name);
                          ("id", own fields (lit "id"))]]
               else []) /\
    (forall k, k <> lit "createdAt" -> k <> lit "id" -> own pf' k = own pf k) /\
    own pf' (lit "createdAt") =
      (if truthy (own pf (lit "createdAt")) then own pf (lit "createdAt")
       else VStr (toISOString (now w))) /\
    own pf' (lit "id") =
      (if truthy (own pf (lit "id")) then own pf (lit "id")
       else VStr (lit "comment_" ++ number_text (now w) ++ lit "_" ++ random36 w)) /\
    truthy (own pf' (lit "createdAt")) = true /\
    truthy (own pf' (lit "id")) = true.
Proof.
  intros Htype Hch Hne Hin Hnd Hp. cbv zeta. exists (normalized w pf).
  assert (Hreach : reaches_switch ws fields name w).
  { apply reaches_switch_of_type with (ty := "comments:upsert"); try assumption.
    cbn; tauto. }
  erewrite (message_switch_ok ws fields name w w _ Hreach).
  2:{ rewrite switch_run. cbv zeta. rewrite Htype. eval_tags. cbv iota.
      apply handleCommentUpsert_object. exact Hp. }
  assert (Hkeys : lit "createdAt" <> lit "id") by (cbv; discriminate).
  assert (Hstamp : server_timestamp w <> []).
  { unfold server_timestamp, toISOString. destruct (iso_date_time (now w)); discriminate. }
  assert (Hid : server_comment_id w <> []) by (unfold server_comment_id; discriminate).
  unfold outcome, final, trace. cbn [fst snd].
  split; [reflexivity|]. split; [reflexivity|]. split; [|split; [|split; [|split; [|split]]]].
  - intros c. cbn [attempts_to received_log upsert_log].
    rewrite attempts_broadcast by exact Hnd. rewrite Hch. reflexivity.
  - intros k Hk1 Hk2. unfold normalized. rewrite !filled_other by assumption. reflexivity.
  - unfold normalized. rewrite filled_other by exact Hkeys. apply filled_same.
  - unfold normalized. rewrite filled_same.
    rewrite filled_other by congruence. reflexivity.
  - unfold normalized. rewrite filled_other by exact Hkeys.
    apply truthy_filled. exact Hstamp.
  - unfold normalized. apply truthy_filled. exact Hid.
Qed.

(** The run of [message] on a frame that has a type, none of join, message
    and the six domain types. *)
Lemma unknown_type_run (ws : conn) (data ty ch : value) (w : World) :
  get data "type" = Ok ty ->
  get data "channel" = Ok ch ->
  unknown_type ty = true ->
  let r := message ws (Parsed data) w in
  outcome r = Ok tt /\
  final r = w /\
  (forall c, attempts_to c (trace r) =
             if Nat.eqb c ws then
               if channel_name_missing ch
               then [obj [("type", str "error"); ("message", str "Channel name is required")]]
               else if Set_has ws (members_of (string_of ch) w) then []
               else [obj [("type", str "error");
                          ("message", str "You must join the channel first")]]
             else []) /\
  (channel_name_missing ch = false ->
   Set_has ws (members_of (string_of ch) w) = true ->
   trace r = match String_of ty with
             | Ok text => [received_log; ConsoleLog (lit "Unknown message type: " ++ text)]
             | Throw _ => [received_log; handling_error_log]
             end).
Proof.
  intros Hty Hch Hunk. cbv zeta.
  unfold unknown_type in Hunk. apply negb_true_iff in Hunk.
  cbn [existsb channel_scoped_types domain_types] in Hunk.
  repeat (apply orb_false_iff in Hunk; destruct Hunk as [? Hunk]).
  rewrite (message_run ws data ty w Hty).
  repeat match goal with H : is_str ty _ = false |- _ => rewrite H; clear H end.
  destruct (channel_name_missing ch) eqn:Hmiss.
  { rewrite (handleSpecialMessage_nameless ws data ch w Hch Hmiss).
    destruct (message_wraps_send ws (error_reply "Channel name is required") w)
      as (Ho & Hf & Ha).
    repeat split; try assumption. discriminate. }
  destruct (channel_name_given ch Hmiss) as (name & -> & Hne).
  cbn [string_of].
  destruct (Set_has ws (members_of name w)) eqn:Hmem.
  2:{ rewrite (handleSpecialMessage_gate ws data name w Hch Hne Hmem).
      destruct (message_wraps_send ws (error_reply "You must join the channel first") w)
        as (Ho & Hf & Ha).
      repeat split; try assumption. discriminate. }
  rewrite (handleSpecialMessage_member ws data name w Hch Hne Hmem).
  destruct data as [| |b|q|s|items|fields]; try discriminate.
  cbn [get] in Hty. injection Hty as Hty.
  unfold try_catch. rewrite switch_run. cbv zeta. rewrite Hty.
  cbn [existsb channel_scoped_types domain_types] in *.
  repeat match goal with H : is_str ty _ = false |- _ => rewrite H; clear H end.
  unfold bind, lift. cbn [get]. rewrite Hty.
  destruct (String_of ty) as [text|e];
    cbn [message_wraps outcome final trace fst snd app];
    (repeat split; intros c; cbn [attempts_to received_log handling_error_log];
     destruct (Nat.eqb c ws); reflexivity).
Qed.

(** C4, amended. A frame whose type is none of join, message and the six
    domain types changes no state and is answered to nobody but, at most, the
    sender. A frame that is no JSON text, or is null, has no type that could
    be read: the exception is logged and nothing is sent. A frame that has a
    type is answered with the error envelope "Channel name is required" when
    its channel is missing, empty or no string, with the error envelope "You
    must join the channel first" when the sender is no member of the channel,
    and with nothing when the sender is a member: then the type is logged,
    or, when the type has no text, the exception of the template literal. *)
Theorem unknown_type_gated (ws : conn) (message : frame) (w : World) :
  unlisted message = true ->
  let r := Relay.message ws message w in
  outcome r = Ok tt /\
  final r = w /\
  (forall c, c <> ws -> attempts_to c (trace r) = []) /\
  match type_of_frame message, channel_of_frame message with
  | Some ty, Some ch =>
      attempts_to ws (trace r)
      = (if channel_name_missing ch
         then [obj [("type", str "error"); ("message", str "Channel name is required")]]
         else if Set_has ws (members_of (string_of ch) w) then []
         else [obj [("type", str "error");
                    ("message", str "You must join the channel first")]]) /\
      (channel_name_missing ch = false ->
       Set_has ws (members_of (string_of ch) w) = true ->
       trace r = match String_of ty with
                 | Ok text => [received_log; ConsoleLog (lit "Unknown message type: " ++ text)]
                 | Throw _ => [received_log; handling_error_log]
                 end)
  | _, _ => trace r = [received_log; handling_error_log]
  end.
Proof.
  intros Hun. cbv zeta.
  assert (Hnone : forall m, (m = Malformed \/ m = Parsed VUndefined \/ m = Parsed VNull) ->
            Relay.message ws m w = (Ok tt, w, [received_log; handling_error_log])).
  { intros m [-> | [-> | ->]]; reflexivity. }
  destruct message as [|data].
  { rewrite Hnone by tauto. cbn [type_of_frame outcome final trace fst snd].
    repeat split. }
  destruct data as [| |b|q|s|items|fields].
  1,2: rewrite Hnone by tauto; cbn [type_of_frame get outcome final trace fst snd];
       repeat split.
  all: unfold unlisted in Hun; cbn [type_of_frame channel_of_frame get] in Hun |- *;
    match goal with
    | |- context [Relay.message _ (Parsed ?d) _] =>
        destruct (unknown_type_run ws d _ _ w eq_refl eq_refl Hun) as (Ho & Hf & Ha & Ht)
    end;
    (split; [exact Ho|]); (split; [exact Hf|]); split;
    [ intros c Hc; rewrite Ha; apply Nat.eqb_neq in Hc; rewrite Hc; reflexivity
    | split; [rewrite Ha, Nat.eqb_refl; reflexivity | exact Ht] ].
Qed.

(** ** Joining *)

Lemma Map_get_update name f m :
  Map_get name (Map_update name f m) = option_map f (Map_get name m).
Proof.
  induction m as [|[k s] rest IH]; [reflexivity|].
  cbn [Map_update map fst snd Map_get].
  destruct (str_eqb k name) eqn:Hk; cbn [Map_get fst snd]; rewrite Hk; [reflexivity | exact IH].
Qed.

Lemma Map_get_set_absent name s m :
  Map_get name m = None -> Map_get name (Map_set name s m) = Some s.
Proof.
  induction m as [|[k s'] rest IH]; cbn [Map_get Map_set].
  - intros _. rewrite str_eqb_refl. reflexivity.
  - destruct (str_eqb k name) eqn:Hk; [discriminate|].
    intros H. cbn [Map_get]. rewrite Hk. apply IH. exact H.
Qed.

Lemma members_joined ws name w :
  members_of name (joined ws name w) = Set_add ws (members_of name w).
Proof.
  unfold joined, members_of, Map_has.
  destruct (Map_get name (channels w)) as [s|] eqn:Hget;
    cbn [with_channels channels]; rewrite Map_get_update.
  - rewrite Hget. reflexivity.
  - rewrite (Map_get_set_absent name [] (channels w) Hget). reflexivity.
Qed.

Lemma joined_sockets ws name w :
  readyState (joined ws name w) = readyState w /\ sendThrows (joined ws name w) = sendThrows w.
Proof. unfold joined. destruct (Map_has name (channels w)); split; reflexivity. Qed.

Lemma Set_add_member ws s : In ws s -> Set_add ws s = s.
Proof. intros H. unfold Set_add. apply Set_has_In in H. rewrite H. reflexivity. Qed.

Lemma Set_add_NoDup ws s : NoDup s -> NoDup (Set_add ws s).
Proof.
  intros Hnd. unfold Set_add. destruct (Set_has ws s) eqn:H; [exact Hnd|].
  apply NoDup_app; [exact Hnd | repeat constructor; intros [] |].
  intros x Hx [<- | []]. apply Set_has_In in Hx. congruence.
Qed.

Lemma Set_add_has c ws s : c <> ws -> Set_has c (Set_add ws s) = Set_has c s.
Proof.
  intros Hn. unfold Set_add. destruct (Set_has ws s); [reflexivity|].
  unfold Set_has. rewrite existsb_app. cbn [existsb].
  rewrite (proj2 (Nat.eqb_neq c ws) Hn). rewrite !orb_false_r. reflexivity.
Qed.

(** The two writes to the member sets keep the members distinct. *)
Lemma joined_distinct ws name w :
  NoDup (members_of name w) -> NoDup (members_of name (joined ws name w)).
Proof. intros H. rewrite members_joined. apply Set_add_NoDup. exact H. Qed.

Lemma Set_delete_NoDup ws s : NoDup s -> NoDup (Set_delete ws s).
Proof. intros H. unfold Set_delete. apply NoDup_filter. exact H. Qed.

(** The sends of a loop that gives each chosen member one envelope. *)
Lemma attempts_each (pick : conn -> bool) (envelope : value) (cs : list conn) (c : conn) :
  NoDup cs ->
  attempts_to c (flat_map (fun client => if pick client then [Sent client envelope] else []) cs)
  = if Set_has c cs && pick c then [envelope] else [].
Proof.
  induction 1 as [|x cs Hx Hnd IH]; [reflexivity|].
  cbn [flat_map]. rewrite attempts_to_app, IH. unfold Set_has. cbn [existsb].
  destruct (Nat.eqb c x) eqn:Hcx.
  - apply Nat.eqb_eq in Hcx. subst x.
    replace (existsb (Nat.eqb c) cs) with false
      by (symmetry; apply (Set_has_false c cs Hx)).
    cbn [orb andb]. destruct (pick c); cbn [attempts_to app]; rewrite ?Nat.eqb_refl; reflexivity.
  - cbn [orb]. destruct (pick x); cbn [attempts_to app]; [|reflexivity].
    rewrite Nat.eqb_sym, Hcx. reflexivity.
Qed.

Lemma delivered_broadcast_absent w cs envelope c :
  ~ In c cs -> delivered_to c (broadcast_trace w cs envelope) = [].
Proof.
  induction cs as [|x cs IH]; intros Hn; [reflexivity|].
  cbn [broadcast_trace flat_map]. rewrite delivered_to_app.
  fold (broadcast_trace w cs envelope). rewrite IH by (intros H; apply Hn; right; exact H).
  assert (Hx : Nat.eqb x c = false) by (apply Nat.eqb_neq; intros ->; apply Hn; left; reflexivity).
  destruct (is_open (readyState w x)); [destruct (sendThrows w x)|]; cbn; rewrite ?Hx; reflexivity.
Qed.

Lemma delivered_broadcast w cs envelope c :
  NoDup cs ->
  delivered_to c (broadcast_trace w cs envelope)
  = if Set_has c cs && is_open (readyState w c) && negb (sendThrows w c)
    then [envelope] else [].
Proof.
  induction 1 as [|x cs Hx Hnd IH]; [reflexivity|].
  cbn [broadcast_trace flat_map]. rewrite delivered_to_app.
  fold (broadcast_trace w cs envelope).
  unfold Set_has in *. cbn [existsb].
  destruct (Nat.eqb c x) eqn:Hcx.
  - apply Nat.eqb_eq in Hcx. subst x.
    rewrite delivered_broadcast_absent by exact Hx. cbn [orb andb].
    destruct (is_open (readyState w c)); [destruct (sendThrows w c)|];
      cbn; rewrite ?Nat.eqb_refl; reflexivity.
  - rewrite IH. cbn [orb].
    assert (Hxc : Nat.eqb x c = false) by (rewrite Nat.eqb_sym; exact Hcx).
    destruct (is_open (readyState w x)); [destruct (sendThrows w x)|];
      cbn; rewrite ?Hxc; reflexivity.
Qed.

Lemma message_join_run ws fields name w :
  own fields (lit "channel") = VStr name ->
  name <> [] ->
  (forall c, c = ws \/ In c (members_of name w) -> sendThrows w c = false) ->
  message_join ws (VObj fields) w =
  (Ok tt, joined ws name w,
   Sent ws (join_ack name)
   :: ConsoleLog (lit "Sending message to client:")
   :: Sent ws (join_echo (own fields (lit "id")) name)
   :: flat_map (fun client =>
                  if negb (Nat.eqb client ws) && is_open (readyState w client)
                  then [Sent client (join_notice name)] else [])
               (Set_add ws (members_of name w))).
Proof.
  intros Hch Hne Hsend.
  destruct (joined_sockets ws name w) as [Hready Hthrows].
  unfold message_join.
  unfold bind at 1. unfold lift at 1. cbn [get]. rewrite Hch.
  rewrite (channel_name_present name Hne). cbn [string_of].
  unfold bind at 1. unfold read at 1.
  unfold bind at 1.
  assert (Hfirst :
    (if negb (Map_has name (channels w))
     then modify (with_channels (Map_set name [])) else ret tt : R unit) w
    = (Ok tt, if Map_has name (channels w) then w else with_channels (Map_set name []) w, [])).
  { destruct (Map_has name (channels w)); reflexivity. }
  rewrite Hfirst.
  unfold bind at 1. unfold modify at 1. fold (joined ws name w).
  unfold bind at 1. unfold send at 1.
  rewrite Hthrows, (Hsend ws) by (left; reflexivity).
  unfold bind at 1. unfold lift at 1. cbn [get].
  unfold bind at 1. unfold console_log at 1, emit at 1.
  unfold bind at 1. unfold send at 1.
  rewrite Hthrows, (Hsend ws) by (left; reflexivity).
  unfold bind at 1. unfold members at 1, read at 1.
  rewrite members_joined.
  rewrite forEach_steady with
    (g := fun client => if negb (Nat.eqb client ws) && is_open (readyState w client)
                        then [Sent client (join_notice name)] else []).
  - reflexivity.
  - intros c Hc. unfold bind, client_is_open, read. rewrite Hready.
    destruct (negb (Nat.eqb c ws) && is_open (readyState w c)) eqn:Hpick; [|reflexivity].
    unfold send. rewrite Hthrows, (Hsend c); [reflexivity|].
    unfold Set_add in Hc. destruct (Set_has ws (members_of name w)); [right; exact Hc|].
    apply in_app_or in Hc. destruct Hc as [Hc | [<- | []]]; [right; exact Hc | left; reflexivity].
Qed.

(** C8. One broadcast over the member set of a channel: it returns normally
    and leaves the state, the member sets included, as it was; the envelope
    is handed to [send] exactly once for every member whose socket is open
    and never for a member that is not open or for a connection outside the
    set; a send that throws is caught, so the envelope is delivered exactly
    once to every open member whose send does not throw. *)
Theorem broadcast_fan_out (clients : SetRef) (envelope : value) (w : World) :
  NoDup (members_of clients w) ->
  let r := broadcastToChannel clients envelope w in
  outcome r = Ok tt /\
  final r = w /\
  (forall c, attempts_to c (trace r) =
             if Set_has c (members_of clients w) && is_open (readyState w c)
             then [envelope] else []) /\
  (forall c, delivered_to c (trace r) =
             if Set_has c (members_of clients w) && is_open (readyState w c)
                && negb (sendThrows w c)
             then [envelope] else []).
Proof.
  intros Hnd. cbv zeta. rewrite broadcastToChannel_run.
  unfold outcome, final, trace. cbn [fst snd].
  split; [reflexivity|]. split; [reflexivity|]. split.
  - intros c. apply attempts_broadcast. exact Hnd.
  - intros c. apply delivered_broadcast. exact Hnd.
Qed.

(** ** The reassembler *)

Lemma client_Map_get_delete k m : Client.Map_get k (Client.Map_delete k m) = None.
Proof.
  induction m as [|[k' s] rest IH]; [reflexivity|].
  unfold Client.Map_delete in *. cbn [filter fst].
  destruct (Client.same_key k' k) eqn:Hk; cbn [negb]; [exact IH|].
  cbn [Client.Map_get]. rewrite Hk. exact IH.
Qed.

Lemma handleChunkedComplete_found fields s session text :
  Client.Map_get (Client.messageId_of (own fields (lit "id"))) (Client.chunkedMessages s)
  = Some session ->
  Client.join_empty (Client.chunks session) = Ok text ->
  exists s1 t,
    Client.handleChunkedComplete (VObj fields) s =
    (Ok tt,
     Client.with_chunkedMessages
       (Client.Map_delete (Client.messageId_of (own fields (lit "id")))) s1,
     t).
Proof.
  intros Hsome Hjoin. unfold Client.handleChunkedComplete.
  unfold bind at 1. unfold lift at 1. cbn [get].
  unfold bind at 1. unfold read at 1. rewrite Hsome.
  unfold bind at 1. unfold lift at 1. rewrite Hjoin.
  unfold bind at 1. unfold try_catch.
  destruct (bind (Client.JSON_parse text)
                 (fun parsedPayload =>
                    Client.handleUmlPayload
                      (Client.spread_with_payload (VObj fields) parsedPayload)) s)
    as [[[[]|e] s1] t1];
    unfold bind, Client.console_error, Client.console_log, emit, modify;
    eexists; eexists; reflexivity.
Qed.

(** The join comes before the [try]: its exception leaves the handler at
    once. *)
Lemma handleChunkedComplete_joinless fields s session e :
  Client.Map_get (Client.messageId_of (own fields (lit "id"))) (Client.chunkedMessages s)
  = Some session ->
  Client.join_empty (Client.chunks session) = Throw e ->
  Client.handleChunkedComplete (VObj fields) s = (Throw e, s, []).
Proof.
  intros Hsome Hjoin. unfold Client.handleChunkedComplete.
  unfold bind at 1. unfold lift at 1. cbn [get].
  unfold bind at 1. unfold read at 1. rewrite Hsome.
  unfold bind at 1. unfold lift at 1. rewrite Hjoin. reflexivity.
Qed.

(** The join of elements that are strings, and the join of elements one of
    which is an object with a property toString. *)
Lemma join_of_strings (ps : list jsstring) :
  Client.join_empty (array_of ps []) = Ok (List.concat ps).
Proof.
  unfold Client.join_empty, array_of. cbn [Client.named Client.slots has_own existsb
    Client.written_under Client.prototype_after filter map]. rewrite app_nil_r.
  cbv iota.
  induction ps as [|p ps IH]; [reflexivity|].
  cbn [map Client.element_texts String_of List.concat].
  destruct (Client.element_texts (map (fun p0 => Some (VStr p0)) ps)) as [ts|e];
    [injection IH as <-; reflexivity | discriminate IH].
Qed.

Lemma element_texts_textless (slots : list (option value)) (fields : list (jsstring * value)) :
  In (Some (VObj fields)) slots ->
  has_own fields "toString" = true ->
  exists e, Client.element_texts slots = Throw e.
Proof.
  intros Hin Hown. induction slots as [|slot rest IH]; [destruct Hin|].
  cbn [Client.element_texts].
  destruct Hin as [-> | Hin].
  - cbn [String_of]. rewrite Hown. eexists. reflexivity.
  - destruct (IH Hin) as [e He]. rewrite He.
    match goal with |- context [match ?x with Ok _ => _ | Throw _ => _ end] =>
      destruct x as [t|e'] end; eexists; reflexivity.
Qed.

(** Elements that are strings, and holes, have their texts. *)
Lemma join_of_texts (a : Client.JsArray) :
  (forall v, In (Some v) (Client.slots a) -> exists p, v = VStr p) ->
  Client.named a = [] ->
  exists text, Client.join_empty a = Ok text.
Proof.
  intros Hstr Hnamed. unfold Client.join_empty. rewrite Hnamed.
  cbn [has_own existsb Client.written_under Client.prototype_after filter map].
  cbv iota.
  assert (Hts : exists ts, Client.element_texts (Client.slots a) = Ok ts).
  { induction (Client.slots a) as [|slot rest IH]; [exists []; reflexivity|].
    destruct IH as [ts Hts]; [intros v Hv; apply Hstr; right; exact Hv|].
    cbn [Client.element_texts]. rewrite Hts.
    destruct slot as [v|]; [|eexists; reflexivity].
    destruct (Hstr v (or_introl eq_refl)) as [p ->]. eexists. reflexivity. }
  destruct Hts as [ts ->]. eexists. reflexivity.
Qed.

(** C10, amended. In the reassembler, with the session key
    [message.id || 'default']: a chunk frame and a complete frame that find
    no session under their key return without any effect, the session map
    and the store being unchanged; a complete frame that finds a session
    whose chunks join into a text, as they do when every element of the
    array is a string or a hole and no chunk was written under a key that is
    no array index, returns normally and leaves no session under its key,
    whether or not the joined text could be parsed and delivered; when the
    join throws, the exception leaves the handler before anything is done
    and the session stays: so it is when an element is an object with a
    property toString, which has no text, and when a chunk was written
    under the key join, which hides the method. *)
Theorem reassembler_sessions (fields : list (jsstring * value)) (s : Client.State) :
  let message := VObj fields in
  let key := Client.messageId_of (own fields (lit "id")) in
  (Client.Map_get key (Client.chunkedMessages s) = None ->
   Client.handleChunk message s = (Ok tt, s, []) /\
   Client.handleChunkedComplete message s = (Ok tt, s, [])) /\
  (forall session,
     Client.Map_get key (Client.chunkedMessages s) = Some session ->
     let r := Client.handleChunkedComplete message s in
     match Client.join_empty (Client.chunks session) with
     | Ok text =>
         outcome r = Ok tt /\
         Client.Map_get key (Client.chunkedMessages (final r)) = None
     | Throw e =>
         r = (Throw e, s, []) /\
         Client.Map_get key (Client.chunkedMessages (final r)) = Some session
     end /\
     ((forall v, In (Some v) (Client.slots (Client.chunks session)) -> exists p, v = VStr p) ->
      Client.named (Client.chunks session) = [] ->
      outcome r = Ok tt /\
      Client.Map_get key (Client.chunkedMessages (final r)) = None) /\
     (forall chunk,
        In (Some (VObj chunk)) (Client.slots (Client.chunks session)) ->
        has_own chunk "toString" = true ->
        Client.named (Client.chunks session) = [] ->
        exists e, r = (Throw e, s, [])) /\
     (has_own (Client.named (Client.chunks session)) "join" = true ->
      r = (Throw (TypeError "join"), s, []))).
Proof.
  cbv zeta. split.
  - intros Hnone. split.
    + unfold Client.handleChunk, bind, lift, read. cbn [get]. rewrite Hnone. reflexivity.
    + unfold Client.handleChunkedComplete, bind, lift, read. cbn [get]. rewrite Hnone.
      reflexivity.
  - intros session Hsome.
    assert (Hok : forall text, Client.join_empty (Client.chunks session) = Ok text ->
              outcome (Client.handleChunkedComplete (VObj fields) s) = Ok tt /\
              Client.Map_get (Client.messageId_of (own fields (lit "id")))
                (Client.chunkedMessages (final (Client.handleChunkedComplete (VObj fields) s)))
              = None).
    { intros text Hjoin.
      destruct (handleChunkedComplete_found fields s session text Hsome Hjoin)
        as (s1 & t & ->).
      cbn [outcome final fst snd Client.with_chunkedMessages Client.chunkedMessages].
      split; [reflexivity | apply client_Map_get_delete]. }
    split; [|split; [|split]].
    + destruct (Client.join_empty (Client.chunks session)) as [text|e] eqn:Hjoin.
      * exact (Hok text eq_refl).
      * rewrite (handleChunkedComplete_joinless fields s session e Hsome Hjoin).
        cbn [final fst snd]. split; [reflexivity | exact Hsome].
    + intros Hstr Hnamed.
      destruct (join_of_texts (Client.chunks session) Hstr Hnamed) as [text Hjoin].
      exact (Hok text Hjoin).
    + intros chunk Hin Hown Hnamed.
      destruct (element_texts_textless _ chunk Hin Hown) as [e He].
      exists e. apply (handleChunkedComplete_joinless fields s session e Hsome).
      unfold Client.join_empty. rewrite Hnamed.
      cbn [has_own existsb Client.written_under Client.prototype_after filter map].
      cbv iota. rewrite He. reflexivity.
    + intros Hjoin.
      apply (handleChunkedComplete_joinless fields s session _ Hsome).
      unfold Client.join_empty. rewrite Hjoin. reflexivity.
Qed.

(** ** Closing *)

Lemma Set_delete_absent ws s : ~ In ws (Set_delete ws s).
Proof.
  unfold Set_delete. intros H. apply filter_In in H. destruct H as [_ H].
  rewrite Nat.eqb_refl in H. discriminate.
Qed.

Lemma close_removes_everywhere (ws : conn) (w : World) :
  let r := close ws w in
  outcome r = Ok tt /\ trace r = [] /\
  forall name, ~ In ws (members_of name (final r)).
Proof.
  cbv zeta. unfold close, modify. cbn [outcome trace final fst snd].
  split; [reflexivity|]. split; [reflexivity|].
  intros name. unfold members_of. cbn [with_channels channels].
  induction (channels w) as [|[k s] rest IH]; [intros []|].
  cbn [map fst snd Map_get]. destruct (str_eqb k name); [apply Set_delete_absent | exact IH].
Qed.

(** C2. When a socket closes, the callback of the close event removes the
    connection from every member set and sends nothing to anybody, so no
    remaining member is told that a user has left. At the room of 1 and 2,
    both open, where the socket of 1 closes: 2 stays alone in the room and is
    sent nothing; the function that handleConnection stores in [ws.close],
    which no socket event calls, is the one that would send 2 the
    notification. *)
Theorem close_event_sends_no_notice (ws : conn) (w : World) :
  let r := websocket (Closes ws) w in
  outcome r = Ok tt /\
  (forall name, ~ In ws (members_of name (final r))) /\
  trace r = [] /\
  (forall c, attempts_to c (trace r) = []) /\
  let w0 := Samples.sample_world [(Samples.room, [1; 2])] [] [] in
  let r0 := websocket (Closes 1) w0 in
  channels (final r0) = [(Samples.room, [2])] /\
  attempts_to 2 (trace r0) = [] /\
  attempts_to 2 (trace (handleConnection_close 1 w0))
  = [obj [("type", str "system");
          ("message", str "A user has left the channel");
          ("channel", VStr Samples.room)]].
Proof.
  cbv zeta.
  assert (Hrun : websocket (Closes ws) w
                 = (Ok tt, final (close ws (with_readyState ws CLOSED w)), [])) by reflexivity.
  rewrite Hrun. cbn [outcome final trace fst snd].
  split; [reflexivity|]. split.
  - intros name.
    destruct (close_removes_everywhere ws (with_readyState ws CLOSED w)) as (_ & _ & Hgone).
    apply Hgone.
  - split; [reflexivity|]. split; [intros c; reflexivity|].
    split; [reflexivity|]. split; reflexivity.
Qed.

End Facts.

(* ================================================================== *)
(** * The theorems at sample inputs *)
(* ================================================================== *)

Import Samples.

Ltac distinct_members :=
  repeat (constructor; [cbn; intuition discriminate|]); constructor.





(** C3 at a code:open frame of connection 3, which has not joined the room
    of 1 and 2. *)
Lemma membership_gate_witness :
  let w := sample_world [(room, [1; 2])] [] [] in
  let r := message (engine := sample_engine) (loop := alone) 3
             (Parsed (VObj (frame_of "code:open" [("payload", obj [("file", str "a.ts")])]))) w in
  ~ In 3 (members_of room w) /\
  outcome r = Ok tt /\
  final r = w /\
  attempts_to 3 (trace r)
  = [obj [("type", str "error"); ("message", str "You must join the channel first")]] /\
  attempts_to 1 (trace r) = [] /\
  attempts_to 2 (trace r) = [].
Proof.
  cbv zeta.
  assert (Hout : ~ In 3 (members_of room (sample_world [(room, [1; 2])] [] [])))
    by (cbn; intuition discriminate).
  split; [exact Hout|].
  destruct (membership_gate (engine := sample_engine) (loop := alone) 3
              (frame_of "code:open" [("payload", obj [("file", str "a.ts")])])
              "code:open" room (sample_world [(room, [1; 2])] [] []))
    as (Ho & Hf & Ha).
  - cbn. tauto.
  - reflexivity.
  - reflexivity.
  - discriminate.
  - exact Hout.
  - exact (conj Ho (conj Hf (conj (Ha 3) (conj (Ha 1) (Ha 2))))).
Defined.

(** C4 fails at a frame of an unknown type without a channel: the sender is
    sent an error envelope, not nothing. *)
Lemma unknown_type_without_channel_is_answered :
  let w := sample_world [(room, [1; 2])] [] [] in
  let r := message (engine := sample_engine) (loop := alone) 1
             (Parsed (obj [("type", str "ping")])) w in
  unknown_type (str "ping") = true /\
  attempts_to 1 (trace r)
  = [obj [("type", str "error"); ("message", str "Channel name is required")]] /\
  attempts_to 1 (trace r) <> [].
Proof. cbv zeta. split; [reflexivity|]. split; [reflexivity | discriminate]. Qed.

(** C4 as amended, at four frames of the unknown type ping, without a
    channel, from a member, from a connection that has not joined, and from
    a member with a type that has no text, and at the frame null. *)
Lemma unknown_type_gated_witness :
  let w := sample_world [(room, [1; 2])] [] [] in
  let run ws message := Relay.message (engine := sample_engine) (loop := alone) ws message w in
  let textless := VObj (frame_of_type (obj [("toString", num 0)])) in
  unlisted (Parsed (obj [("type", str "ping")])) = true /\
  unlisted (Parsed textless) = true /\
  unlisted (Parsed VNull) = true /\
  attempts_to 1 (trace (run 1 (Parsed (obj [("type", str "ping")]))))
  = [obj [("type", str "error"); ("message", str "Channel name is required")]] /\
  trace (run 1 (Parsed (VObj (frame_of "ping" []))))
  = [received_log; ConsoleLog (lit "Unknown message type: ping")] /\
  attempts_to 3 (trace (run 3 (Parsed (VObj (frame_of "ping" [])))))
  = [obj [("type", str "error"); ("message", str "You must join the channel first")]] /\
  trace (run 1 (Parsed textless)) = [received_log; handling_error_log] /\
  trace (run 1 (Parsed VNull)) = [received_log; handling_error_log].
Proof.
  cbv zeta.
  destruct (unknown_type_gated (engine := sample_engine) (loop := alone) 1
              (Parsed (obj [("type", str "ping")])) (sample_world [(room, [1; 2])] [] [])
              eq_refl)
    as (_ & _ & _ & Ha & _).
  destruct (unknown_type_gated (engine := sample_engine) (loop := alone) 1
              (Parsed (VObj (frame_of "ping" []))) (sample_world [(room, [1; 2])] [] [])
              eq_refl)
    as (_ & _ & _ & _ & Hb).
  destruct (unknown_type_gated (engine := sample_engine) (loop := alone) 3
              (Parsed (VObj (frame_of "ping" []))) (sample_world [(room, [1; 2])] [] [])
              eq_refl)
    as (_ & _ & _ & Hc & _).
  destruct (unknown_type_gated (engine := sample_engine) (loop := alone) 1
              (Parsed (VObj (frame_of_type (obj [("toString", num 0)]))))
              (sample_world [(room, [1; 2])] [] []) eq_refl)
    as (_ & _ & _ & _ & Hd).
  destruct (unknown_type_gated (engine := sample_engine) (loop := alone) 1
              (Parsed VNull) (sample_world [(room, [1; 2])] [] []) eq_refl)
    as (_ & _ & _ & He).
  exact (conj eq_refl (conj eq_refl (conj eq_refl
          (conj Ha (conj (Hb eq_refl eq_refl) (conj Hc (conj (Hd eq_refl eq_refl) He))))))).
Defined.

(** C5 at a payload whose text has fourteen code units. *)
Lemma small_payload_single_frame_witness :
  let w := sample_world [(room, [1; 2; 3])] [2] [3] in
  let payload := obj [("diagram", obj [])] in
  let r := message (engine := sample_engine) (loop := alone) 1
             (Parsed (VObj (frame_of "uml:payload" [("payload", payload)]))) w in
  let envelope := obj [("type", str "uml:payload"); ("payload", payload);
                       ("channel", str "room"); ("id", str "m1")] in
  (Z.of_nat (List.length (@json_text sample_engine payload)) <= 1048576)%Z /\
  attempts_to 1 (trace r) = [envelope] /\
  attempts_to 2 (trace r) = [] /\
  attempts_to 3 (trace r) = [envelope] /\
  ~ In (Timeout 10) (trace r).
Proof.
  cbv zeta.
  assert (Hsmall : (Z.of_nat (List.length (@json_text sample_engine (obj [("diagram", obj [])])))
                    <= 1048576)%Z) by (cbn; lia).
  split; [exact Hsmall|].
  destruct (small_payload_single_frame (engine := sample_engine) (loop := alone) 1
              (frame_of "uml:payload" [("payload", obj [("diagram", obj [])])]) room
              (sample_world [(room, [1; 2; 3])] [2] [3]))
    as (_ & _ & _ & Ha & Hquiet).
  - reflexivity.
  - reflexivity.
  - discriminate.
  - cbn. tauto.
  - distinct_members.
  - discriminate.
  - exact Hsmall.
  - exact (conj (Ha 1) (conj (Ha 2) (conj (Ha 3) Hquiet))).
Defined.

(** C6 at a uml:payload frame without a payload: the length of the text of
    [undefined] is a TypeError. *)
Lemma handler_exception_reported_witness :
  let w := sample_world [(room, [1; 2; 3])] [2] [] in
  let fields := frame_of "uml:payload" [] in
  let r := message (engine := sample_engine) (loop := alone) 1 (Parsed (VObj fields)) w in
  let envelope := obj [("type", str "error");
                       ("message", VStr (lit "Failed to handle uml:payload: TypeError: length"));
                       ("channel", str "room")] in
  handleSpecialMessage_switch (engine := sample_engine) (loop := alone) room (VObj fields) w
  = (Throw (TypeError "length"), w, [ConsoleLog (lit "Broadcasting UML payload to clients")]) /\
  outcome r = Ok tt /\
  attempts_to 1 (trace r) = [envelope] /\
  attempts_to 2 (trace r) = [] /\
  attempts_to 3 (trace r) = [envelope].
Proof.
  cbv zeta.
  assert (Hthrow :
    handleSpecialMessage_switch (engine := sample_engine) (loop := alone) room
      (VObj (frame_of "uml:payload" [])) (sample_world [(room, [1; 2; 3])] [2] [])
    = (Throw (TypeError "length"), sample_world [(room, [1; 2; 3])] [2] [],
       [ConsoleLog (lit "Broadcasting UML payload to clients")])) by reflexivity.
  split; [exact Hthrow|].
  destruct (handler_exception_reported (engine := sample_engine) (loop := alone) 1
              (frame_of "uml:payload" []) room
              (sample_world [(room, [1; 2; 3])] [2] []) _ _ _ (lit "uml:payload")
              eq_refl ltac:(discriminate) ltac:(cbn; tauto) ltac:(distinct_members)
              eq_refl Hthrow)
    as (ty & Hdom & Hty & Ho & _ & _ & Ha).
  assert (Hname : ty = "uml:payload").
  { cbn [domain_types In] in Hdom.
    repeat (destruct Hdom as [<- | Hdom]); try contradiction; try discriminate Hty.
    reflexivity. }
  subst ty.
  exact (conj Ho (conj (Ha 1) (conj (Ha 2) (Ha 3)))).
Defined.

(** C7 fails at a comment whose [id] is present and is the empty string: it
    is relayed with the server's comment id, not with the [id] it came with. *)
Lemma comment_upsert_empty_id_is_replaced :
  let w := sample_world [(room, [1; 2])] [] [] in
  let fields := frame_of "comments:upsert" [("payload", VObj comment_fields)] in
  let r := message (engine := sample_engine) (loop := alone) 1 (Parsed (VObj fields)) w in
  In (lit "id") (map fst comment_fields) /\
  own comment_fields (lit "id") = str "" /\
  exists pf',
    attempts_to 2 (trace r)
    = [obj [("type", str "comments:upsert"); ("payload", VObj pf');
            ("channel", str "room"); ("id", str "m1")]] /\
    own pf' (lit "id") = str "comment_1700000000000_k3j9x2m1q" /\
    own pf' (lit "id") <> own comment_fields (lit "id").
Proof.
  cbv zeta. split; [left; reflexivity|]. split; [reflexivity|].
  eexists. split; [vm_compute; reflexivity|]. split; [reflexivity | discriminate].
Qed.

(** C7 as amended, at the same comment: the empty [id] is filled, the
    [createdAt] it came with and the other fields are kept. *)
Lemma comment_upsert_normalized_witness :
  let w := sample_world [(room, [1; 2])] [] [] in
  let fields := frame_of "comments:upsert" [("payload", VObj comment_fields)] in
  let r := message (engine := sample_engine) (loop := alone) 1 (Parsed (VObj fields)) w in
  own fields (lit "payload") = VObj comment_fields /\
  exists pf',
    attempts_to 2 (trace r)
    = [obj [("type", str "comments:upsert"); ("payload", VObj pf');
            ("channel", str "room"); ("id", str "m1")]] /\
    own pf' (lit "text") = str "why?" /\
    own pf' (lit "createdAt") = str "2024-05-01T10:00:00.000Z" /\
    own pf' (lit "id") = str "comment_1700000000000_k3j9x2m1q".
Proof.
  cbv zeta. split; [reflexivity|].
  destruct (comment_upsert_normalized (engine := sample_engine) (loop := alone) 1
              (frame_of "comments:upsert" [("payload", VObj comment_fields)])
              comment_fields room (sample_world [(room, [1; 2])] [] [])
              eq_refl eq_refl ltac:(discriminate) ltac:(cbn; tauto) ltac:(distinct_members)
              eq_refl)
    as (pf' & _ & _ & Ha & Hrest & Hstamp & Hid & _).
  exists pf'.
  exact (conj (Ha 2)
          (conj (Hrest (lit "text") ltac:(discriminate) ltac:(discriminate))
             (conj Hstamp Hid))).
Defined.

(** C8 at the room of 1, 2 and 3, where 2 is closing and the send to 3
    throws. *)
Lemma broadcast_fan_out_witness :
  let w := sample_world [(room, [1; 2; 3]); (lit "other", [4])] [2] [3] in
  let envelope := obj [("type", str "code:open")] in
  let r := broadcastToChannel room envelope w in
  NoDup (members_of room w) /\
  outcome r = Ok tt /\
  final r = w /\
  delivered_to 1 (trace r) = [envelope] /\
  attempts_to 2 (trace r) = [] /\
  attempts_to 3 (trace r) = [envelope] /\
  delivered_to 3 (trace r) = [] /\
  attempts_to 4 (trace r) = [].
Proof.
  cbv zeta.
  assert (Hnd : NoDup (members_of room
                         (sample_world [(room, [1; 2; 3]); (lit "other", [4])] [2] [3])))
    by distinct_members.
  split; [exact Hnd|].
  destruct (broadcast_fan_out room (obj [("type", str "code:open")])
              (sample_world [(room, [1; 2; 3]); (lit "other", [4])] [2] [3]) Hnd)
    as (Ho & Hf & Ha & Hd).
  exact (conj Ho (conj Hf (conj (Hd 1) (conj (Ha 2) (conj (Ha 3) (conj (Hd 3) (Ha 4))))))).
Defined.

(** C10 fails at a complete frame whose session has received a chunk that
    is an object with a property toString: joining the chunks throws a
    TypeError before the [try], the exception leaves the handler and the
    session is still in the map. It fails in the same way when a chunk
    frame had the index join. *)
Lemma complete_keeps_the_session_when_the_join_throws :
  let start := obj [("type", str "uml:payload:chunked:start");
                    ("payload", obj [("totalChunks", num 1)])] in
  let chunk := obj [("type", str "uml:payload:chunk");
                    ("payload", obj [("chunkIndex", num 0);
                                     ("chunk", obj [("toString", num 0)])])] in
  let misnamed := obj [("type", str "uml:payload:chunk");
                       ("payload", obj [("chunkIndex", str "join");
                                        ("chunk", str "{}")])] in
  let complete := obj [("type", str "uml:payload:chunked:complete")] in
  let s1 := final (Client.handleChunkedStart (engine := sample_engine) start (sample_client [])) in
  let s2 := final (Client.handleChunk (engine := sample_engine) chunk s1) in
  let s3 := final (Client.handleChunk (engine := sample_engine) misnamed s1) in
  let r := Client.handleChunkedComplete (engine := sample_engine) complete s2 in
  let r' := Client.handleChunkedComplete (engine := sample_engine) complete s3 in
  Client.Map_get (str "default") (Client.chunkedMessages s2) = Some textless_session /\
  outcome r = Throw (TypeError "toString") /\
  Client.Map_get (str "default") (Client.chunkedMessages (final r)) = Some textless_session /\
  Client.Map_get (str "default") (Client.chunkedMessages (final r)) <> None /\
  Client.Map_get (str "default") (Client.chunkedMessages s3) <> None /\
  outcome r' = Throw (TypeError "join") /\
  Client.Map_get (str "default") (Client.chunkedMessages (final r'))
  = Client.Map_get (str "default") (Client.chunkedMessages s3).
Proof.
  cbv zeta. split; [vm_compute; reflexivity|]. split; [vm_compute; reflexivity|].
  split; [vm_compute; reflexivity|]. split; [vm_compute; discriminate|].
  split; [vm_compute; discriminate|]. split; vm_compute; reflexivity.
Qed.

(** C10 as amended, at a chunk and a complete frame without a session, at a
    complete frame whose session holds the two chunks of an empty object,
    and at one whose session holds a chunk without a text. *)
Lemma reassembler_sessions_witness :
  let frame := [(lit "type", str "uml:payload:chunked:complete")] in
  let idle := sample_client [] in
  let filled := sample_client [(str "default", sample_session)] in
  let textless := sample_client [(str "default", textless_session)] in
  Client.handleChunk (engine := sample_engine) (VObj frame) idle = (Ok tt, idle, []) /\
  Client.handleChunkedComplete (engine := sample_engine) (VObj frame) idle = (Ok tt, idle, []) /\
  Client.Map_get (str "default") (Client.chunkedMessages filled) = Some sample_session /\
  Client.Map_get (str "default")
    (Client.chunkedMessages
       (final (Client.handleChunkedComplete (engine := sample_engine) (VObj frame) filled)))
  = None /\
  exists e,
    Client.handleChunkedComplete (engine := sample_engine) (VObj frame) textless
    = (Throw e, textless, []).
Proof.
  cbv zeta.
  destruct (reassembler_sessions (engine := sample_engine)
              [(lit "type", str "uml:payload:chunked:complete")] (sample_client []))
    as [Hidle _].
  destruct (reassembler_sessions (engine := sample_engine)
              [(lit "type", str "uml:payload:chunked:complete")]
              (sample_client [(str "default", sample_session)]))
    as [_ Hfilled].
  destruct (reassembler_sessions (engine := sample_engine)
              [(lit "type", str "uml:payload:chunked:complete")]
              (sample_client [(str "default", textless_session)]))
    as [_ Htextless].
  destruct (Hidle eq_refl) as [Hchunk Hcomplete].
  destruct (Hfilled sample_session eq_refl) as (_ & Hstrings & _).
  destruct (Htextless textless_session eq_refl) as (_ & _ & Hthrown & _).
  assert (Hstr : forall v, In (Some v) (Client.slots (Client.chunks sample_session)) ->
                 exists p, v = VStr p).
  { intros v [H | [H | []]]; injection H as <-; eexists; reflexivity. }
  destruct (Hstrings Hstr eq_refl) as [_ Hgone].
  exact (conj Hchunk (conj Hcomplete (conj eq_refl (conj Hgone
          (Hthrown (map (fun kv => (lit (fst kv), snd kv)) [("toString", num 0)])
             (or_introl eq_refl) eq_refl eq_refl))))).
Defined.

(* ================================================================== *)
(** * Further facts on the relay *)
(* ================================================================== *)

(** ** Properties of the state that the handlers keep *)

Section Keeping.
Context {St E : Type}.
Variable P : St -> Prop.

Lemma keeps_ret {A} (a : A) : keeps P (ret a : M St E A).
Proof. intros w H. exact H. Qed.

Lemma keeps_lift {A} (r : result A) : keeps P (lift r : M St E A).
Proof. intros w H. exact H. Qed.

Lemma keeps_throw {A} (e : exn) : keeps P (throw e : M St E A).
Proof. intros w H. exact H. Qed.

Lemma keeps_read {A} (f : St -> A) : keeps P (read f : M St E A).
Proof. intros w H. exact H. Qed.

Lemma keeps_emit (e : E) : keeps P (emit e : M St E unit).
Proof. intros w H. exact H. Qed.

Lemma keeps_modify (f : St -> St) : stable_under f P -> keeps P (modify f : M St E unit).
Proof. intros Hf w H. apply Hf. exact H. Qed.

Lemma keeps_bind {A B} (m : M St E A) (f : A -> M St E B) :
  keeps P m -> (forall a, keeps P (f a)) -> keeps P (bind m f).
Proof.
  intros Hm Hf w H. unfold bind. specialize (Hm w H).
  destruct (m w) as [[[a|e] w1] t1]; cbn [final fst snd] in *; [|exact Hm].
  specialize (Hf a w1 Hm). destruct (f a w1) as [[r w2] t2]. exact Hf.
Qed.

Lemma keeps_bind_ret {A B} (a : A) (f : A -> M St E B) :
  keeps P (f a) -> keeps P (bind (ret a) f).
Proof.
  intros Hf w H. unfold bind, ret. specialize (Hf w H).
  destruct (f a w) as [[r w2] t2]. exact Hf.
Qed.

Lemma keeps_bind_lift {A B} (r : result A) (f : A -> M St E B) :
  (forall a, r = Ok a -> keeps P (f a)) -> keeps P (bind (lift r) f).
Proof.
  intros Hf w H. unfold bind, lift. destruct r as [a|e]; [|exact H].
  specialize (Hf a eq_refl w H). destruct (f a w) as [[r w2] t2]. exact Hf.
Qed.

Lemma keeps_try_catch {A} (m : M St E A) (h : exn -> M St E A) :
  keeps P m -> (forall e, keeps P (h e)) -> keeps P (try_catch m h).
Proof.
  intros Hm Hh w H. unfold try_catch. specialize (Hm w H).
  destruct (m w) as [[[a|e] w1] t1]; cbn [final fst snd] in *; [exact Hm|].
  specialize (Hh e w1 Hm). destruct (h e w1) as [[r w2] t2]. exact Hh.
Qed.

Lemma keeps_forEach {A} (xs : list A) (f : A -> M St E unit) :
  (forall x, keeps P (f x)) -> keeps P (forEach xs f).
Proof.
  intros Hf. induction xs as [|x xs IH]; cbn [forEach]; [apply keeps_ret|].
  apply keeps_bind; [apply Hf | intros _; exact IH].
Qed.

End Keeping.

Lemma keeps_send (P : World -> Prop) (client : conn) (envelope : value) :
  keeps P (send client envelope).
Proof. intros w H. unfold send. destruct (sendThrows w client); exact H. Qed.

(** The steps that keep every property: all but the writes. *)
Ltac keeps_step :=
  first
    [ apply keeps_bind; [|intros ?]
    | apply keeps_try_catch; [|intros ?]
    | apply keeps_forEach; intros ?
    | apply keeps_ret
    | apply keeps_lift
    | apply keeps_throw
    | apply keeps_read
    | apply keeps_emit
    | apply keeps_send
    | match goal with
      | |- keeps _ (if ?b then _ else _) => destruct b
      | |- keeps _ (match ?x with _ => _ end) => destruct x
      end ].

Section KeepingHandlers.
Context {engine : Engine} {loop : EventLoop}.
Variable P : World -> Prop.

(** What the callbacks that run during a wait keep, a handler that waits
    keeps. *)
Hypothesis meanwhile_keeps : stable_under meanwhile P.

Lemma keeps_sleep ms : keeps P (sleep ms).
Proof.
  unfold sleep. apply keeps_bind; [apply keeps_emit | intros _].
  apply keeps_modify. exact meanwhile_keeps.
Qed.

Lemma keeps_broadcastToChannel clients message :
  keeps P (broadcastToChannel clients message).
Proof.
  unfold broadcastToChannel, members, client_is_open, console_error.
  repeat keeps_step.
Qed.

Lemma keeps_relay_envelope type message : keeps P (relay_envelope type message).
Proof. unfold relay_envelope. repeat keeps_step. Qed.

Lemma keeps_broadcastLargePayload clients message :
  keeps P (broadcastLargePayload clients message).
Proof.
  unfold broadcastLargePayload, console_log. cbv zeta.
  repeat first [apply keeps_broadcastToChannel | apply keeps_sleep | keeps_step].
Qed.

Lemma keeps_switch clients data : keeps P (handleSpecialMessage_switch clients data).
Proof.
  unfold handleSpecialMessage_switch, handleUmlGenerate, handleUmlPayload, handleCodeOpen,
    handleCodeHighlight, handleCommentUpsert, handleCommentExport, console_log.
  cbv zeta.
  repeat first [ apply keeps_broadcastToChannel | apply keeps_broadcastLargePayload
               | apply keeps_relay_envelope | keeps_step ].
Qed.

Lemma keeps_handleSpecialMessage ws data : keeps P (handleSpecialMessage ws data).
Proof.
  unfold handleSpecialMessage, console_error. cbv zeta.
  repeat first [ apply keeps_broadcastToChannel | apply keeps_switch | keeps_step ].
Qed.

Lemma keeps_message_chat ws data : keeps P (message_chat ws data).
Proof.
  unfold message_chat, members, client_is_open, console_log. cbv zeta.
  repeat keeps_step.
Qed.

(** A join keeps what the two writes to its channel keep. *)
Lemma keeps_message_join ws data :
  (forall name, get data "channel" = Ok (VStr name) ->
                stable_under (with_channels (Map_set name [])) P /\
                stable_under (with_channels (Map_update name (Set_add ws))) P) ->
  keeps P (message_join ws data).
Proof.
  intros Hst. unfold message_join.
  apply keeps_bind_lift. intros ch Hch.
  destruct (channel_name_missing ch) eqn:Hmiss; [apply keeps_send|].
  destruct (channel_name_given ch Hmiss) as (name & -> & _).
  destruct (Hst name Hch) as [Hset Hupd].
  cbn [string_of]. cbv zeta. unfold members, client_is_open, console_log.
  repeat first [ apply keeps_modify; assumption | keeps_step ].
Qed.

End KeepingHandlers.

Section KeepingEvents.
Context {engine : Engine} {loop : EventLoop}.
Variable P : World -> Prop.
Hypothesis meanwhile_keeps : stable_under meanwhile P.

(** [message] keeps what the writes of a join to the channel it names keep. *)
Lemma keeps_message ws frame :
  (forall data name,
     frame = Parsed data ->
     get data "type" = Ok (str "join") ->
     get data "channel" = Ok (VStr name) ->
     stable_under (with_channels (Map_set name [])) P /\
     stable_under (with_channels (Map_update name (Set_add ws))) P) ->
  keeps P (message ws frame).
Proof.
  intros Hjoin. unfold message, console_log, console_error.
  apply keeps_try_catch; [|intros e; apply keeps_emit].
  apply keeps_bind; [apply keeps_emit | intros _].
  destruct frame as [|data]; cbn [JSON_parse].
  { intros w H. exact H. }
  apply keeps_bind_ret. apply keeps_bind_lift. intros ty Hty.
  destruct (is_str ty "join") eqn:Hj.
  { apply is_str_true in Hj. subst ty.
    apply keeps_message_join. intros name Hch. apply (Hjoin data name eq_refl Hty Hch). }
  destruct (is_str ty "message");
    [apply keeps_message_chat | apply keeps_handleSpecialMessage; exact meanwhile_keeps].
Qed.

Lemma keeps_handleConnection ws :
  stable_under (with_closeReplaced ws) P -> keeps P (handleConnection ws).
Proof.
  intros Hst. unfold handleConnection, console_log.
  repeat first [apply keeps_modify; assumption | keeps_step].
Qed.

End KeepingEvents.

(** ** The registry under writes *)

Lemma Map_get_set (name : jsstring) (s : list conn) (m : ChannelMap) (n : jsstring) :
  Map_get n (Map_set name s m) = if str_eqb name n then Some s else Map_get n m.
Proof.
  induction m as [|[k s'] rest IH]; cbn [Map_set Map_get].
  - destruct (str_eqb name n); reflexivity.
  - destruct (str_eqb k name) eqn:Hk; cbn [Map_get].
    + apply str_eqb_eq in Hk. subst k. destruct (str_eqb name n); reflexivity.
    + rewrite IH. destruct (str_eqb k n) eqn:Hkn; [|reflexivity].
      apply str_eqb_eq in Hkn. subst k.
      rewrite str_eqb_neq; [reflexivity|].
      intros ->. rewrite str_eqb_refl in Hk. discriminate.
Qed.

Lemma Map_get_update_at (name : jsstring) (f : list conn -> list conn) (m : ChannelMap)
    (n : jsstring) :
  Map_get n (Map_update name f m)
  = if str_eqb name n then option_map f (Map_get n m) else Map_get n m.
Proof.
  induction m as [|[k s] rest IH]; cbn [Map_update map fst snd Map_get].
  - destruct (str_eqb name n); reflexivity.
  - destruct (str_eqb k name) eqn:Hk; cbn [Map_get fst snd].
    + apply str_eqb_eq in Hk. subst k.
      destruct (str_eqb name n); [reflexivity | exact IH].
    + destruct (str_eqb k n) eqn:Hkn; [|exact IH].
      apply str_eqb_eq in Hkn. subst k.
      rewrite str_eqb_neq; [reflexivity|].
      intros ->. rewrite str_eqb_refl in Hk. discriminate.
Qed.

Lemma Map_get_delete_all (ws : conn) (m : ChannelMap) (n : jsstring) :
  Map_get n (map (fun entry => (fst entry, Set_delete ws (snd entry))) m)
  = option_map (Set_delete ws) (Map_get n m).
Proof.
  induction m as [|[k s] rest IH]; [reflexivity|].
  cbn [map fst snd Map_get]. destruct (str_eqb k n); [reflexivity | exact IH].
Qed.

Lemma Map_update_keys name f m : map fst (Map_update name f m) = map fst m.
Proof.
  induction m as [|[k s] rest IH]; [reflexivity|].
  cbn [Map_update map fst snd]. destruct (str_eqb k name); cbn [fst]; f_equal; exact IH.
Qed.

Lemma Map_set_keys name s m :
  map fst (Map_set name s m)
  = if Map_has name m then map fst m else map fst m ++ [name].
Proof.
  unfold Map_has. induction m as [|[k s'] rest IH]; [reflexivity|].
  cbn [Map_set Map_get]. destruct (str_eqb k name); [reflexivity|].
  cbn [map fst]. rewrite IH. destruct (Map_get name rest); reflexivity.
Qed.

Lemma Map_get_absent_key name m : Map_get name m = None -> ~ In name (map fst m).
Proof.
  induction m as [|[k s] rest IH]; [intros _ []|].
  cbn [Map_get map fst]. destruct (str_eqb k name) eqn:Hk; [discriminate|].
  intros H [<- | Hin]; [rewrite str_eqb_refl in Hk; discriminate | exact (IH H Hin)].
Qed.

Lemma In_Set_add c ws s : In c (Set_add ws s) -> c = ws \/ In c s.
Proof.
  unfold Set_add. destruct (Set_has ws s); [right; assumption|].
  intros H. apply in_app_or in H. destruct H as [H | [<- | []]]; [right; exact H | left; reflexivity].
Qed.

Lemma In_Set_delete c ws s : In c (Set_delete ws s) <-> In c s /\ c <> ws.
Proof.
  unfold Set_delete. rewrite filter_In. rewrite negb_true_iff, Nat.eqb_neq. reflexivity.
Qed.

(** ** What every event keeps *)

Lemma distinct_Map_set name : stable_under (with_channels (Map_set name [])) distinct.
Proof.
  intros w [Hkeys Hsets]. unfold distinct. cbn [with_channels channels]. split.
  - rewrite Map_set_keys. unfold Map_has.
    destruct (Map_get name (channels w)) eqn:Hget; [exact Hkeys|].
    apply NoDup_app; [exact Hkeys | repeat constructor; intros [] |].
    intros x Hx [<- | []]. exact (Map_get_absent_key _ _ Hget Hx).
  - clear Hkeys. induction Hsets as [|[k s] rest Hs Hrest IH]; cbn [Map_set].
    + repeat constructor.
    + destruct (str_eqb k name); constructor; try assumption. constructor.
Qed.

Lemma distinct_Map_update name ws :
  stable_under (with_channels (Map_update name (Set_add ws))) distinct.
Proof.
  intros w [Hkeys Hsets]. unfold distinct. cbn [with_channels channels]. split.
  - rewrite Map_update_keys. exact Hkeys.
  - clear Hkeys. induction Hsets as [|[k s] rest Hs Hrest IH]; cbn [Map_update map fst snd].
    + constructor.
    + constructor; [|exact IH]. destruct (str_eqb k name); cbn [snd fst] in *;
        [apply Set_add_NoDup|]; exact Hs.
Qed.

Lemma distinct_delete ws :
  stable_under (with_channels (map (fun entry => (fst entry, Set_delete ws (snd entry)))))
    distinct.
Proof.
  intros w [Hkeys Hsets]. unfold distinct. cbn [with_channels channels]. split.
  - rewrite map_map. cbn [fst]. exact Hkeys.
  - clear Hkeys. induction Hsets as [|[k s] rest Hs Hrest IH]; cbn [map fst snd];
      constructor; [apply Set_delete_NoDup; exact Hs | exact IH].
Qed.

Section Events.
Context {engine : Engine} {loop : EventLoop}.

Lemma distinct_event (ev : socket_event) (w : World) :
  stable_under meanwhile distinct ->
  distinct w -> distinct (final (websocket ev w)).
Proof.
  intros Hloop.
  revert w. change (keeps distinct (websocket ev)). destruct ev as [ws|ws frame|ws];
    cbn [websocket].
  - apply keeps_bind; [apply keeps_modify; intros w H; exact H | intros _].
    apply keeps_handleConnection. intros w H. exact H.
  - apply keeps_message; [exact Hloop|]. intros data name _ _ _.
    split; [apply distinct_Map_set | apply distinct_Map_update].
  - apply keeps_bind; [apply keeps_modify; intros w H; exact H | intros _].
    apply keeps_modify. apply distinct_delete.
Qed.

(** The lists that stand for the registry stay duplicate-free, as the Map
    and the Sets they stand for are by construction: no event puts a channel
    name or a member twice, when the callbacks that run during a wait do
    not. *)
Lemma registry_stays_distinct (evs : list socket_event) (w : World) :
  stable_under meanwhile distinct ->
  distinct w -> distinct (run_events evs w).
Proof.
  intros Hloop.
  revert w. induction evs as [|ev rest IH]; intros w H; [exact H|].
  cbn [run_events]. apply IH. apply distinct_event; assumption.
Qed.

(** X2. [message] never throws, whatever the frame, the registry and the
    sockets; a frame that is no JSON text, or is the JSON text null, is only
    logged: nothing is sent and the state is as it was. *)
Theorem message_never_throws (ws : conn) (frame : frame) (w : World) :
  outcome (message ws frame w) = Ok tt /\
  (final (message ws Malformed w) = w /\
   trace (message ws Malformed w) = [received_log; handling_error_log]) /\
  (final (message ws (Parsed VNull) w) = w /\
   trace (message ws (Parsed VNull) w) = [received_log; handling_error_log]).
Proof.
  split; [|split; split; reflexivity].
  unfold message, try_catch.
  match goal with |- outcome (match ?m w with _ => _ end) = _ => destruct (m w) as [[[[]|e] w1] t1] end;
    reflexivity.
Qed.

(** The handler of a frame that is no join writes nothing: the state it
    leaves is the one the waits of the handler have made. *)
Lemma message_only_waits (ws : conn) (frame : frame) (w : World) :
  (forall data, frame = Parsed data -> get data "type" <> Ok (str "join")) ->
  exists k, final (message ws frame w) = after_waits k w.
Proof.
  intros Hno.
  apply (keeps_message (fun w' => exists k, w' = after_waits k w)).
  - intros w0 [k ->]. exists (S k). reflexivity.
  - intros data name Hf Hty _. exfalso. exact (Hno data Hf Hty).
  - exists 0%nat. reflexivity.
Qed.

(** X3. Only a join writes to the registry: the handler of a frame that is
    no JSON value with the type join writes nothing at all, the state it
    leaves being the one that the callbacks run during its waits have made;
    so it leaves the channels and their member sets as they were, unless
    such a callback has written to them. *)
Theorem only_join_writes_registry (ws : conn) (frame : frame) (w : World) :
  (forall data, frame = Parsed data -> get data "type" <> Ok (str "join")) ->
  (exists k, final (message ws frame w) = after_waits k w) /\
  ((forall w0, channels (meanwhile w0) = channels w0) ->
   channels (final (message ws frame w)) = channels w).
Proof.
  intros Hno. split; [apply message_only_waits; exact Hno|].
  intros Hloop.
  destruct (message_only_waits ws frame w Hno) as [k ->].
  induction k as [|k IH]; [reflexivity|].
  change (after_waits (S k) w) with (meanwhile (after_waits k w)).
  rewrite Hloop. exact IH.
Qed.

(** X4. A connection becomes a member of a channel only by its own join
    frame naming that channel: after any event, a member of a channel was a
    member before, or the event is a join frame of that connection for that
    channel, or a callback run while the handler of the event waited has
    made it a member (by handling an event of its own). *)
Theorem membership_only_by_own_join (ev : socket_event) (w : World)
    (name : jsstring) (c : conn) :
  In c (members_of name (final (websocket ev w))) ->
  In c (members_of name w) \/
  (exists data, ev = Receives c (Parsed data) /\
                get data "type" = Ok (str "join") /\
                get data "channel" = Ok (VStr name)) \/
  (exists w0, In c (members_of name (meanwhile w0)) /\ ~ In c (members_of name w0)).
Proof.
  pose (joins := fun (c0 : conn) (n : jsstring) =>
                   exists data, ev = Receives c0 (Parsed data) /\
                                get data "type" = Ok (str "join") /\
                                get data "channel" = Ok (VStr n)).
  pose (added := fun (c0 : conn) (n : jsstring) =>
                   exists w0, In c0 (members_of n (meanwhile w0))
                              /\ ~ In c0 (members_of n w0)).
  pose (Q := fun w' : World =>
               forall n c0, In c0 (members_of n w') ->
                            In c0 (members_of n w) \/ joins c0 n \/ added c0 n).
  assert (Hstart : Q w) by (intros n c0 H; left; exact H).
  assert (Hloop : stable_under meanwhile Q).
  { intros w0 H n c0 Hin.
    destruct (in_dec Nat.eq_dec c0 (members_of n w0)) as [Hwas | Hnot].
    - exact (H n c0 Hwas).
    - right. right. exists w0. split; assumption. }
  assert (Hk : keeps Q (websocket ev)); [|intros H; exact (Hk w Hstart name c H)].
  clear Hstart. destruct ev as [ws|ws frame|ws]; cbn [websocket].
  - apply keeps_bind; [apply keeps_modify; intros w0 H; exact H | intros _].
    apply keeps_handleConnection. intros w0 H. exact H.
  - apply keeps_message; [exact Hloop|]. intros data nm -> Hty Hch. split.
    + intros w0 H n c0. unfold members_of. cbn [with_channels channels].
      rewrite Map_get_set. destruct (str_eqb nm n); [intros [] | apply H].
    + intros w0 H n c0. unfold members_of. cbn [with_channels channels].
      rewrite Map_get_update_at. destruct (str_eqb nm n) eqn:Hn; [|apply H].
      apply str_eqb_eq in Hn. subst n. specialize (H nm c0). unfold members_of in H.
      destruct (Map_get nm (channels w0)) as [s|]; cbn [option_map]; [|intros []].
      intros Hin. apply In_Set_add in Hin. destruct Hin as [-> | Hin]; [|exact (H Hin)].
      right. left. exists data. repeat split; assumption.
  - apply keeps_bind; [apply keeps_modify; intros w0 H; exact H | intros _].
    apply keeps_modify. intros w0 H n c0. unfold members_of. cbn [with_channels channels].
    rewrite Map_get_delete_all. specialize (H n c0). unfold members_of in H.
    destruct (Map_get n (channels w0)) as [s|]; cbn [option_map]; [|intros []].
    intros Hin. apply In_Set_delete in Hin. apply H. exact (proj1 Hin).
Qed.

(** X5. When a socket closes, its connection and no other leaves the member
    sets, and every channel stays in the registry, emptied or not. *)
Theorem close_removes_only_the_closed (ws : conn) (w : World) :
  let w' := final (websocket (Closes ws) w) in
  (forall name c, In c (members_of name w') <-> In c (members_of name w) /\ c <> ws) /\
  map fst (channels w') = map fst (channels w).
Proof.
  cbv zeta. split.
  - intros name c. cbn. unfold members_of. cbn [with_channels channels with_readyState].
    rewrite Map_get_delete_all.
    destruct (Map_get name (channels w)) as [s|]; cbn [option_map];
      [apply In_Set_delete | tauto].
  - cbn. rewrite map_map. reflexivity.
Qed.

End Events.

(** ** The chat loop *)

Lemma reached_all w cs :
  (forall c, In c cs -> sendThrows w c = false) -> reached w cs = cs.
Proof.
  induction cs as [|c cs IH]; intros H; [reflexivity|].
  cbn [reached]. rewrite (H c) by (left; reflexivity). rewrite andb_false_r.
  f_equal. apply IH. intros x Hx. apply H. right. exact Hx.
Qed.

Lemma reached_incl w cs c : In c (reached w cs) -> In c cs.
Proof.
  induction cs as [|x cs IH]; [intros []|]. cbn [reached].
  destruct (is_open (readyState w x) && sendThrows w x).
  - intros [<- | []]. left. reflexivity.
  - intros [<- | H]; [left; reflexivity | right; exact (IH H)].
Qed.

Lemma attempts_chat_absent w ws fields cs c :
  ~ In c cs -> attempts_to c (chat_trace w ws fields cs) = [].
Proof.
  induction cs as [|x cs IH]; intros Hn; [reflexivity|].
  assert (Hx : Nat.eqb x c = false) by (apply Nat.eqb_neq; intros ->; apply Hn; left; reflexivity).
  assert (Hrest : attempts_to c (chat_trace w ws fields cs) = [])
    by (apply IH; intros H; apply Hn; right; exact H).
  cbn [chat_trace]. destruct (is_open (readyState w x)); [|exact Hrest].
  destruct (sendThrows w x); cbn [attempts_to]; rewrite Hx; [reflexivity | exact Hrest].
Qed.

Lemma attempts_chat w ws fields cs c :
  NoDup cs ->
  attempts_to c (chat_trace w ws fields cs)
  = if Set_has c (reached w cs) && is_open (readyState w c)
    then [chat_envelope ws fields c] else [].
Proof.
  induction 1 as [|x cs Hx Hnd IH]; [reflexivity|].
  cbn [chat_trace reached].
  destruct (Nat.eqb c x) eqn:Hcx.
  - apply Nat.eqb_eq in Hcx. subst x.
    assert (Hhead : forall l, Set_has c (c :: l) = true)
      by (intros l; unfold Set_has; cbn [existsb]; rewrite Nat.eqb_refl; reflexivity).
    destruct (is_open (readyState w c)) eqn:Ho; cbn [andb].
    + destruct (sendThrows w c); cbn [attempts_to]; rewrite Nat.eqb_refl, Hhead; cbn [andb];
        [reflexivity|].
      rewrite (attempts_chat_absent w ws fields cs c Hx). reflexivity.
    + rewrite andb_false_r. apply attempts_chat_absent. exact Hx.
  - assert (Hxc : Nat.eqb x c = false) by (rewrite Nat.eqb_sym; exact Hcx).
    assert (Hskip : forall l, Set_has c (x :: l) = Set_has c l)
      by (intros l; unfold Set_has; cbn [existsb]; rewrite Hcx; reflexivity).
    destruct (is_open (readyState w x)); cbn [andb].
    + destruct (sendThrows w x); cbn [attempts_to]; rewrite Hxc, Hskip; [|exact IH].
      unfold Set_has. cbn [existsb andb]. reflexivity.
    + rewrite Hskip. exact IH.
Qed.

Section Chat.
Context {engine : Engine} {loop : EventLoop}.

Lemma chat_loop_run ws fields w cs :
  exists r,
    forEach cs (fun client =>
      bind (client_is_open client) (fun open =>
      if open then
        bind (console_log (lit "Broadcasting message to client:")) (fun _ =>
        bind (lift (get (VObj fields) "message")) (fun text =>
        send client (obj [("type", str "broadcast");
                          ("message", text);
                          ("sender", if Nat.eqb client ws then str "You" else str "User");
                          ("channel", own fields (lit "channel"))])))
      else ret tt)) w
    = (r, w, chat_trace w ws fields cs).
Proof.
  set (body := fun client : conn => _).
  assert (Hbody : forall c,
    body c w = (if is_open (readyState w c) && sendThrows w c then Throw SendError else Ok tt,
                w,
                if is_open (readyState w c) then
                  ConsoleLog (lit "Broadcasting message to client:")
                  :: (if sendThrows w c
                      then [SendThrew c (chat_envelope ws fields c)]
                      else [Sent c (chat_envelope ws fields c)])
                else [])).
  { intros c. unfold body, bind, client_is_open, read, console_log, emit, lift, send, ret.
    cbn [get]. destruct (is_open (readyState w c)); [destruct (sendThrows w c)|]; reflexivity. }
  clearbody body.
  induction cs as [|c cs [r IH]]; [eexists; reflexivity|].
  cbn [forEach chat_trace]. unfold bind. rewrite Hbody, IH.
  destruct (is_open (readyState w c)); [destruct (sendThrows w c)|]; eexists; reflexivity.
Qed.

Lemma message_chat_member ws fields name w :
  own fields (lit "channel") = VStr name ->
  name <> [] ->
  Set_has ws (members_of name w) = true ->
  exists r,
    message_chat ws (VObj fields) w = (r, w, chat_trace w ws fields (members_of name w)).
Proof.
  intros Hch Hne Hin.
  destruct (chat_loop_run ws fields w (members_of name w)) as [r Hrun].
  exists r. unfold message_chat.
  unfold bind at 1. unfold lift at 1.
  change (get (VObj fields) "channel") with (Ok (own fields (lit "channel"))). rewrite Hch.
  rewrite (channel_name_present name Hne). cbn [string_of app].
  unfold bind at 1. unfold read at 1. rewrite (Set_has_known ws name w Hin).
  unfold bind at 1. unfold read at 1. rewrite Hin. cbn [negb orb].
  unfold bind at 1. unfold members at 1, read at 1.
  rewrite <- Hch. rewrite Hrun. reflexivity.
Qed.

Lemma message_chat_run ws fields name w :
  own fields (lit "type") = str "message" ->
  own fields (lit "channel") = VStr name ->
  name <> [] ->
  In ws (members_of name w) ->
  final (message ws (Parsed (VObj fields)) w) = w /\
  outcome (message ws (Parsed (VObj fields)) w) = Ok tt /\
  exists logs,
    (forall c, attempts_to c logs = []) /\
    trace (message ws (Parsed (VObj fields)) w)
    = received_log :: chat_trace w ws fields (members_of name w) ++ logs.
Proof.
  intros Htype Hch Hne Hin. apply Set_has_In in Hin.
  rewrite (message_run ws (VObj fields) (str "message") w)
    by (cbn [get]; rewrite Htype; reflexivity).
  eval_tags. cbv iota.
  destruct (message_chat_member ws fields name w Hch Hne Hin) as [r ->].
  destruct r as [[]|e]; cbn [message_wraps final outcome trace fst snd app];
    (split; [reflexivity|]; split; [reflexivity|]).
  - exists []. split; [intros c; reflexivity | rewrite app_nil_r; reflexivity].
  - exists [handling_error_log]. split; [intros c; reflexivity | reflexivity].
Qed.

(** X6. A message frame of a channel member, when no send to a member
    throws: every member whose socket is open is sent exactly one broadcast
    envelope with the message and the channel of the frame, labelled "You"
    for the sender and "User" for every other member; nobody else is sent
    anything and the state is as it was. *)
Theorem chat_reaches_members (ws : conn) (fields : list (jsstring * value))
    (name : jsstring) (w : World) :
  own fields (lit "type") = str "message" ->
  own fields (lit "channel") = VStr name ->
  name <> [] ->
  In ws (members_of name w) ->
  NoDup (members_of name w) ->
  (forall c, In c (members_of name w) -> sendThrows w c = false) ->
  let r := message ws (Parsed (VObj fields)) w in
  outcome r = Ok tt /\
  final r = w /\
  forall c, attempts_to c (trace r) =
            if Set_has c (members_of name w) && is_open (readyState w c)
            then [obj [("type", str "broadcast");
                       ("message", own fields (lit "message"));
                       ("sender", if Nat.eqb c ws then str "You" else str "User");
                       ("channel", VStr name)]]
            else [].
Proof.
  intros Htype Hch Hne Hin Hnd Hsend. cbv zeta.
  destruct (message_chat_run ws fields name w Htype Hch Hne Hin)
    as (Hfinal & Hout & logs & Hquiet & Htrace).
  split; [exact Hout|]. split; [exact Hfinal|].
  intros c. rewrite Htrace. cbn [attempts_to received_log].
  rewrite attempts_to_app, Hquiet, app_nil_r.
  rewrite (attempts_chat w ws fields _ c Hnd).
  rewrite (reached_all w _ Hsend). unfold chat_envelope. rewrite Hch. reflexivity.
Qed.

(** X7. The chat loop has no guard around its sends: when the send to an
    open member throws, the members that come after it in the member set are
    sent nothing, the members before it have been sent their envelope, and
    [message] still returns normally. *)
Theorem chat_stops_at_failing_send (ws bad : conn) (fields : list (jsstring * value))
    (name : jsstring) (w : World) (before after : list conn) :
  own fields (lit "type") = str "message" ->
  own fields (lit "channel") = VStr name ->
  name <> [] ->
  In ws (members_of name w) ->
  NoDup (members_of name w) ->
  members_of name w = before ++ bad :: after ->
  (forall c, In c before -> sendThrows w c = false) ->
  is_open (readyState w bad) = true ->
  sendThrows w bad = true ->
  let r := message ws (Parsed (VObj fields)) w in
  outcome r = Ok tt /\
  (forall c, In c after -> attempts_to c (trace r) = []) /\
  (forall c, In c before -> is_open (readyState w c) = true ->
             attempts_to c (trace r) = [chat_envelope ws fields c]).
Proof.
  intros Htype Hch Hne Hin Hnd Hsplit Hbefore Hopen Hbad. cbv zeta.
  destruct (message_chat_run ws fields name w Htype Hch Hne Hin)
    as (_ & Hout & logs & Hquiet & Htrace).
  split; [exact Hout|].
  assert (Hreach : reached w (members_of name w) = before ++ [bad]).
  { rewrite Hsplit. clear - Hbefore Hopen Hbad.
    induction before as [|x before IH]; cbn [reached app].
    - rewrite Hopen, Hbad. reflexivity.
    - rewrite (Hbefore x) by (left; reflexivity). rewrite andb_false_r.
      f_equal. apply IH. intros c Hc. apply Hbefore. right. exact Hc. }
  assert (Hatt : forall c, attempts_to c (trace (message ws (Parsed (VObj fields)) w))
                           = if Set_has c (before ++ [bad]) && is_open (readyState w c)
                             then [chat_envelope ws fields c] else []).
  { intros c. rewrite Htrace. cbn [attempts_to received_log].
    rewrite attempts_to_app, Hquiet, app_nil_r.
    rewrite (attempts_chat w ws fields _ c Hnd), Hreach. reflexivity. }
  rewrite Hsplit in Hnd. split.
  - intros c Hc. rewrite Hatt.
    rewrite (Set_has_false c (before ++ [bad])); [reflexivity|].
    intros Hin'. apply in_app_or in Hin'.
    apply NoDup_remove in Hnd. destruct Hnd as [Hnd Hnot].
    destruct Hin' as [Hb | [<- | []]].
    + clear - Hnd Hb Hc. induction before as [|x before IH]; [contradiction|].
      cbn [app] in Hnd. inversion Hnd as [|? ? Hx Hrest]; subst.
      destruct Hb as [<- | Hb]; [apply Hx; apply in_or_app; right; exact Hc | exact (IH Hrest Hb)].
    + apply Hnot. apply in_or_app. right. exact Hc.
  - intros c Hc Ho. rewrite Hatt, Ho.
    rewrite (proj2 (Set_has_In c (before ++ [bad]))); [reflexivity|].
    apply in_or_app. left. exact Hc.
Qed.

End Chat.

(** ** The gates and the pass-through handlers *)

Section Gates.
Context {engine : Engine} {loop : EventLoop}.

Lemma message_join_nameless ws data ch w :
  get data "channel" = Ok ch ->
  channel_name_missing ch = true ->
  message_join ws data w = send ws (error_reply "Channel name is required") w.
Proof.
  intros Hch Hm. unfold message_join.
  unfold bind at 1. unfold lift at 1. rewrite Hch. rewrite Hm.
  destruct (send _ _ w) as [[r w1] t1]. rewrite app_nil_l. reflexivity.
Qed.

Lemma message_chat_nameless ws data ch w :
  get data "channel" = Ok ch ->
  channel_name_missing ch = true ->
  message_chat ws data w = send ws (error_reply "Channel name is required") w.
Proof.
  intros Hch Hm. unfold message_chat.
  unfold bind at 1. unfold lift at 1. rewrite Hch. rewrite Hm.
  destruct (send _ _ w) as [[r w1] t1]. rewrite app_nil_l. reflexivity.
Qed.

(** X8. A frame of any type, join included, whose channel is missing, empty
    or no string is answered to its sender alone, no channel is created and
    the state is as it was: a frame that has a type, an object or another
    JSON value than null, is answered with exactly one error envelope
    "Channel name is required"; a frame that is no JSON text, or is null,
    has no type that could be read and is answered with nothing. *)
Theorem channel_name_required (ws : conn) (message : frame) (w : World) :
  nameless message = true ->
  let r := Relay.message ws message w in
  outcome r = Ok tt /\
  final r = w /\
  (forall c, c <> ws -> attempts_to c (trace r) = []) /\
  attempts_to ws (trace r)
  = match type_of_frame message with
    | Some _ => [obj [("type", str "error"); ("message", str "Channel name is required")]]
    | None => []
    end.
Proof.
  intros Hmiss. cbv zeta.
  assert (Hnone : forall m, (m = Malformed \/ m = Parsed VUndefined \/ m = Parsed VNull) ->
            Relay.message ws m w = (Ok tt, w, [received_log; handling_error_log])).
  { intros m [-> | [-> | ->]]; reflexivity. }
  assert (Hsome : forall data ty ch,
            get data "type" = Ok ty -> get data "channel" = Ok ch ->
            channel_name_missing ch = true ->
            let r := Relay.message ws (Parsed data) w in
            outcome r = Ok tt /\ final r = w /\
            forall c, attempts_to c (trace r) =
                      if Nat.eqb c ws
                      then [error_reply "Channel name is required"] else []).
  { intros data ty ch Hty Hch Hm. cbv zeta. rewrite (message_run ws data ty w Hty).
    destruct (is_str ty "join"); [|destruct (is_str ty "message")].
    - rewrite (message_join_nameless ws data ch w Hch Hm). apply message_wraps_send.
    - rewrite (message_chat_nameless ws data ch w Hch Hm). apply message_wraps_send.
    - rewrite (handleSpecialMessage_nameless ws data ch w Hch Hm).
      apply message_wraps_send. }
  destruct message as [|data].
  { rewrite Hnone by tauto. cbn [type_of_frame outcome final trace fst snd].
    repeat split. }
  destruct data as [| |b|q|s|items|fields].
  1,2: rewrite Hnone by tauto; cbn [type_of_frame get outcome final trace fst snd];
       repeat split.
  all: unfold nameless in Hmiss; cbn [type_of_frame channel_of_frame get] in Hmiss |- *;
    match goal with
    | |- context [Relay.message _ (Parsed ?d) _] =>
        destruct (Hsome d _ _ eq_refl eq_refl Hmiss) as (Ho & Hf & Ha)
    end;
    (split; [exact Ho|]); (split; [exact Hf|]); split;
    [ intros c Hc; rewrite Ha; apply Nat.eqb_neq in Hc; rewrite Hc; reflexivity
    | rewrite Ha, Nat.eqb_refl; reflexivity ].
Qed.

(** X9. A code:open, code:highlight or comments:export frame of a channel
    member is passed through: every member whose socket is open is sent
    exactly one envelope of the type of the frame with its payload, channel
    and id unchanged; nobody else is sent anything and the state is as it
    was. *)
Theorem pass_through_fan_out (ws : conn) (fields : list (jsstring * value)) (ty : string)
    (name : jsstring) (w : World) :
  In ty ["code:open"; "code:highlight"; "comments:export"] ->
  own fields (lit "type") = str ty ->
  own fields (lit "channel") = VStr name ->
  name <> [] ->
  In ws (members_of name w) ->
  NoDup (members_of name w) ->
  let r := message ws (Parsed (VObj fields)) w in
  outcome r = Ok tt /\
  final r = w /\
  forall c, attempts_to c (trace r) =
            if Set_has c (members_of name w) && is_open (readyState w c)
            then [obj [("type", str ty);
                       ("payload", own fields (lit "payload"));
                       ("channel", VStr name);
                       ("id", own fields (lit "id"))]]
            else [].
Proof.
  intros Hty Htype Hch Hne Hin Hnd. cbv zeta.
  assert (Hreach : reaches_switch ws fields name w).
  { apply (reaches_switch_of_type ws fields ty name w); try assumption.
    cbn [In domain_types] in *. tauto. }
  assert (Hrun : exists label,
    handleSpecialMessage_switch name (VObj fields) w
    = (Ok tt, w, ConsoleLog (lit label)
                 :: broadcast_trace w (members_of name w) (relayed ty fields))).
  { rewrite switch_run. cbv zeta. rewrite Htype. cbn [In] in Hty.
    destruct Hty as [<- | [<- | [<- | []]]]; eval_tags; cbv iota;
      unfold handleCodeOpen, handleCodeHighlight, handleCommentExport;
      rewrite pass_through_run; eexists; reflexivity. }
  destruct Hrun as [label Hrun].
  rewrite (message_switch_ok ws fields name w w _ Hreach Hrun).
  unfold outcome, final, trace. cbn [fst snd].
  split; [reflexivity|]. split; [reflexivity|].
  intros c. cbn [attempts_to received_log]. rewrite attempts_broadcast by exact Hnd.
  unfold relayed. rewrite Hch. reflexivity.
Qed.

(** X10. A uml:generate frame of a channel member starts nothing in the
    relay: every member whose socket is open is sent exactly one
    uml:generate:started envelope with the payload, channel and id of the
    frame, and nobody else is sent anything. *)
Theorem generate_started_fan_out (ws : conn) (fields : list (jsstring * value))
    (name : jsstring) (w : World) :
  own fields (lit "type") = str "uml:generate" ->
  own fields (lit "channel") = VStr name ->
  name <> [] ->
  In ws (members_of name w) ->
  NoDup (members_of name w) ->
  let r := message ws (Parsed (VObj fields)) w in
  outcome r = Ok tt /\
  final r = w /\
  forall c, attempts_to c (trace r) =
            if Set_has c (members_of name w) && is_open (readyState w c)
            then [obj [("type", str "uml:generate:started");
                       ("message", str "UML generation started");
                       ("payload", own fields (lit "payload"));
                       ("channel", VStr name);
                       ("id", own fields (lit "id"))]]
            else [].
Proof.
  intros Htype Hch Hne Hin Hnd. cbv zeta.
  assert (Hreach : reaches_switch ws fields name w).
  { apply (reaches_switch_of_type ws fields "uml:generate" name w); try assumption.
    cbn; tauto. }
  rewrite (message_switch_ok ws fields name w w
             (ConsoleLog (lit "Handling UML generation request:")
              :: broadcast_trace w (members_of name w)
                   (obj [("type", str "uml:generate:started");
                         ("message", str "UML generation started");
                         ("payload", own fields (lit "payload"));
                         ("channel", own fields (lit "channel"));
                         ("id", own fields (lit "id"))])) Hreach).
  2:{ rewrite switch_run. cbv zeta. rewrite Htype. eval_tags. cbv iota.
      unfold handleUmlGenerate, bind, lift, console_log, emit. cbn [get].
      rewrite broadcastToChannel_run. reflexivity. }
  unfold outcome, final, trace. cbn [fst snd].
  split; [reflexivity|]. split; [reflexivity|].
  intros c. cbn [attempts_to received_log]. rewrite attempts_broadcast by exact Hnd.
  rewrite Hch. reflexivity.
Qed.

(** X11. A frame without the payload its handler reads: a uml:payload frame
    with no payload, or a comments:upsert frame whose payload is absent or
    null, is not relayed; the handler throws a TypeError and every member
    whose socket is open is sent the error envelope of the dispatcher
    instead. *)
Theorem missing_payload_is_reported (ws : conn) (fields : list (jsstring * value))
    (ty : string) (name : jsstring) (w : World) :
  (ty = "uml:payload" /\ own fields (lit "payload") = VUndefined) \/
  (ty = "comments:upsert" /\
   (own fields (lit "payload") = VUndefined \/ own fields (lit "payload") = VNull)) ->
  own fields (lit "type") = str ty ->
  own fields (lit "channel") = VStr name ->
  name <> [] ->
  In ws (members_of name w) ->
  NoDup (members_of name w) ->
  let r := message ws (Parsed (VObj fields)) w in
  exists property : string,
    outcome r = Ok tt /\
    final r = w /\
    forall c, attempts_to c (trace r) =
              if Set_has c (members_of name w) && is_open (readyState w c)
              then [obj [("type", str "error");
                         ("message", VStr (lit "Failed to handle " ++ lit ty ++ lit ": "
                                           ++ error_text (TypeError property)));
                         ("channel", VStr name)]]
              else [].
Proof.
  intros Hcase Htype Hch Hne Hin Hnd. cbv zeta.
  assert (Hdom : In ty domain_types).
  { destruct Hcase as [[-> _] | [-> _]]; cbn; tauto. }
  assert (Hreach : reaches_switch ws fields name w)
    by (apply (reaches_switch_of_type ws fields ty name w); assumption).
  assert (Hthrow : exists property t1,
    (forall c, attempts_to c t1 = []) /\
    handleSpecialMessage_switch name (VObj fields) w = (Throw (TypeError property), w, t1)).
  { rewrite switch_run. cbv zeta. rewrite Htype.
    destruct Hcase as [[-> Hp] | [-> [Hp | Hp]]]; eval_tags; cbv iota.
    - exists "length". eexists. split; [|
        unfold handleUmlPayload, bind, lift, console_log, emit; cbn [get]; rewrite Hp;
        cbn [JSON_stringify text_length]; reflexivity].
      intros c. reflexivity.
    - exists "createdAt". eexists. split; [|
        unfold handleCommentUpsert, bind, lift, console_log, emit; cbn [get]; rewrite Hp;
        cbn [get]; reflexivity].
      intros c. reflexivity.
    - exists "createdAt". eexists. split; [|
        unfold handleCommentUpsert, bind, lift, console_log, emit; cbn [get]; rewrite Hp;
        cbn [get]; reflexivity].
      intros c. reflexivity. }
  destruct Hthrow as (property & t1 & Hquiet & Hthrow). exists property.
  rewrite (message_switch_throw ws fields name w w t1 _ (lit ty) Hreach
             ltac:(rewrite Htype; reflexivity) Hthrow).
  unfold outcome, final, trace. cbn [fst snd].
  split; [reflexivity|]. split; [reflexivity|].
  intros c. cbn [attempts_to received_log]. rewrite attempts_to_app, Hquiet.
  cbn [app attempts_to]. rewrite attempts_broadcast by exact Hnd.
  unfold handler_error_envelope. reflexivity.
Qed.

End Gates.

(** ** The sizes of the chunks *)

(** X12. The chunks the relay cuts from a text: there are at least three of
    them when the text has more than 1048576 code units; every chunk has at
    least one and at most 524288 code units, and every chunk but the last
    has exactly 524288. *)
Theorem chunk_sizes (text : jsstring) (i : Z) :
  let L := Z.of_nat (List.length text) in
  let totalChunks := Math_ceil_div L 524288 in
  let piece := slice text (i * 524288) (Z.min ((i + 1) * 524288) L) in
  (0 <= i < totalChunks)%Z ->
  Z.of_nat (List.length piece) = Z.min 524288 (L - i * 524288) /\
  (1 <= Z.of_nat (List.length piece) <= 524288)%Z /\
  (i < totalChunks - 1 -> Z.of_nat (List.length piece) = 524288)%Z /\
  (1048576 < L -> 3 <= totalChunks)%Z.
Proof.
  cbv zeta. intros Hi.
  pose proof (Math_ceil_div_spec (Z.of_nat (List.length text)) 524288 ltac:(lia) ltac:(lia))
    as Hceil.
  assert (Hpiece :
    slice text (i * 524288) (Z.min ((i + 1) * 524288) (Z.of_nat (List.length text)))
    = firstn (Z.to_nat 524288) (skipn (Z.to_nat i * Z.to_nat 524288) text)).
  { rewrite <- (slice_chunk text 524288 (Z.to_nat i)) by lia.
    rewrite Z2Nat.id by lia. reflexivity. }
  rewrite Hpiece, length_firstn, length_skipn.
  assert (Hprod : Z.of_nat (Z.to_nat i * Z.to_nat 524288) = (i * 524288)%Z)
    by (rewrite Nat2Z.inj_mul, !Z2Nat.id by lia; reflexivity).
  assert (Hcs : Z.of_nat (Z.to_nat 524288) = 524288%Z) by (apply Z2Nat.id; lia).
  revert Hprod Hcs.
  generalize (Z.to_nat i * Z.to_nat 524288)%nat as p. generalize (Z.to_nat 524288) as c.
  intros c p Hprod Hcs. lia.
Qed.

(** ** Joining, then chatting or leaving *)

Lemma Set_delete_add ws s : Set_delete ws (Set_add ws s) = Set_delete ws s.
Proof.
  unfold Set_add. destruct (Set_has ws s); [reflexivity|].
  unfold Set_delete. rewrite filter_app. cbn [filter]. rewrite Nat.eqb_refl. cbn [negb].
  apply app_nil_r.
Qed.

Lemma Set_delete_stranger ws s : ~ In ws s -> Set_delete ws s = s.
Proof.
  intros Hn. unfold Set_delete. induction s as [|x s IH]; [reflexivity|].
  cbn [filter]. destruct (Nat.eqb x ws) eqn:Hx.
  - apply Nat.eqb_eq in Hx. subst. exfalso. apply Hn. left. reflexivity.
  - cbn [negb]. f_equal. apply IH. intros H. apply Hn. right. exact H.
Qed.

Lemma members_joined_at ws name w n :
  members_of n (joined ws name w)
  = if str_eqb name n then Set_add ws (members_of n w) else members_of n w.
Proof.
  destruct (str_eqb name n) eqn:Hn.
  - apply str_eqb_eq in Hn. subst n. apply members_joined.
  - unfold joined, members_of. cbn [with_channels channels].
    rewrite Map_get_update_at, Hn.
    destruct (Map_has name (channels w)); [reflexivity|].
    cbn [with_channels channels]. rewrite Map_get_set, Hn. reflexivity.
Qed.

Lemma members_of_channels (a b : World) (n : jsstring) :
  channels a = channels b -> members_of n a = members_of n b.
Proof. intros H. unfold members_of. rewrite H. reflexivity. Qed.

Lemma Map_has_joined ws name w : Map_has name (channels (joined ws name w)) = true.
Proof.
  pose proof (members_joined ws name w) as Hm.
  unfold Map_has. unfold joined in *. unfold members_of in Hm.
  cbn [with_channels channels] in *. rewrite Map_get_update in *.
  destruct (Map_has name (channels w)) eqn:Hhas; unfold Map_has in Hhas.
  - destruct (Map_get name (channels w)); [reflexivity | discriminate].
  - cbn [with_channels channels] in *.
    destruct (Map_get name (channels w)) eqn:Hget; [discriminate|].
    rewrite (Map_get_set_absent name [] (channels w) Hget). reflexivity.
Qed.

Section Composition.
Context {engine : Engine} {loop : EventLoop}.

Lemma close_members ws w n :
  members_of n (final (websocket (Closes ws) w)) = Set_delete ws (members_of n w).
Proof.
  cbn. unfold members_of. cbn [with_channels channels with_readyState].
  rewrite Map_get_delete_all. destruct (Map_get n (channels w)); reflexivity.
Qed.

(** The registry after a join that names a channel, however its sends
    end. *)
Lemma join_registry ws fields name w :
  own fields (lit "channel") = VStr name ->
  name <> [] ->
  channels (final (message_join ws (VObj fields) w)) = channels (joined ws name w).
Proof.
  intros Hch Hne. unfold message_join.
  unfold bind at 1. unfold lift at 1.
  change (get (VObj fields) "channel") with (Ok (own fields (lit "channel"))). rewrite Hch.
  rewrite (channel_name_present name Hne). cbn [string_of].
  unfold bind at 1. unfold read at 1.
  unfold bind at 1.
  assert (Hfirst :
    (if negb (Map_has name (channels w))
     then modify (with_channels (Map_set name [])) else ret tt : R unit) w
    = (Ok tt, if Map_has name (channels w) then w else with_channels (Map_set name []) w, [])).
  { destruct (Map_has name (channels w)); reflexivity. }
  rewrite Hfirst.
  unfold bind at 1. unfold modify at 1. fold (joined ws name w).
  match goal with
  | |- channels (final (let (_, _) := let (_, _) := let (_, _) := let (_, _) := ?m ?s in _ in _ in _ in _))
       = _ =>
      assert (Hk : keeps (fun w' => channels w' = channels (joined ws name w)) m);
      [|specialize (Hk s eq_refl); destruct (m s) as [[r w1] t1]; exact Hk]
  end.
  unfold members, client_is_open, console_log. repeat keeps_step.
Qed.

(** C9, amended. A join frame of a connection for a channel. The member set
    of the channel gains the joiner, and it is unchanged when the joiner was
    a member already, whether or not a send throws; [message] returns
    normally. When no send to the joiner or to a member throws, the joiner
    is sent its two acknowledgements and never the notification; every
    other member whose socket is open is sent exactly one "A new user has
    joined the channel" notification, and nobody else is sent anything. *)
Theorem join_notifies_open_members (ws : conn) (fields : list (jsstring * value))
    (name : jsstring) (w : World) :
  own fields (lit "type") = str "join" ->
  own fields (lit "channel") = VStr name ->
  name <> [] ->
  NoDup (members_of name w) ->
  let r := message ws (Parsed (VObj fields)) w in
  let ack := obj [("type", str "system");
                  ("message", VStr (lit "Joined channel: " ++ name));
                  ("channel", VStr name)] in
  let echo := obj [("type", str "system");
                   ("message", obj [("id", own fields (lit "id"));
                                    ("result", VStr (lit "Connected to channel: " ++ name))]);
                   ("channel", VStr name)] in
  let notice := obj [("type", str "system");
                     ("message", str "A new user has joined the channel");
                     ("channel", VStr name)] in
  outcome r = Ok tt /\
  members_of name (final r) = Set_add ws (members_of name w) /\
  (In ws (members_of name w) -> members_of name (final r) = members_of name w) /\
  ((forall c, c = ws \/ In c (members_of name w) -> sendThrows w c = false) ->
   forall c, attempts_to c (trace r) =
             if Nat.eqb c ws then [ack; echo]
             else if Set_has c (members_of name w) && is_open (readyState w c)
                  then [notice] else []).
Proof.
  intros Htype Hch Hne Hnd. cbv zeta.
  rewrite (message_run ws (VObj fields) (str "join") w)
    by (cbn [get]; rewrite Htype; reflexivity).
  eval_tags. cbv iota.
  assert (Hmembers : members_of name (final (message_wraps (message_join ws (VObj fields) w)))
                     = Set_add ws (members_of name w)).
  { rewrite <- (members_joined ws name w).
    apply members_of_channels.
    rewrite <- (join_registry ws fields name w Hch Hne).
    destruct (message_join ws (VObj fields) w) as [[[[]|e] w1] t1]; reflexivity. }
  split; [|split; [exact Hmembers|split]].
  - destruct (message_join ws (VObj fields) w) as [[[[]|e] w1] t1]; reflexivity.
  - intros Hin. rewrite Hmembers. apply Set_add_member. exact Hin.
  - intros Hsend c.
    rewrite (message_join_run ws fields name w Hch Hne Hsend).
    cbn [message_wraps outcome final trace fst snd].
    cbn [attempts_to received_log].
    rewrite (Nat.eqb_sym ws c).
    rewrite (attempts_each (fun client => negb (Nat.eqb client ws) && is_open (readyState w client)))
      by (apply Set_add_NoDup; exact Hnd).
    destruct (Nat.eqb c ws) eqn:Hc.
    + cbn [negb andb]. rewrite andb_false_r. reflexivity.
    + cbn [negb andb]. rewrite Set_add_has by (apply Nat.eqb_neq; exact Hc). reflexivity.
Qed.

(** X13. Joining and then closing is a round trip for the member sets: after
    the join frame of a connection and the close of its socket, every member
    set is what it was without that connection, whatever the sends of the
    join did; the joined channel stays in the registry. *)
Theorem join_then_close_restores_members (ws : conn) (fields : list (jsstring * value))
    (name : jsstring) (w : World) :
  own fields (lit "type") = str "join" ->
  own fields (lit "channel") = VStr name ->
  name <> [] ->
  let w1 := final (message ws (Parsed (VObj fields)) w) in
  let w2 := final (websocket (Closes ws) w1) in
  (forall n, members_of n w2 = Set_delete ws (members_of n w)) /\
  ((forall n, ~ In ws (members_of n w)) -> forall n, members_of n w2 = members_of n w) /\
  Map_has name (channels w2) = true.
Proof.
  intros Htype Hch Hne. cbv zeta.
  assert (Hw1 : channels (final (message ws (Parsed (VObj fields)) w))
                = channels (joined ws name w)).
  { rewrite (message_run ws (VObj fields) (str "join") w)
      by (cbn [get]; rewrite Htype; reflexivity).
    eval_tags. cbv iota.
    pose proof (join_registry ws fields name w Hch Hne) as Hreg.
    destruct (message_join ws (VObj fields) w) as [[[[]|e] w1] t1]; exact Hreg. }
  split; [|split].
  - intros n. rewrite close_members, (members_of_channels _ _ n Hw1), members_joined_at.
    destruct (str_eqb name n); [apply Set_delete_add | reflexivity].
  - intros Hout n. rewrite close_members, (members_of_channels _ _ n Hw1), members_joined_at.
    destruct (str_eqb name n); [rewrite Set_delete_add|]; apply Set_delete_stranger, Hout.
  - change (channels (final (websocket (Closes ws)
               (final (message ws (Parsed (VObj fields)) w)))))
      with (map (fun entry : jsstring * list conn => (fst entry, Set_delete ws (snd entry)))
                (channels (final (message ws (Parsed (VObj fields)) w)))).
    rewrite Hw1. unfold Map_has. rewrite Map_get_delete_all.
    pose proof (Map_has_joined ws name w) as Hhas. unfold Map_has in Hhas.
    destruct (Map_get name (channels (joined ws name w))); [reflexivity | discriminate].
Qed.

(** X14. A connection that has joined may chat: after its join frame, when no
    send throws, its message frame for the same channel is not refused; the
    joiner and every other member whose socket is open are sent the
    broadcast envelope, the joiner with the label "You". *)
Theorem joined_member_may_chat (ws : conn) (join chat : list (jsstring * value))
    (name : jsstring) (w : World) :
  own join (lit "type") = str "join" ->
  own join (lit "channel") = VStr name ->
  own chat (lit "type") = str "message" ->
  own chat (lit "channel") = VStr name ->
  name <> [] ->
  NoDup (members_of name w) ->
  (forall c, sendThrows w c = false) ->
  let w1 := final (message ws (Parsed (VObj join)) w) in
  let r := message ws (Parsed (VObj chat)) w1 in
  In ws (members_of name w1) /\
  outcome r = Ok tt /\
  forall c, attempts_to c (trace r) =
            if Set_has c (Set_add ws (members_of name w)) && is_open (readyState w c)
            then [obj [("type", str "broadcast");
                       ("message", own chat (lit "message"));
                       ("sender", if Nat.eqb c ws then str "You" else str "User");
                       ("channel", VStr name)]]
            else [].
Proof.
  intros Hjt Hjc Hct Hcc Hne Hnd Hsend. cbv zeta.
  assert (Hw1 : final (message ws (Parsed (VObj join)) w) = joined ws name w).
  { rewrite (message_run ws (VObj join) (str "join") w)
      by (cbn [get]; rewrite Hjt; reflexivity).
    eval_tags. cbv iota.
    rewrite (message_join_run ws join name w Hjc Hne (fun c _ => Hsend c)). reflexivity. }
  rewrite Hw1.
  destruct (joined_sockets ws name w) as [Hready Hthrows].
  assert (Hin : In ws (members_of name (joined ws name w))).
  { rewrite members_joined. apply Set_has_In. unfold Set_add.
    destruct (Set_has ws (members_of name w)) eqn:H; [exact H|].
    unfold Set_has. rewrite existsb_app. cbn [existsb]. rewrite Nat.eqb_refl.
    rewrite orb_true_r. reflexivity. }
  split; [exact Hin|].
  destruct (message_chat_run ws chat name (joined ws name w) Hct Hcc Hne Hin)
    as (_ & Hout & logs & Hquiet & Htrace).
  split; [exact Hout|].
  intros c. rewrite Htrace. cbn [attempts_to received_log].
  rewrite attempts_to_app, Hquiet, app_nil_r.
  rewrite attempts_chat by (rewrite members_joined; apply Set_add_NoDup; exact Hnd).
  rewrite reached_all by (intros x _; rewrite Hthrows; apply Hsend).
  rewrite members_joined, Hready. unfold chat_envelope. rewrite Hcc. reflexivity.
Qed.

End Composition.

(** ** The function kept in [ws.close] *)

Lemma Map_get_key n m s : Map_get n m = Some s -> In n (map fst m).
Proof.
  induction m as [|[k s'] rest IH]; [discriminate|].
  cbn [Map_get map fst]. destruct (str_eqb k n) eqn:Hk.
  - intros _. left. apply str_eqb_eq. exact Hk.
  - intros H. right. exact (IH H).
Qed.

Lemma Set_has_delete c ws s :
  Set_has c (Set_delete ws s) = Set_has c s && negb (Nat.eqb c ws).
Proof.
  destruct (Set_has c (Set_delete ws s)) eqn:H1.
  - apply Set_has_In, In_Set_delete in H1. destruct H1 as [Hin Hne].
    rewrite (proj2 (Set_has_In c s) Hin), (proj2 (Nat.eqb_neq c ws) Hne). reflexivity.
  - destruct (Set_has c s) eqn:H2; [|reflexivity].
    destruct (Nat.eqb c ws) eqn:H3; [reflexivity|].
    apply Set_has_In in H2. apply Nat.eqb_neq in H3.
    rewrite (proj2 (Set_has_In c (Set_delete ws s))) in H1; [discriminate|].
    apply In_Set_delete. split; assumption.
Qed.

Section Leaving.
Context {engine : Engine} {loop : EventLoop}.

Lemma leave_loop ws (ns : list jsstring) :
  forall u,
    NoDup ns ->
    (forall n, NoDup (members_of n u)) ->
    (forall c, sendThrows u c = false) ->
    exists u' t,
      forEach ns (fun channelName =>
        bind (read (fun w => Set_has ws (members_of channelName w))) (fun has =>
        if has then
          bind (modify (with_channels (Map_update channelName (Set_delete ws)))) (fun _ =>
          bind (members channelName) (fun clients =>
          forEach clients (fun client =>
            bind (client_is_open client) (fun open =>
            if open then
              send client (obj [("type", str "system");
                                ("message", str "A user has left the channel");
                                ("channel", VStr channelName)])
            else ret tt))))
        else ret tt)) u
      = (Ok tt, u', t) /\
      readyState u' = readyState u /\
      sendThrows u' = sendThrows u /\
      closeReplaced u' = closeReplaced u /\
      (forall n, In n ns -> members_of n u' = Set_delete ws (members_of n u)) /\
      (forall n, ~ In n ns -> members_of n u' = members_of n u) /\
      (forall c, attempts_to c t =
                 if is_open (readyState u c) && negb (Nat.eqb c ws)
                 then map left_notice
                        (filter (fun n => Set_has ws (members_of n u)
                                          && Set_has c (members_of n u)) ns)
                 else []).
Proof.
  set (body := fun channelName : jsstring => _).
  induction ns as [|n ns IH]; intros u Hns Hnd Hsend.
  { exists u, []. cbn [forEach]. repeat split; try (intros; contradiction).
    intros c. destruct (is_open (readyState u c) && negb (Nat.eqb c ws)); reflexivity. }
  inversion Hns as [|? ? Hn Hns']; subst.
  assert (Hstep : exists u1 t1,
    body n u = (Ok tt, u1, t1) /\
    readyState u1 = readyState u /\ sendThrows u1 = sendThrows u /\
    closeReplaced u1 = closeReplaced u /\
    members_of n u1 = Set_delete ws (members_of n u) /\
    (forall n', n' <> n -> members_of n' u1 = members_of n' u) /\
    (forall c, attempts_to c t1 =
               if is_open (readyState u c) && negb (Nat.eqb c ws)
                  && (Set_has ws (members_of n u) && Set_has c (members_of n u))
               then [left_notice n] else [])).
  { unfold body. unfold bind at 1. unfold read at 1.
    destruct (Set_has ws (members_of n u)) eqn:Hhas.
    - unfold bind at 1. unfold modify at 1.
      set (u1 := with_channels (Map_update n (Set_delete ws)) u).
      assert (Hm : members_of n u1 = Set_delete ws (members_of n u)).
      { unfold u1, members_of. cbn [with_channels channels]. rewrite Map_get_update.
        destruct (Map_get n (channels u)); reflexivity. }
      unfold bind at 1. unfold members at 1, read at 1. rewrite Hm.
      rewrite forEach_steady with
        (g := fun client => if is_open (readyState u client)
                            then [Sent client (left_notice n)] else []).
      2:{ intros c _. unfold bind, client_is_open, read. cbv beta iota.
          change (readyState u1 c) with (readyState u c).
          destruct (is_open (readyState u c)); [|reflexivity].
          unfold send. change (sendThrows u1 c) with (sendThrows u c).
          rewrite Hsend. reflexivity. }
      exists u1, (flat_map (fun client => if is_open (readyState u client)
                                          then [Sent client (left_notice n)] else [])
                           (Set_delete ws (members_of n u))).
      split; [reflexivity|]. repeat (split; [reflexivity|]). split; [exact Hm|]. split.
      + intros n' Hne. unfold u1, members_of. cbn [with_channels channels].
        rewrite Map_get_update_at. rewrite str_eqb_neq by congruence. reflexivity.
      + intros c.
        rewrite (attempts_each (fun client => is_open (readyState u client)))
          by (apply Set_delete_NoDup, Hnd).
        rewrite Set_has_delete.
        destruct (Set_has c (members_of n u)), (Nat.eqb c ws), (is_open (readyState u c));
          reflexivity.
    - exists u, []. unfold ret. repeat (split; [reflexivity|]). split.
      + symmetry. apply Set_delete_stranger. intros Hin. apply Set_has_In in Hin. congruence.
      + split; [reflexivity|]. intros c. cbn [andb]. rewrite andb_false_r. reflexivity. }
  destruct Hstep as (u1 & t1 & Hrun1 & Hr1 & Hs1 & Hc1 & Hm1 & Ho1 & Ha1).
  assert (Hnd1 : forall n', NoDup (members_of n' u1)).
  { intros n'. destruct (list_eq_dec N.eq_dec n' n) as [->|Hne].
    - rewrite Hm1. apply Set_delete_NoDup, Hnd.
    - rewrite (Ho1 n' Hne). apply Hnd. }
  destruct (IH u1 Hns' Hnd1 ltac:(intros c; rewrite Hs1; apply Hsend))
    as (u' & t & Hrun & Hr & Hs & Hc & Hin & Hout & Ha).
  exists u', (t1 ++ t). cbn [forEach]. unfold bind. rewrite Hrun1, Hrun.
  split; [reflexivity|]. split; [congruence|]. split; [congruence|]. split; [congruence|].
  split; [|split].
  - intros n' [<- | Hn'].
    + rewrite (Hout n Hn). exact Hm1.
    + rewrite (Hin n' Hn'). rewrite Ho1; [reflexivity|]. intros ->. exact (Hn Hn').
  - intros n' Hnot. rewrite Hout by (intros H; apply Hnot; right; exact H).
    apply Ho1. intros ->. apply Hnot. left. reflexivity.
  - intros c. rewrite attempts_to_app, Ha1, Ha, Hr1. cbn [filter].
    assert (Hsame : filter (fun n0 => Set_has ws (members_of n0 u1) && Set_has c (members_of n0 u1)) ns
                    = filter (fun n0 => Set_has ws (members_of n0 u) && Set_has c (members_of n0 u)) ns).
    { apply filter_ext_in. intros n' Hn'. rewrite Ho1; [reflexivity|].
      intros ->. exact (Hn Hn'). }
    rewrite Hsame.
    destruct (is_open (readyState u c) && negb (Nat.eqb c ws)); cbn [andb];
      [|reflexivity].
    destruct (Set_has ws (members_of n u) && Set_has c (members_of n u)); reflexivity.
Qed.

(** X15. The function that handleConnection stores in [ws.close], when it is
    called in a registry with distinct names and members and no send throws:
    it takes the connection out of every member set, as the close callback
    does, and for every channel the connection was a member of, in the order
    of the registry, it sends every remaining member whose socket is open
    one notification "A user has left the channel" that names the channel;
    nobody else is sent anything. *)
Theorem stored_close_notifies (ws : conn) (w : World) :
  distinct w ->
  (forall c, sendThrows w c = false) ->
  let r := handleConnection_close ws w in
  outcome r = Ok tt /\
  (forall n, members_of n (final r) = Set_delete ws (members_of n w)) /\
  (forall c, attempts_to c (trace r) =
             if is_open (readyState w c) && negb (Nat.eqb c ws)
             then map left_notice
                    (filter (fun n => Set_has ws (members_of n w)
                                      && Set_has c (members_of n w))
                            (map fst (channels w)))
             else []).
Proof.
  intros [Hkeys Hsets] Hsend. cbv zeta.
  assert (Hnd : forall n, NoDup (members_of n w)).
  { intros n. unfold members_of. destruct (Map_get n (channels w)) as [s|] eqn:Hget;
      [|constructor].
    clear Hkeys. induction Hsets as [|[k s'] rest Hs Hrest IH]; [discriminate|].
    cbn [Map_get] in Hget. destruct (str_eqb k n); [injection Hget as <-; exact Hs | exact (IH Hget)]. }
  destruct (leave_loop ws (map fst (channels w)) w Hkeys Hnd Hsend)
    as (u' & t & Hrun & _ & _ & _ & Hin & Hout & Ha).
  assert (Heq : handleConnection_close ws w
                = (Ok tt, u', ConsoleLog (lit "Client disconnected") :: t)).
  { unfold handleConnection_close. unfold bind at 1. unfold console_log, emit.
    unfold bind at 1. unfold read at 1. rewrite Hrun. reflexivity. }
  rewrite Heq. cbn [outcome final trace fst snd app].
  split; [reflexivity|]. split.
  - intros n. destruct (in_dec (list_eq_dec N.eq_dec) n (map fst (channels w))) as [Hk | Hk].
    + apply Hin. exact Hk.
    + rewrite (Hout n Hk). unfold members_of.
      destruct (Map_get n (channels w)) as [s|] eqn:Hget; [|reflexivity].
      exfalso. exact (Hk (Map_get_key n _ s Hget)).
  - intros c. cbn [attempts_to]. apply Ha.
Qed.

End Leaving.

(* ================================================================== *)
(** * Further facts on the reassembler *)
(* ================================================================== *)

(** ** Keys and sessions *)

Lemma same_key_shared (a b c : value) :
  Client.same_key a b = true -> Client.same_key a c = true -> Client.same_key b c = true.
Proof.
  destruct a, b; cbn [Client.same_key]; try discriminate; destruct c; try discriminate;
    try reflexivity.
  - intros H1 H2. apply Bool.eqb_prop in H1, H2. subst. apply Bool.eqb_reflx.
  - intros H1 H2. apply Qeq_bool_iff in H1, H2. apply Qeq_bool_iff.
    rewrite <- H1. exact H2.
  - intros H1 H2. apply str_eqb_eq in H1, H2. subst. apply str_eqb_refl.
Qed.

Lemma messageId_key (id : value) :
  string_or_absent id ->
  Client.same_key (Client.messageId_of id) (Client.messageId_of id) = true.
Proof.
  intros [-> | [s ->]]; [reflexivity|].
  unfold Client.messageId_of. destruct s; cbn; [reflexivity|].
  rewrite N.eqb_refl. apply str_eqb_refl.
Qed.

Lemma client_Map_get_set_same k s m :
  Client.same_key k k = true -> Client.Map_get k (Client.Map_set k s m) = Some s.
Proof.
  intros Hk. induction m as [|[k' s'] rest IH]; cbn [Client.Map_set Client.Map_get].
  - rewrite Hk. reflexivity.
  - destruct (Client.same_key k' k) eqn:H; cbn [Client.Map_get]; rewrite H;
      [reflexivity | exact IH].
Qed.

Lemma client_Map_get_set_other k k' s m :
  Client.same_key k k' = false ->
  Client.Map_get k' (Client.Map_set k s m) = Client.Map_get k' m.
Proof.
  intros Hk. induction m as [|[e se] rest IH]; cbn [Client.Map_set Client.Map_get].
  - rewrite Hk. reflexivity.
  - destruct (Client.same_key e k) eqn:He; cbn [Client.Map_get].
    + destruct (Client.same_key e k') eqn:He'; [|reflexivity].
      rewrite (same_key_shared e k k' He He') in Hk. discriminate.
    + destruct (Client.same_key e k'); [reflexivity | exact IH].
Qed.

Lemma client_Map_get_delete_other k k' m :
  Client.same_key k k' = false ->
  Client.Map_get k' (Client.Map_delete k m) = Client.Map_get k' m.
Proof.
  intros Hk. unfold Client.Map_delete.
  induction m as [|[e se] rest IH]; [reflexivity|].
  cbn [filter fst Client.Map_get].
  destruct (Client.same_key e k) eqn:He; cbn [negb Client.Map_get].
  - destruct (Client.same_key e k') eqn:He'; [|exact IH].
    rewrite (same_key_shared e k k' He He') in Hk. discriminate.
  - destruct (Client.same_key e k'); [reflexivity | exact IH].
Qed.

(** ** Slots *)

Lemma store_at_next (x : value) (done rest : list (option value)) (y : option value) :
  Client.store_at (List.length done) x (done ++ y :: rest) = done ++ Some x :: rest.
Proof.
  induction done as [|d done IH]; [reflexivity|].
  cbn [List.length app Client.store_at]. rewrite IH. reflexivity.
Qed.

Lemma store_at_strings (x : value) (done : list jsstring) (rest : list (option value))
    (y : option value) :
  Client.store_at (List.length done) x (map (fun p => Some (VStr p)) done ++ y :: rest)
  = map (fun p => Some (VStr p)) done ++ Some x :: rest.
Proof.
  rewrite <- (length_map (fun p => Some (VStr p)) done). apply store_at_next.
Qed.

Lemma array_length_ok (n : Z) :
  (0 <= n < 2 ^ 32)%Z -> Client.is_array_length (inject_Z n) = true.
Proof.
  intros H. unfold Client.is_array_length. rewrite Qfloor_Z.
  rewrite (proj2 (Qeq_bool_iff _ _) (Qeq_refl _)).
  rewrite (proj2 (Z.leb_le 0 n)) by lia. rewrite (proj2 (Z.ltb_lt n (2 ^ 32))) by lia.
  reflexivity.
Qed.

(** ** Array indices *)

Lemma latin_lit (s : string) : latin (lit s) = Some s.
Proof.
  unfold lit. induction s as [|a s IH]; [reflexivity|].
  cbn [list_ascii_of_string map latin].
  rewrite (proj2 (N.ltb_lt _ _) (N_ascii_bounded a)).
  rewrite IH, ascii_N_embedding. reflexivity.
Qed.

Lemma to_uint_not_nil (n : N) : N.to_uint n <> Decimal.Nil.
Proof.
  destruct n as [|p]; [discriminate|].
  cbn [N.to_uint]. intros H.
  pose proof (DecimalPos.Unsigned.of_to p) as Hp. rewrite H in Hp. discriminate.
Qed.

Lemma decimal_of_N (n : N) :
  decimal (Z.of_N n) = lit (DecimalString.NilZero.string_of_uint (N.to_uint n)).
Proof. destruct n; reflexivity. Qed.

(** The decimal digits of an integer from 0 to 2^32 - 2 are the key of the
    element at that index. *)
Lemma array_index_decimal (n : N) :
  (n < 2 ^ 32 - 1)%N -> array_index (decimal (Z.of_N n)) = Some (N.to_nat n).
Proof.
  intros Hn. unfold array_index. rewrite decimal_of_N, latin_lit.
  rewrite DecimalString.NilZero.usu by apply to_uint_not_nil.
  cbv zeta. rewrite DecimalN.Unsigned.of_to. rewrite decimal_of_N.
  rewrite str_eqb_refl. rewrite (proj2 (N.ltb_lt _ _) Hn). reflexivity.
Qed.

Lemma index_of_nat (i : nat) :
  (Z.of_nat i < 2 ^ 32 - 1)%Z -> array_index (decimal (Z.of_nat i)) = Some i.
Proof.
  intros Hi. rewrite <- (nat_N_Z i). rewrite array_index_decimal by lia.
  rewrite Nat2N.id. reflexivity.
Qed.

Section Reassembly.
Context {engine : Engine}.

Lemma String_of_integer (z : Z) :
  (Z.abs z <= 2 ^ 53)%Z -> String_of (num z) = Ok (decimal z).
Proof.
  intros Hz. cbn [String_of num]. unfold Number_toString. rewrite Qfloor_Z.
  rewrite (proj2 (Qeq_bool_iff _ _) (Qeq_refl _)).
  rewrite (proj2 (Z.leb_le _ _)) by exact Hz. reflexivity.
Qed.

(** Writing a chunk under the number of an element. *)
Lemma array_assign_index (a : Client.JsArray) (i : nat) (x : value) :
  (Z.of_nat i < 2 ^ 32 - 1)%Z ->
  Client.array_assign a (num (Z.of_nat i)) x
  = Ok {| Client.slots := Client.store_at i x (Client.slots a);
          Client.named := Client.named a |}.
Proof.
  intros Hi. unfold Client.array_assign.
  rewrite String_of_integer by lia. rewrite index_of_nat by exact Hi. reflexivity.
Qed.

Lemma handleChunkedStart_run (id : value) (n : Z) (s : Client.State) :
  (0 <= n < 2 ^ 32)%Z ->
  Client.handleChunkedStart (VObj (start_frame id n)) s
  = (Ok tt,
     Client.with_chunkedMessages
       (Client.Map_set (Client.messageId_of id)
          {| Client.chunks := array_of [] (repeat (Some (str "")) (Z.to_nat n));
             Client.received := 0%Z;
             Client.total := num n |}) s,
     [Client.ConsoleLog (lit "Starting chunked message reception: ")]).
Proof.
  intros Hn. unfold Client.handleChunkedStart.
  change (get (VObj (start_frame id n)) "id") with (Ok id).
  change (get (VObj (start_frame id n)) "payload") with (Ok (obj [("totalChunks", num n)])).
  unfold bind at 1. unfold lift at 1. unfold bind at 1. unfold lift at 1.
  change (get (obj [("totalChunks", num n)]) "totalChunks") with (Ok (num n)).
  unfold bind at 1. unfold lift at 1.
  unfold bind at 1. unfold lift at 1.
  unfold Client.new_Array_fill, num. rewrite (array_length_ok n Hn), Qfloor_Z.
  reflexivity.
Qed.

Lemma handleChunk_run (id : value) (i : nat) (p : jsstring) (session : Client.ChunkSession)
    (text : jsstring) (s : Client.State) :
  (Z.of_nat i < 2 ^ 32 - 1)%Z ->
  String_of (Client.total session) = Ok text ->
  Client.Map_get (Client.messageId_of id) (Client.chunkedMessages s) = Some session ->
  Client.handleChunk (VObj (chunk_frame id i p)) s
  = (Ok tt,
     Client.with_chunkedMessages
       (Client.Map_set (Client.messageId_of id)
          {| Client.chunks :=
               {| Client.slots := Client.store_at i (VStr p)
                                    (Client.slots (Client.chunks session));
                  Client.named := Client.named (Client.chunks session) |};
             Client.received := (Client.received session + 1)%Z;
             Client.total := Client.total session |}) s,
     [Client.ConsoleLog (lit "Received chunk ")]).
Proof.
  intros Hidx Htotal Hget.
  unfold Client.handleChunk.
  unfold bind at 1. unfold lift at 1.
  change (get (VObj (chunk_frame id i p)) "id") with (Ok id).
  unfold bind at 1. unfold read at 1. rewrite Hget.
  unfold bind, lift, modify, Client.console_log, emit.
  change (get (VObj (chunk_frame id i p)) "payload")
    with (Ok (obj [("chunkIndex", num (Z.of_nat i)); ("chunk", VStr p)])).
  assert (H1 : truthy (obj [("chunkIndex", num (Z.of_nat i)); ("chunk", VStr p)]) = true)
    by reflexivity.
  assert (H2 : get (obj [("chunkIndex", num (Z.of_nat i)); ("chunk", VStr p)]) "chunkIndex"
               = Ok (num (Z.of_nat i))) by reflexivity.
  assert (H3 : get (obj [("chunkIndex", num (Z.of_nat i)); ("chunk", VStr p)]) "chunk"
               = Ok (VStr p)) by reflexivity.
  cbv beta iota. rewrite H1, H2, H3.
  rewrite (array_assign_index _ i (VStr p) Hidx). rewrite Htotal. reflexivity.
Qed.

Lemma after_chunks_in_order (id : value) (ps : list jsstring) :
  string_or_absent id ->
  forall (done : list jsstring) (blank : list (option value)) (r : Z) (tot : value)
         (text : jsstring) (s : Client.State),
    String_of tot = Ok text ->
    (Z.of_nat (List.length done + List.length ps) < 2 ^ 32)%Z ->
    List.length blank = List.length ps ->
    Client.Map_get (Client.messageId_of id) (Client.chunkedMessages s)
    = Some {| Client.chunks := array_of done blank;
              Client.received := r; Client.total := tot |} ->
    let s' := after_chunks (chunk_frames id (List.length done) ps) s in
    Client.Map_get (Client.messageId_of id) (Client.chunkedMessages s')
    = Some {| Client.chunks := array_of (done ++ ps) [];
              Client.received := (r + Z.of_nat (List.length ps))%Z; Client.total := tot |} /\
    Client.store s' = Client.store s /\
    Client.listeners s' = Client.listeners s /\
    forall k', Client.same_key (Client.messageId_of id) k' = false ->
               Client.Map_get k' (Client.chunkedMessages s')
               = Client.Map_get k' (Client.chunkedMessages s).
Proof.
  intros Hid. induction ps as [|p ps IH];
    intros done blank r tot text s Htot Hbound Hlen Hget; cbv zeta.
  - destruct blank; [|discriminate]. cbn [chunk_frames after_chunks List.length].
    rewrite !app_nil_r, Z.add_0_r in *.
    split; [exact Hget|]. split; [reflexivity|]. split; [reflexivity|]. reflexivity.
  - destruct blank as [|b blank]; [discriminate|]. injection Hlen as Hlen.
    cbn [chunk_frames after_chunks]. cbn [List.length] in Hbound.
    rewrite (handleChunk_run id (List.length done) p
               {| Client.chunks := array_of done (b :: blank);
                  Client.received := r; Client.total := tot |}
               text s ltac:(lia) Htot Hget).
    cbn [final fst snd Client.chunks Client.received Client.total array_of
         Client.slots Client.named].
    rewrite (store_at_strings (VStr p) done blank b).
    replace (S (List.length done)) with (List.length (done ++ [p]))
      by (rewrite length_app; cbn; lia).
    specialize (IH (done ++ [p]) blank (r + 1)%Z tot text
                  (Client.with_chunkedMessages
                     (Client.Map_set (Client.messageId_of id)
                        {| Client.chunks :=
                             {| Client.slots := map (fun p => Some (VStr p)) done
                                                ++ Some (VStr p) :: blank;
                                Client.named := [] |};
                           Client.received := (r + 1)%Z; Client.total := tot |}) s)
                  Htot ltac:(rewrite length_app; cbn [List.length]; lia) Hlen).
    cbv zeta in IH. destruct IH as (Hs & Hst & Hl & Hother).
    { cbn [Client.with_chunkedMessages Client.chunkedMessages].
      rewrite client_Map_get_set_same by (apply messageId_key; exact Hid).
      unfold array_of. rewrite map_app, <- app_assoc. reflexivity. }
    rewrite Hs, Hst, Hl. rewrite <- app_assoc. cbn [app List.length].
    split; [f_equal; f_equal; lia|]. split; [reflexivity|]. split; [reflexivity|].
    intros k' Hk'. rewrite (Hother k' Hk').
    cbn [Client.with_chunkedMessages Client.chunkedMessages].
    apply client_Map_get_set_other. exact Hk'.
Qed.

End Reassembly.

Section Delivery.
Context {engine : Engine}.

(** ** The store's listeners *)

Lemma notify_loop (ls : list Client.listener) (s : Client.State) :
  forEach ls (fun l : Client.listener =>
    bind (read Client.store) (fun st =>
      bind (emit (Client.Notified st)) (fun _ =>
        if l st then throw ListenerError else ret tt))) s
  = (if existsb (fun l => l (Client.store s)) ls then Throw ListenerError else Ok tt,
     s, notified ls (Client.store s)).
Proof.
  induction ls as [|l ls IH]; [reflexivity|].
  cbn [forEach existsb notified]. unfold bind at 1.
  unfold bind at 1. unfold read at 1. unfold bind at 1. unfold emit at 1.
  destruct (l (Client.store s)) eqn:Hl.
  - reflexivity.
  - unfold ret at 1. cbn [app]. rewrite IH. cbn [orb]. reflexivity.
Qed.

Lemma notify_run (s : Client.State) :
  Client.notify s
  = (if existsb (fun l => l (Client.store s)) (Client.listeners s)
     then Throw ListenerError else Ok tt,
     s, notified (Client.listeners s) (Client.store s)).
Proof.
  unfold Client.notify. unfold bind at 1. unfold read at 1.
  rewrite notify_loop. reflexivity.
Qed.

Lemma setDiagram_run (d : value) (s : Client.State) :
  Client.setDiagram d s
  = (if existsb (fun l => l (with_diagram d (Client.store s))) (Client.listeners s)
     then Throw ListenerError else Ok tt,
     Client.with_store (with_diagram d) s,
     notified (Client.listeners s) (with_diagram d (Client.store s))).
Proof.
  unfold Client.setDiagram. unfold bind at 1. unfold modify at 1.
  rewrite notify_run. reflexivity.
Qed.

Lemma setDirectoryTree_run (tree : value) (s : Client.State) :
  Client.setDirectoryTree tree s
  = (if existsb (fun l => l (with_directory tree (Client.store s))) (Client.listeners s)
     then Throw ListenerError else Ok tt,
     Client.with_store (with_directory tree) s,
     notified (Client.listeners s) (with_directory tree (Client.store s))).
Proof.
  unfold Client.setDirectoryTree. unfold bind at 1. unfold modify at 1.
  rewrite notify_run. reflexivity.
Qed.

(** The run of a delivery whose payload is an object with a diagram. *)
Lemma handleUmlPayload_run (message : value) (pf : list (jsstring * value))
    (s : Client.State) :
  get message "payload" = Ok (VObj pf) ->
  truthy (own pf (lit "diagram")) = true ->
  let d := own pf (lit "diagram") in
  let dir := own pf (lit "directory") in
  let ls := Client.listeners s in
  let st1 := with_diagram d (Client.store s) in
  let st2 := with_directory dir st1 in
  Client.handleUmlPayload message s
  = if existsb (fun l => l st1) ls then
      (Throw ListenerError, Client.with_store (with_diagram d) s, notified ls st1)
    else if truthy dir then
      if existsb (fun l => l st2) ls then
        (Throw ListenerError,
         Client.with_store (with_directory dir) (Client.with_store (with_diagram d) s),
         notified ls st1 ++ notified ls st2)
      else
        (Ok tt,
         Client.with_store (with_directory dir) (Client.with_store (with_diagram d) s),
         notified ls st1 ++ notified ls st2
         ++ [Client.ConsoleLog (lit "UML diagram loaded:")])
    else
      (Ok tt, Client.with_store (with_diagram d) s,
       notified ls st1 ++ [Client.ConsoleLog (lit "UML diagram loaded:")]).
Proof.
  intros Hp Hd. cbv zeta. unfold Client.handleUmlPayload.
  rewrite Hp. unfold bind at 1. unfold lift at 1. cbn [truthy].
  change (get (VObj pf) "diagram") with (Ok (own pf (lit "diagram"))).
  unfold bind at 1. unfold lift at 1. rewrite Hd.
  unfold bind at 1. rewrite setDiagram_run.
  destruct (existsb (fun l => l (with_diagram (own pf (lit "diagram")) (Client.store s)))
                    (Client.listeners s)); [reflexivity|].
  change (get (VObj pf) "directory") with (Ok (own pf (lit "directory"))).
  unfold bind at 1. unfold lift at 1.
  destruct (truthy (own pf (lit "directory"))).
  - unfold bind at 1. rewrite setDirectoryTree_run.
    cbn [Client.with_store Client.store Client.listeners].
    match goal with |- context [existsb ?f (Client.listeners s)] =>
      destruct (existsb f (Client.listeners s)) end.
    + reflexivity.
    + unfold Client.console_log, emit. cbn [app]. reflexivity.
  - unfold bind, ret, Client.console_log, emit. cbn [app]. reflexivity.
Qed.

(** A delivery reads its payload only. *)
Lemma handleUmlPayload_payload (m m' : value) :
  get m "payload" = get m' "payload" ->
  Client.handleUmlPayload m = Client.handleUmlPayload m'.
Proof. intros H. unfold Client.handleUmlPayload. rewrite H. reflexivity. Qed.

(** ** The sessions under other keys *)

Lemma keeps_notify (P : Client.State -> Prop) : keeps P Client.notify.
Proof.
  intros s H. rewrite notify_run. exact H.
Qed.

Lemma keeps_handleUmlPayload (P : Client.State -> Prop) (message : value) :
  (forall f, stable_under (Client.with_store f) P) ->
  keeps P (Client.handleUmlPayload message).
Proof.
  intros Hst. unfold Client.handleUmlPayload, Client.setDiagram, Client.setDirectoryTree,
    Client.console_log.
  repeat first [ apply keeps_notify | apply keeps_modify; apply Hst | keeps_step ].
Qed.

End Delivery.

Section DeliveryFacts.
Context {engine : Engine}.

Lemma notified_quiet (ls : list Client.listener) (st : Client.AppState) :
  existsb (fun l => l st) ls = false ->
  notified ls st = map (fun _ => Client.Notified st) ls.
Proof.
  induction ls as [|l ls IH]; [reflexivity|]. cbn [existsb notified map].
  intros H. apply orb_false_iff in H. destruct H as [Hl Hls]. rewrite Hl, (IH Hls).
  reflexivity.
Qed.

Lemma quiet_listeners (ls : list Client.listener) (st : Client.AppState) :
  (forall l, In l ls -> l st = false) -> existsb (fun l => l st) ls = false.
Proof.
  intros H. induction ls as [|l ls IH]; [reflexivity|]. cbn [existsb].
  rewrite (H l (or_introl eq_refl)). apply IH. intros l' Hl'. apply H. right. exact Hl'.
Qed.

(** X16. A uml:payload frame whose payload is an object, at a store whose
    listeners do not throw: without a truthy [diagram] the frame has no
    effect at all, whatever else the payload carries, a directory included;
    with one, the diagram is stored, the two sets of selected and dimmed
    nodes are emptied, the directory is stored when it is truthy, every
    listener is called once with the store after the diagram and once more
    with the store after the directory, and the sessions are left alone. *)
Theorem diagram_delivery (message : value) (pf : list (jsstring * value))
    (s : Client.State) :
  get message "payload" = Ok (VObj pf) ->
  (forall l st, In l (Client.listeners s) -> l st = false) ->
  let d := own pf (lit "diagram") in
  let dir := own pf (lit "directory") in
  let st1 := with_diagram d (Client.store s) in
  let st2 := with_directory dir st1 in
  let r := Client.handleUmlPayload message s in
  outcome r = Ok tt /\
  Client.chunkedMessages (final r) = Client.chunkedMessages s /\
  Client.listeners (final r) = Client.listeners s /\
  (truthy d = false -> final r = s /\ trace r = []) /\
  (truthy d = true -> truthy dir = false ->
   Client.store (final r) = st1 /\
   trace r = map (fun _ => Client.Notified st1) (Client.listeners s)
             ++ [Client.ConsoleLog (lit "UML diagram loaded:")]) /\
  (truthy d = true -> truthy dir = true ->
   Client.store (final r) = st2 /\
   trace r = map (fun _ => Client.Notified st1) (Client.listeners s)
             ++ map (fun _ => Client.Notified st2) (Client.listeners s)
             ++ [Client.ConsoleLog (lit "UML diagram loaded:")]).
Proof.
  intros Hp Hquiet. cbv zeta.
  destruct (truthy (own pf (lit "diagram"))) eqn:Hd.
  - rewrite (handleUmlPayload_run message pf s Hp Hd). cbv zeta.
    pose proof (quiet_listeners (Client.listeners s)
                  (with_diagram (own pf (lit "diagram")) (Client.store s))
                  (fun l Hl => Hquiet l _ Hl)) as H1.
    pose proof (quiet_listeners (Client.listeners s)
                  (with_directory (own pf (lit "directory"))
                     (with_diagram (own pf (lit "diagram")) (Client.store s)))
                  (fun l Hl => Hquiet l _ Hl)) as H2.
    rewrite H1, H2.
    rewrite (notified_quiet _ _ H1), (notified_quiet _ _ H2).
    destruct (truthy (own pf (lit "directory")));
      cbn [outcome final trace fst snd Client.with_store Client.chunkedMessages
           Client.listeners Client.store];
      (split; [reflexivity|]); (split; [reflexivity|]); (split; [reflexivity|]);
      (split; [discriminate|]); split; intros _ H; try discriminate H;
      split; reflexivity.
  - assert (Hrun : Client.handleUmlPayload message s = (Ok tt, s, [])).
    { unfold Client.handleUmlPayload. rewrite Hp. unfold bind at 1. unfold lift at 1.
      cbn [truthy]. change (get (VObj pf) "diagram") with (Ok (own pf (lit "diagram"))).
      unfold bind at 1. unfold lift at 1. rewrite Hd. reflexivity. }
    rewrite Hrun. cbn [outcome final trace fst snd].
    split; [reflexivity|]. split; [reflexivity|]. split; [reflexivity|].
    split; [intros _; split; reflexivity|]. split; intros H; discriminate H.
Qed.

(** X17. A uml:payload frame with a diagram, at a store where a listener
    throws when it is called with the new diagram: the exception leaves the
    handler; the diagram is stored all the same, the directory of the same
    payload is not, the listeners after the one that threw are not called,
    and nothing is logged. *)
Theorem listener_failure_stops_delivery (message : value) (pf : list (jsstring * value))
    (s : Client.State) (before after : list Client.listener) (l : Client.listener) :
  get message "payload" = Ok (VObj pf) ->
  truthy (own pf (lit "diagram")) = true ->
  let st1 := with_diagram (own pf (lit "diagram")) (Client.store s) in
  Client.listeners s = before ++ l :: after ->
  (forall l', In l' before -> l' st1 = false) ->
  l st1 = true ->
  let r := Client.handleUmlPayload message s in
  outcome r = Throw ListenerError /\
  Client.store (final r) = st1 /\
  Client.directoryTree (Client.store (final r)) = Client.directoryTree (Client.store s) /\
  trace r = map (fun _ => Client.Notified st1) (before ++ [l]).
Proof.
  intros Hp Hd st1 Hls Hbefore Hl. cbv zeta.
  rewrite (handleUmlPayload_run message pf s Hp Hd). cbv zeta. fold st1.
  assert (Hex : existsb (fun l0 => l0 st1) (Client.listeners s) = true).
  { rewrite Hls, existsb_app. cbn [existsb]. rewrite Hl. apply orb_true_r. }
  assert (Hn : notified (Client.listeners s) st1
               = map (fun _ => Client.Notified st1) (before ++ [l])).
  { rewrite Hls. clear Hls Hex. induction before as [|b before IH].
    - cbn [app notified map]. rewrite Hl. reflexivity.
    - cbn [app notified map]. rewrite (Hbefore b (or_introl eq_refl)).
      rewrite IH; [reflexivity|]. intros l' Hl'. apply Hbefore. right. exact Hl'. }
  rewrite Hex, Hn. cbn [outcome final trace fst snd Client.with_store Client.store].
  split; [reflexivity|]. split; [reflexivity|]. split; reflexivity.
Qed.

(** The run of a completion frame that finds a session whose chunks join
    into a text. *)
Lemma handleChunkedComplete_run (fields : list (jsstring * value)) (s : Client.State)
    (session : Client.ChunkSession) (text : jsstring) :
  let key := Client.messageId_of (own fields (lit "id")) in
  Client.Map_get key (Client.chunkedMessages s) = Some session ->
  Client.join_empty (Client.chunks session) = Ok text ->
  Client.handleChunkedComplete (VObj fields) s
  = match json_parse text with
    | None =>
        (Ok tt, Client.with_chunkedMessages (Client.Map_delete key) s,
         [Client.ConsoleError (lit "Error parsing chunked payload:");
          Client.ConsoleLog (lit "Chunked message completed")])
    | Some v =>
        let r' := Client.handleUmlPayload (delivery_of fields v) s in
        (Ok tt, Client.with_chunkedMessages (Client.Map_delete key) (final r'),
         trace r'
         ++ match outcome r' with
            | Ok _ => []
            | Throw _ => [Client.ConsoleError (lit "Error parsing chunked payload:")]
            end
         ++ [Client.ConsoleLog (lit "Chunked message completed")])
    end.
Proof.
  cbv zeta. intros Hsome Hjoin. unfold Client.handleChunkedComplete.
  unfold bind at 1. unfold lift at 1. cbn [get].
  unfold bind at 1. unfold read at 1. rewrite Hsome.
  unfold bind at 1. unfold lift at 1. rewrite Hjoin.
  unfold bind at 1. unfold try_catch. unfold bind at 1. unfold Client.JSON_parse.
  destruct (json_parse text) as [v|].
  - unfold ret at 1. fold (delivery_of fields v).
    destruct (Client.handleUmlPayload (delivery_of fields v) s) as [[[[]|e] s1] t1];
      cbn [outcome final trace fst snd app];
      unfold bind, Client.console_error, Client.console_log, emit, modify;
      cbn [app]; rewrite ?app_nil_r; try reflexivity.
    rewrite <- app_assoc. reflexivity.
  - unfold throw at 1.
    unfold bind, Client.console_error, Client.console_log, emit, modify. reflexivity.
Qed.

(** X18. A completion frame that finds a session whose chunks join into a
    text (as they do when every chunk was written to an element of the array
    and is a string) hands, when the text parses, the parsed value to the handler of a direct uml:payload
    frame: the store ends as that handler leaves it, whatever the session
    says of the chunks received and expected; the frame returns normally,
    an exception of the delivery, a throwing listener included, is logged as
    an error of parsing the chunked payload, and the session is removed. *)
Theorem complete_delivers_the_parsed_text (fields : list (jsstring * value))
    (s : Client.State) (session : Client.ChunkSession) (text : jsstring) (v : value)
    (direct : value) :
  let key := Client.messageId_of (own fields (lit "id")) in
  Client.Map_get key (Client.chunkedMessages s) = Some session ->
  Client.join_empty (Client.chunks session) = Ok text ->
  json_parse text = Some v ->
  get direct "payload" = Ok v ->
  let r := Client.handleChunkedComplete (VObj fields) s in
  let r' := Client.handleUmlPayload direct s in
  outcome r = Ok tt /\
  Client.store (final r) = Client.store (final r') /\
  Client.Map_get key (Client.chunkedMessages (final r)) = None /\
  trace r = trace r'
            ++ match outcome r' with
               | Ok _ => []
               | Throw _ => [Client.ConsoleError (lit "Error parsing chunked payload:")]
               end
            ++ [Client.ConsoleLog (lit "Chunked message completed")].
Proof.
  cbv zeta. intros Hsome Hjoin Hparse Hdirect.
  rewrite (handleChunkedComplete_run fields s session text Hsome Hjoin). rewrite Hparse.
  cbv zeta.
  assert (Hsame : Client.handleUmlPayload (delivery_of fields v)
                  = Client.handleUmlPayload direct).
  { apply handleUmlPayload_payload. rewrite Hdirect. unfold delivery_of.
    cbn [Client.spread_with_payload get]. rewrite own_set_field_same. reflexivity. }
  rewrite Hsame. cbn [outcome final trace fst snd Client.with_chunkedMessages Client.store
                      Client.chunkedMessages].
  split; [reflexivity|]. split; [reflexivity|].
  split; [apply client_Map_get_delete | reflexivity].
Qed.

(** X19. A completion frame whose session joins into a text that is no
    JSON: the store is as before, no listener is called, the error is logged
    and the session is removed, so the chunks are lost. *)
Theorem unparseable_text_is_dropped (fields : list (jsstring * value))
    (s : Client.State) (session : Client.ChunkSession) (text : jsstring) :
  let key := Client.messageId_of (own fields (lit "id")) in
  Client.Map_get key (Client.chunkedMessages s) = Some session ->
  Client.join_empty (Client.chunks session) = Ok text ->
  json_parse text = None ->
  let r := Client.handleChunkedComplete (VObj fields) s in
  outcome r = Ok tt /\
  Client.store (final r) = Client.store s /\
  Client.listeners (final r) = Client.listeners s /\
  trace r = [Client.ConsoleError (lit "Error parsing chunked payload:");
             Client.ConsoleLog (lit "Chunked message completed")] /\
  Client.Map_get key (Client.chunkedMessages (final r)) = None.
Proof.
  cbv zeta. intros Hsome Hjoin Hparse.
  rewrite (handleChunkedComplete_run fields s session text Hsome Hjoin). rewrite Hparse.
  cbn [outcome final trace fst snd Client.with_chunkedMessages Client.store
       Client.listeners Client.chunkedMessages].
  split; [reflexivity|]. split; [reflexivity|]. split; [reflexivity|].
  split; [reflexivity|].
  apply client_Map_get_delete.
Qed.

End DeliveryFacts.

Section Blindness.
Context {engine : Engine}.

Lemma blind_ret {A} (a : A) : session_blind (ret a : Client.C A).
Proof. intros s s' H. repeat split; apply H. Qed.

Lemma blind_lift {A} (r : result A) : session_blind (lift r : Client.C A).
Proof. intros s s' H. repeat split; apply H. Qed.

Lemma blind_emit (e : Client.effect) : session_blind (emit e : Client.C unit).
Proof. intros s s' H. repeat split; apply H. Qed.

Lemma blind_modify_store (f : Client.AppState -> Client.AppState) :
  session_blind (modify (Client.with_store f)).
Proof.
  intros s s' [Hst Hls]. unfold modify, same_store.
  cbn [outcome trace final fst snd Client.with_store Client.store Client.listeners].
  rewrite Hst, Hls. repeat split.
Qed.

Lemma blind_bind {A B} (m : Client.C A) (f : A -> Client.C B) :
  session_blind m -> (forall a, session_blind (f a)) -> session_blind (bind m f).
Proof.
  intros Hm Hf s s' H. unfold bind. destruct (Hm s s' H) as (Ho & Ht & Hs).
  destruct (m s) as [[r1 s1] t1], (m s') as [[r1' s1'] t1'].
  cbn [outcome trace final fst snd] in *. subst r1' t1'.
  destruct r1 as [a|e]; [|repeat split; apply Hs].
  destruct (Hf a s1 s1' Hs) as (Ho2 & Ht2 & Hs2).
  destruct (f a s1) as [[r2 s2] t2], (f a s1') as [[r2' s2'] t2'].
  cbn [outcome trace final fst snd] in *. subst r2' t2'. repeat split; apply Hs2.
Qed.

Lemma blind_notify : session_blind Client.notify.
Proof.
  intros s s' [Hst Hls]. rewrite !notify_run.
  cbn [outcome trace final fst snd]. rewrite Hst, Hls. repeat split; assumption.
Qed.

Lemma blind_handleUmlPayload (message : value) :
  session_blind (Client.handleUmlPayload message).
Proof.
  unfold Client.handleUmlPayload, Client.setDiagram, Client.setDirectoryTree,
    Client.console_log.
  repeat first
    [ apply blind_notify | apply blind_modify_store | apply blind_ret | apply blind_lift
    | apply blind_emit | apply blind_bind; [|intros ?]
    | match goal with |- session_blind (if ?b then _ else _) => destruct b end ].
Qed.

Lemma pieces_count (text : jsstring) :
  List.length (pieces text)
  = Z.to_nat (Math_ceil_div (Z.of_nat (List.length text)) 524288).
Proof.
  unfold pieces, chunk_indices. rewrite !length_map, length_seq. reflexivity.
Qed.

Lemma notifications_app (t1 t2 : list Client.effect) :
  notifications (t1 ++ t2) = notifications t1 ++ notifications t2.
Proof.
  induction t1 as [|e t1 IH]; [reflexivity|].
  destruct e; cbn [app notifications]; rewrite IH; reflexivity.
Qed.

(** The session after a start frame and the chunk frames of [ps] in order. *)
Lemma session_after_chunks (id : value) (ps : list jsstring) (s : Client.State) :
  string_or_absent id ->
  (Z.of_nat (List.length ps) < 2 ^ 32)%Z ->
  let n := Z.of_nat (List.length ps) in
  let s1 := final (Client.handleChunkedStart (VObj (start_frame id n)) s) in
  let s2 := after_chunks (chunk_frames id 0 ps) s1 in
  Client.Map_get (Client.messageId_of id) (Client.chunkedMessages s2)
  = Some {| Client.chunks := array_of ps [];
            Client.received := n; Client.total := num n |} /\
  Client.store s2 = Client.store s /\
  Client.listeners s2 = Client.listeners s /\
  forall k', Client.same_key (Client.messageId_of id) k' = false ->
             Client.Map_get k' (Client.chunkedMessages s2)
             = Client.Map_get k' (Client.chunkedMessages s).
Proof.
  intros Hid Hn. cbv zeta.
  rewrite (handleChunkedStart_run id (Z.of_nat (List.length ps)) s) by lia.
  cbn [final fst snd]. rewrite Nat2Z.id.
  destruct (after_chunks_in_order id ps Hid [] (repeat (Some (str "")) (List.length ps))
              0%Z (num (Z.of_nat (List.length ps)))
              (Number_toString (inject_Z (Z.of_nat (List.length ps))))
              (Client.with_chunkedMessages
                 (Client.Map_set (Client.messageId_of id)
                    {| Client.chunks := array_of [] (repeat (Some (str "")) (List.length ps));
                       Client.received := 0%Z;
                       Client.total := num (Z.of_nat (List.length ps)) |}) s))
    as (Hs & Hst & Hl & Hother).
  - reflexivity.
  - cbn [List.length Nat.add]. exact Hn.
  - apply repeat_length.
  - cbn [Client.with_chunkedMessages Client.chunkedMessages map app].
    apply client_Map_get_set_same. apply messageId_key. exact Hid.
  - cbn [List.length app] in *. rewrite Hs, Hst, Hl. cbn [Z.add].
    split; [reflexivity|]. split; [reflexivity|]. split; [reflexivity|].
    intros k' Hk'. rewrite (Hother k' Hk').
    cbn [Client.with_chunkedMessages Client.chunkedMessages].
    apply client_Map_get_set_other. exact Hk'.
Qed.

(** X20. A start frame in the shape the reassembler reads, announcing as
    many chunks as there are pieces (fewer than 2^32, the longest array
    there is), followed by the chunk frames of the pieces in the order of
    their indices: every chunk is written to the element of its index, and
    the session under the key of the id then holds the pieces as its
    elements and nothing else, has counted them, and its elements join into
    the pieces put together, which is the text when the pieces are those the
    relay cuts from it; the store, the listeners and the sessions under
    other keys are as before. *)
Theorem chunks_in_order_reassemble (id : value) (ps : list jsstring) (s : Client.State) :
  string_or_absent id ->
  (Z.of_nat (List.length ps) < 2 ^ 32)%Z ->
  let n := Z.of_nat (List.length ps) in
  let s1 := final (Client.handleChunkedStart (VObj (start_frame id n)) s) in
  let s2 := after_chunks (chunk_frames id 0 ps) s1 in
  (exists session,
     Client.Map_get (Client.messageId_of id) (Client.chunkedMessages s2) = Some session /\
     Client.slots (Client.chunks session) = map (fun p => Some (VStr p)) ps /\
     Client.named (Client.chunks session) = [] /\
     Client.received session = n /\
     Client.join_empty (Client.chunks session) = Ok (List.concat ps) /\
     forall text, ps = pieces text -> Client.join_empty (Client.chunks session) = Ok text) /\
  Client.store s2 = Client.store s /\
  Client.listeners s2 = Client.listeners s /\
  forall k', Client.same_key (Client.messageId_of id) k' = false ->
             Client.Map_get k' (Client.chunkedMessages s2)
             = Client.Map_get k' (Client.chunkedMessages s).
Proof.
  intros Hid Hn. cbv zeta.
  destruct (session_after_chunks id ps s Hid Hn) as (Hs & Hst & Hl & Hother).
  split; [|split; [exact Hst | split; [exact Hl | exact Hother]]].
  eexists. split; [exact Hs|].
  cbn [Client.chunks Client.received array_of Client.slots Client.named].
  split; [apply app_nil_r|]. split; [reflexivity|]. split; [reflexivity|].
  split; [apply join_of_strings|].
  intros text ->. rewrite (join_of_strings (pieces text)). unfold pieces.
  rewrite (chunks_reassemble text). reflexivity.
Qed.

(** X21. A text sent to the reassembler as a start frame, the chunk frames
    of the pieces the relay cuts, in order, and a completion frame, all under
    one id and in the shape the reassembler reads: when the text parses, the
    store ends as after one uml:payload frame carrying the parsed value, the
    completion frame calls the listeners with the same states in the same
    order, its trace being the one of the direct frame followed by the logs
    of the completion, it returns normally, and no session is left under the
    id. *)
Theorem chunked_transfer_as_direct (id : value) (text : jsstring) (v : value)
    (s : Client.State) :
  string_or_absent id ->
  (Z.of_nat (List.length (pieces text)) < 2 ^ 32)%Z ->
  json_parse text = Some v ->
  let n := Z.of_nat (List.length (pieces text)) in
  let s1 := final (Client.handleChunkedStart (VObj (start_frame id n)) s) in
  let s2 := after_chunks (chunk_frames id 0 (pieces text)) s1 in
  let r := Client.handleChunkedComplete (VObj (complete_frame id)) s2 in
  let r' := Client.handleUmlPayload (payload_frame id v) s in
  outcome r = Ok tt /\
  Client.store (final r) = Client.store (final r') /\
  Client.listeners (final r) = Client.listeners (final r') /\
  trace r = trace r'
            ++ match outcome r' with
               | Ok _ => []
               | Throw _ => [Client.ConsoleError (lit "Error parsing chunked payload:")]
               end
            ++ [Client.ConsoleLog (lit "Chunked message completed")] /\
  notifications (trace r) = notifications (trace r') /\
  Client.Map_get (Client.messageId_of id) (Client.chunkedMessages (final r)) = None.
Proof.
  intros Hid Hn Hparse. cbv zeta.
  destruct (session_after_chunks id (pieces text) s Hid Hn) as (Hs & Hst & Hl & _).
  set (s2 := after_chunks _ _) in *.
  assert (Hkey : own (complete_frame id) (lit "id") = id) by reflexivity.
  assert (Hjoin : Client.join_empty (array_of (pieces text) []) = Ok text).
  { rewrite join_of_strings. unfold pieces. rewrite (chunks_reassemble text).
    reflexivity. }
  pose proof (handleChunkedComplete_run (complete_frame id) s2 _ text
                ltac:(cbv zeta; rewrite Hkey; exact Hs) Hjoin) as Hrun.
  cbv zeta in Hrun. rewrite Hparse in Hrun. rewrite Hrun, Hkey.
  assert (Hsame : Client.handleUmlPayload (delivery_of (complete_frame id) v)
                  = Client.handleUmlPayload (payload_frame id v)).
  { apply handleUmlPayload_payload. reflexivity. }
  rewrite Hsame.
  destruct (blind_handleUmlPayload (payload_frame id v) s2 s (conj Hst Hl))
    as (Ho & Ht & Hst' & Hl').
  cbn [outcome final trace fst snd Client.with_chunkedMessages Client.store
       Client.listeners Client.chunkedMessages].
  split; [reflexivity|]. split; [exact Hst'|]. split; [exact Hl'|].
  split; [rewrite Ht, Ho; reflexivity|].
  split; [|apply client_Map_get_delete].
  rewrite Ht, Ho. rewrite !notifications_app.
  match goal with |- context [outcome ?x] => destruct (outcome x) end;
    cbn [notifications]; rewrite app_nil_r; reflexivity.
Qed.

(** X22. The three handlers of a chunked transfer touch the session of
    their own key only: whatever the frame, the session found under any other
    key is the same before and after, and so are, for a start frame and a
    chunk frame, the store and the listeners. *)
Theorem sessions_are_independent (fields : list (jsstring * value)) (s : Client.State)
    (other : value) :
  Client.same_key (Client.messageId_of (own fields (lit "id"))) other = false ->
  let kept (r : result unit * Client.State * list Client.effect) :=
    Client.Map_get other (Client.chunkedMessages (final r))
    = Client.Map_get other (Client.chunkedMessages s) in
  let untouched (r : result unit * Client.State * list Client.effect) :=
    Client.store (final r) = Client.store s /\
    Client.listeners (final r) = Client.listeners s in
  kept (Client.handleChunkedStart (VObj fields) s) /\
  untouched (Client.handleChunkedStart (VObj fields) s) /\
  kept (Client.handleChunk (VObj fields) s) /\
  untouched (Client.handleChunk (VObj fields) s) /\
  kept (Client.handleChunkedComplete (VObj fields) s).
Proof.
  intros Hother. cbv zeta.
  set (key := Client.messageId_of (own fields (lit "id"))) in *.
  set (P := fun s' : Client.State =>
              Client.Map_get other (Client.chunkedMessages s')
              = Client.Map_get other (Client.chunkedMessages s)).
  set (Q := fun s' : Client.State =>
              Client.store s' = Client.store s /\
              Client.listeners s' = Client.listeners s).
  assert (Hset : forall session,
             stable_under (Client.with_chunkedMessages (Client.Map_set key session)) P).
  { intros session s' Hs'. unfold P in *.
    cbn [Client.with_chunkedMessages Client.chunkedMessages].
    rewrite client_Map_get_set_other by exact Hother. exact Hs'. }
  assert (Hdel : stable_under (Client.with_chunkedMessages (Client.Map_delete key)) P).
  { intros s' Hs'. unfold P in *.
    cbn [Client.with_chunkedMessages Client.chunkedMessages].
    rewrite client_Map_get_delete_other by exact Hother. exact Hs'. }
  assert (Hstore : forall f, stable_under (Client.with_store f) P).
  { intros f s' Hs'. exact Hs'. }
  assert (HQ : forall f, stable_under (Client.with_chunkedMessages f) Q).
  { intros f s' Hs'. exact Hs'. }
  assert (Hstart : forall R : Client.State -> Prop,
             (forall session,
                stable_under (Client.with_chunkedMessages (Client.Map_set key session)) R) ->
             keeps R (Client.handleChunkedStart (VObj fields))).
  { intros R HR. unfold Client.handleChunkedStart, Client.console_log. cbv zeta.
    change (get (VObj fields) "id") with (Ok (own fields (lit "id"))).
    apply keeps_bind_lift. intros a Ha. injection Ha as <-. fold key.
    repeat first [ apply keeps_modify; apply HR | keeps_step ]. }
  assert (Hchunk : forall R : Client.State -> Prop,
             (forall session,
                stable_under (Client.with_chunkedMessages (Client.Map_set key session)) R) ->
             keeps R (Client.handleChunk (VObj fields))).
  { intros R HR. unfold Client.handleChunk, Client.console_log. cbv zeta.
    change (get (VObj fields) "id") with (Ok (own fields (lit "id"))).
    apply keeps_bind_lift. intros a Ha. injection Ha as <-. fold key.
    repeat first [ apply keeps_modify; apply HR | keeps_step ]. }
  assert (Hcomplete : keeps P (Client.handleChunkedComplete (VObj fields))).
  { unfold Client.handleChunkedComplete, Client.console_log, Client.console_error,
      Client.JSON_parse. cbv zeta.
    change (get (VObj fields) "id") with (Ok (own fields (lit "id"))).
    apply keeps_bind_lift. intros a Ha. injection Ha as <-. fold key.
    repeat first [ apply keeps_modify; apply Hdel
                 | apply keeps_handleUmlPayload; exact Hstore
                 | keeps_step ]. }
  split; [exact (Hstart P Hset s eq_refl)|].
  split; [exact (Hstart Q (fun session => HQ _) s (conj eq_refl eq_refl))|].
  split; [exact (Hchunk P Hset s eq_refl)|].
  split; [exact (Hchunk Q (fun session => HQ _) s (conj eq_refl eq_refl))|].
  exact (Hcomplete s eq_refl).
Qed.

End Blindness.

(** ** The inbox *)

(** Deciding the tests of a [switch] on a type that is known. *)
Ltac known_type :=
  repeat match goal with
         | |- context [is_str (str ?a) ?b] =>
             let v := eval vm_compute in (is_str (str a) b) in
             change (is_str (str a) b) with v
         end;
  cbv iota.

Section InboxFacts.
Context {engine : Engine} {loop : EventLoop}.
Variables handleCodeOpen handleCodeHighlight handleCommentUpsert : value -> Client.C unit.

(** What [onmessage] makes of the run of the dispatcher. *)
Lemma onmessage_run (message : value) (s : Client.State) :
  Inbox.onmessage handleCodeOpen handleCodeHighlight handleCommentUpsert (Parsed message) s
  = match Inbox.handleMessage handleCodeOpen handleCodeHighlight handleCommentUpsert
            message s with
    | (Ok a, s1, t1) => (Ok a, s1, t1)
    | (Throw e, s1, t1) => (Ok tt, s1, t1 ++ [inbox_error])
    end.
Proof.
  unfold Inbox.onmessage, try_catch. unfold bind at 1. unfold ret at 1.
  destruct (Inbox.handleMessage _ _ _ message s) as [[[[]|e] s1] t1]; reflexivity.
Qed.

(** The dispatcher on an object: the line it logs, then the case of the
    type. *)
Lemma handleMessage_run (fields : list (jsstring * value)) (s : Client.State) :
  Inbox.handleMessage handleCodeOpen handleCodeHighlight handleCommentUpsert (VObj fields) s
  = let type := own fields (lit "type") in
    let message := VObj fields in
    match (if is_str type "system" then Inbox.handleSystemMessage message
           else if is_str type "uml:payload" then Client.handleUmlPayload message
           else if is_str type "uml:payload:chunked:start"
                then Client.handleChunkedStart message
           else if is_str type "uml:payload:chunk" then Client.handleChunk message
           else if is_str type "uml:payload:chunked:complete"
                then Client.handleChunkedComplete message
           else if is_str type "code:open" then handleCodeOpen message
           else if is_str type "code:highlight" then handleCodeHighlight message
           else if is_str type "comments:upsert" then handleCommentUpsert message
           else if is_str type "error" then
                  bind (lift (get message "message"))
                       (fun _ => Client.console_error (lit "Server error:"))
           else Client.console_log (lit "Unhandled message type:")) s with
    | (r, s1, t1) => (r, s1, inbox_received :: t1)
    end.
Proof.
  cbv zeta. unfold Inbox.handleMessage.
  change (get (VObj fields) "type") with (Ok (own fields (lit "type"))).
  unfold bind at 1. unfold lift at 1. unfold bind at 1.
  unfold Client.console_log at 1. unfold emit at 1.
  repeat match goal with
         | |- context [if is_str ?a ?b then _ else _] => destruct (is_str a b)
         end;
    match goal with
    | |- context [let (_, _) := ?m s in _] => destruct (m s) as [[r s1] t1]
    end; reflexivity.
Qed.

(** [onmessage] never throws, whatever the three other handlers do; a
    text that is no JSON and a text that parses to null leave the client as
    it was, with one line of error logged. *)
Theorem onmessage_never_throws (data : frame) (s : Client.State) :
  let r := Inbox.onmessage handleCodeOpen handleCodeHighlight handleCommentUpsert data s in
  outcome r = Ok tt /\
  (data = Malformed -> final r = s /\ trace r = [inbox_error]) /\
  (data = Parsed VNull -> final r = s /\ trace r = [inbox_error]).
Proof.
  cbv zeta. split; [|split; intros ->; split; reflexivity].
  unfold Inbox.onmessage, try_catch.
  match goal with |- outcome (let (p, t1) := ?m s in _) = _ =>
    destruct (m s) as [[[[]|e] s1] t1] end; reflexivity.
Qed.

(** X23. A frame that is an object and whose type is none of the seven with
    a writing handler changes nothing in the client: [onmessage] returns, the
    sessions, the store and the listeners are as before, and two lines are
    logged, the second one naming a system message, a server error or an
    unhandled type. The envelopes of type broadcast, with which the relay
    passes a chat message on, are among these frames. *)
Theorem other_types_change_nothing (fields : list (jsstring * value)) (s : Client.State) :
  Forall (fun t => is_str (own fields (lit "type")) t = false) Inbox.writing_types ->
  Inbox.onmessage handleCodeOpen handleCodeHighlight handleCommentUpsert
    (Parsed (VObj fields)) s
  = (Ok tt, s, [inbox_received; logged_only (own fields (lit "type"))]).
Proof.
  intros Hall. rewrite onmessage_run, handleMessage_run. cbv zeta.
  unfold Inbox.writing_types in Hall.
  repeat match goal with
         | H : Forall _ (_ :: _) |- _ =>
             let H1 := fresh "Ht" in
             apply Forall_cons_iff in H; destruct H as [H1 H]; rewrite H1
         end.
  unfold logged_only.
  destruct (is_str (own fields (lit "type")) "system").
  - unfold Inbox.handleSystemMessage, bind, lift, Client.console_log, emit. cbn [get].
    reflexivity.
  - destruct (is_str (own fields (lit "type")) "error").
    + unfold bind, lift, Client.console_error, emit. cbn [get]. reflexivity.
    + reflexivity.
Qed.

(** X24. The three kinds of envelope with which the relay passes on a large
    payload are not read by the reassembler: they carry [totalChunks],
    [chunkIndex] and [chunk] beside [type], where the handlers look for them
    under [payload]. The start envelope makes handleChunkedStart throw a
    TypeError, which [onmessage] logs, and no session is created; a chunk
    envelope is dropped, also when a session waits under its id; so a client
    with no session under the id is, after all the envelopes of a payload,
    exactly as it was, and the diagram never reaches its store. *)
Theorem relayed_chunks_never_reach_store (fields : list (jsstring * value))
    (text : jsstring) (s : Client.State) :
  let run := Inbox.onmessage handleCodeOpen handleCodeHighlight handleCommentUpsert in
  let size := Z.of_nat (List.length text) in
  run (Parsed (chunked_start fields size)) s = (Ok tt, s, [inbox_received; inbox_error]) /\
  (forall i, run (Parsed (chunked_chunk fields text i)) s = (Ok tt, s, [inbox_received])) /\
  (Client.Map_get (Client.messageId_of (own fields (lit "id"))) (Client.chunkedMessages s)
   = None ->
   run (Parsed (chunked_complete fields)) s = (Ok tt, s, [inbox_received]) /\
   after_frames handleCodeOpen handleCodeHighlight handleCommentUpsert
     (relay_chunk_envelopes fields text) s = s).
Proof.
  cbv zeta.
  assert (Hstart : Inbox.onmessage handleCodeOpen handleCodeHighlight handleCommentUpsert
                     (Parsed (chunked_start fields (Z.of_nat (List.length text)))) s
                   = (Ok tt, s, [inbox_received; inbox_error])).
  { rewrite onmessage_run. unfold chunked_start, obj. rewrite handleMessage_run. cbv zeta.
    match goal with |- context [own ?fs (lit "type")] =>
      change (own fs (lit "type")) with (str "uml:payload:chunked:start") end.
    known_type. unfold Client.handleChunkedStart, bind, lift. reflexivity. }
  assert (Hchunk : forall i,
             Inbox.onmessage handleCodeOpen handleCodeHighlight handleCommentUpsert
               (Parsed (chunked_chunk fields text i)) s
             = (Ok tt, s, [inbox_received])).
  { intros i. rewrite onmessage_run. unfold chunked_chunk, obj. rewrite handleMessage_run.
    cbv zeta.
    match goal with |- context [own ?fs (lit "type")] =>
      change (own fs (lit "type")) with (str "uml:payload:chunk") end.
    known_type. unfold Client.handleChunk. unfold bind at 1. unfold lift at 1.
    match goal with |- context [get ?m "id"] =>
      change (get m "id") with (Ok (own fields (lit "id"))) end.
    unfold bind at 1. unfold read at 1.
    destruct (Client.Map_get _ (Client.chunkedMessages s)); reflexivity. }
  split; [exact Hstart|]. split; [exact Hchunk|].
  intros Hnone.
  assert (Hcomplete : Inbox.onmessage handleCodeOpen handleCodeHighlight handleCommentUpsert
                        (Parsed (chunked_complete fields)) s
                      = (Ok tt, s, [inbox_received])).
  { rewrite onmessage_run. unfold chunked_complete, obj. rewrite handleMessage_run.
    cbv zeta.
    match goal with |- context [own ?fs (lit "type")] =>
      change (own fs (lit "type")) with (str "uml:payload:chunked:complete") end.
    known_type. unfold Client.handleChunkedComplete. unfold bind at 1. unfold lift at 1.
    match goal with |- context [get ?m "id"] =>
      change (get m "id") with (Ok (own fields (lit "id"))) end.
    unfold bind at 1. unfold read at 1. rewrite Hnone. reflexivity. }
  split; [exact Hcomplete|].
  unfold relay_chunk_envelopes. cbn [after_frames]. rewrite Hstart. cbn [final fst snd].
  induction (chunk_indices (Z.of_nat (List.length text))) as [|i rest IH].
  - cbn [map app after_frames]. rewrite Hcomplete. reflexivity.
  - cbn [map app after_frames]. rewrite Hchunk. cbn [final fst snd]. exact IH.
Qed.

End InboxFacts.

(* ================================================================== *)
(** * Facts on the store *)
(* ================================================================== *)

(** ** Sets of strings *)

Lemma str_Set_has_In (x : jsstring) (s : list jsstring) :
  Store.Set_has x s = true <-> In x s.
Proof.
  unfold Store.Set_has. rewrite existsb_exists. split.
  - intros (y & Hy & Heq). apply str_eqb_eq in Heq. subst. exact Hy.
  - intros H. exists x. split; [exact H | apply str_eqb_refl].
Qed.

Lemma str_Set_add_In (x y : jsstring) (s : list jsstring) :
  In x (Store.Set_add y s) <-> x = y \/ In x s.
Proof.
  unfold Store.Set_add. destruct (Store.Set_has y s) eqn:H.
  - apply str_Set_has_In in H. split; [intros Hx; right; exact Hx|].
    intros [-> | Hx]; assumption.
  - rewrite in_app_iff. cbn [In]. split.
    + intros [Hx | [<- | []]]; [right; exact Hx | left; reflexivity].
    + intros [-> | Hx]; [right; left; reflexivity | left; exact Hx].
Qed.

Lemma str_Set_add_NoDup (y : jsstring) (s : list jsstring) :
  NoDup s -> NoDup (Store.Set_add y s).
Proof.
  intros Hs. unfold Store.Set_add. destruct (Store.Set_has y s) eqn:H; [exact Hs|].
  apply NoDup_app; [exact Hs | repeat constructor; intros [] |].
  intros x Hx [<- | []]. apply str_Set_has_In in Hx. rewrite Hx in H. discriminate.
Qed.

Lemma adds_In (xs acc : list jsstring) (x : jsstring) :
  In x (fold_left (fun s y => Store.Set_add y s) xs acc) <-> In x acc \/ In x xs.
Proof.
  revert acc. induction xs as [|y xs IH]; intros acc; cbn [fold_left In].
  - tauto.
  - rewrite IH, str_Set_add_In. intuition congruence.
Qed.

Lemma adds_NoDup (xs acc : list jsstring) :
  NoDup acc -> NoDup (fold_left (fun s y => Store.Set_add y s) xs acc).
Proof.
  revert acc. induction xs as [|y xs IH]; intros acc H; cbn [fold_left]; [exact H|].
  apply IH. apply str_Set_add_NoDup. exact H.
Qed.

Lemma new_Set_In (xs : list jsstring) (x : jsstring) :
  In x (Store.new_Set xs) <-> In x xs.
Proof. unfold Store.new_Set. rewrite adds_In. cbn [In]. tauto. Qed.

(** ** The edges of a diagram *)

Lemma connect_edge_grows (related : list jsstring) (e : Store.UmlEdge.t) (x : jsstring) :
  In x related -> In x (Store.connect_edge related e).
Proof.
  intros H. unfold Store.connect_edge.
  repeat match goal with
         | |- context [if ?b then _ else _] => destruct b
         end; rewrite ?str_Set_add_In; auto.
Qed.

Lemma connect_edge_joins (related : list jsstring) (e : Store.UmlEdge.t) :
  (In (Store.UmlEdge.source e) related -> In (Store.UmlEdge.target e)
                                              (Store.connect_edge related e)) /\
  (In (Store.UmlEdge.target e) related -> In (Store.UmlEdge.source e)
                                              (Store.connect_edge related e)).
Proof.
  unfold Store.connect_edge. split; intros H.
  - pose proof (proj2 (str_Set_has_In _ _) H) as Hs. rewrite Hs.
    assert (Ht : In (Store.UmlEdge.target e)
                    (Store.Set_add (Store.UmlEdge.target e) related))
      by (apply str_Set_add_In; left; reflexivity).
    rewrite (proj2 (str_Set_has_In _ _) Ht). apply str_Set_add_In. right. exact Ht.
  - destruct (Store.Set_has (Store.UmlEdge.source e) related) eqn:Hs.
    + apply str_Set_has_In in Hs.
      destruct (Store.Set_has (Store.UmlEdge.target e) _);
        rewrite ?str_Set_add_In; auto.
    + rewrite (proj2 (str_Set_has_In _ _) H). apply str_Set_add_In. left. reflexivity.
Qed.

Lemma connect_edge_only_ends (related : list jsstring) (e : Store.UmlEdge.t) (x : jsstring) :
  In x (Store.connect_edge related e) -> In x related \/ touches e x.
Proof.
  unfold Store.connect_edge, touches.
  repeat match goal with
         | |- context [if ?b then _ else _] => destruct b
         end; rewrite ?str_Set_add_In; intuition auto.
Qed.

Lemma connect_edge_NoDup (related : list jsstring) (e : Store.UmlEdge.t) :
  NoDup related -> NoDup (Store.connect_edge related e).
Proof.
  intros H. unfold Store.connect_edge.
  repeat match goal with
         | |- context [if ?b then _ else _] => destruct b
         end; repeat apply str_Set_add_NoDup; exact H.
Qed.

Lemma edges_grow (es : list Store.UmlEdge.t) (related : list jsstring) (x : jsstring) :
  In x related -> In x (fold_left Store.connect_edge es related).
Proof.
  revert related. induction es as [|e es IH]; intros related H; cbn [fold_left]; [exact H|].
  apply IH. apply connect_edge_grows. exact H.
Qed.

Lemma edges_join (es : list Store.UmlEdge.t) (related : list jsstring) (e : Store.UmlEdge.t) :
  In e es ->
  (In (Store.UmlEdge.source e) related ->
   In (Store.UmlEdge.target e) (fold_left Store.connect_edge es related)) /\
  (In (Store.UmlEdge.target e) related ->
   In (Store.UmlEdge.source e) (fold_left Store.connect_edge es related)).
Proof.
  revert related. induction es as [|e' es IH]; intros related Hin; [destruct Hin|].
  destruct Hin as [-> | He]; cbn [fold_left].
  - destruct (connect_edge_joins related e) as [H1 H2].
    split; intros H; apply edges_grow; auto.
  - destruct (IH (Store.connect_edge related e') He) as [H1 H2].
    split; intros H; [apply H1 | apply H2]; apply connect_edge_grows; exact H.
Qed.

Lemma edges_only_ends (es : list Store.UmlEdge.t) (related : list jsstring) (x : jsstring) :
  In x (fold_left Store.connect_edge es related) ->
  In x related \/ exists e, In e es /\ touches e x.
Proof.
  revert related. induction es as [|e es IH]; intros related H; cbn [fold_left] in H.
  - left. exact H.
  - destruct (IH _ H) as [Hx | (e' & He' & Ht)].
    + destruct (connect_edge_only_ends related e x Hx) as [Hr | Ht]; [left; exact Hr|].
      right. exists e. split; [left; reflexivity | exact Ht].
    + right. exists e'. split; [right; exact He' | exact Ht].
Qed.

(** ** The listeners *)

Lemma store_notify_loop (ls : list Store.listener) (s : Store.State) :
  final (forEach ls (fun l : Store.listener =>
           bind (read Store.state) (fun st =>
             bind (emit (Store.Notified st)) (fun _ =>
               if l st then throw ListenerError else ret tt))) s) = s.
Proof.
  induction ls as [|l ls IH]; [reflexivity|].
  cbn [forEach]. unfold bind at 1. unfold bind at 1. unfold read at 1.
  unfold bind at 1. unfold emit at 1.
  destruct (l (Store.state s)).
  - reflexivity.
  - unfold ret at 1.
    match goal with |- final (let (p, t2) := ?m in _) = _ =>
      change (final m = s) in IH; destruct m as [[r s2] t2] end.
    exact IH.
Qed.

Lemma store_notify_final (s : Store.State) : final (Store.notify s) = s.
Proof.
  unfold Store.notify. unfold bind at 1. unfold read at 1.
  pose proof (store_notify_loop (Store.listeners s) s) as H.
  match goal with |- final (let (p, t2) := ?m in _) = _ =>
    change (final m = s) in H; destruct m as [[r s2] t2] end.
  exact H.
Qed.

(** A write followed by [notify] ends in the written state, however the
    listeners behave. *)
Lemma write_notify_final (f : Store.State -> Store.State) (s : Store.State) :
  final (bind (modify f) (fun _ => Store.notify) s) = f s.
Proof.
  unfold bind, modify. pose proof (store_notify_final (f s)) as H.
  destruct (Store.notify (f s)) as [[r s2] t2]. exact H.
Qed.

Lemma dimNodes_adds (ids : list jsstring) (s : Store.State) :
  forEach ids (fun id : jsstring =>
    modify (Store.with_state (fun a =>
      Store.set_dimmedNodeIds (Store.Set_add id (Store.dimmedNodeIds a)) a))) s
  = (Ok tt,
     Store.with_state
       (Store.set_dimmedNodeIds
          (fold_left (fun acc y => Store.Set_add y acc) ids
             (Store.dimmedNodeIds (Store.state s)))) s,
     [] : list Store.effect).
Proof.
  revert s. induction ids as [|x ids IH]; intros s.
  - destruct s as [[] ? ? ?]. reflexivity.
  - cbn [forEach fold_left]. unfold bind at 1. unfold modify at 1. rewrite IH.
    reflexivity.
Qed.

Lemma dimNodes_final (ids : list jsstring) (s : Store.State) :
  final (Store.dimNodes ids s)
  = Store.with_state (Store.set_dimmedNodeIds (Store.new_Set ids)) s.
Proof.
  unfold Store.dimNodes. unfold bind at 1. unfold modify at 1.
  unfold bind at 1. rewrite dimNodes_adds.
  pose proof (store_notify_final
                (Store.with_state
                   (Store.set_dimmedNodeIds
                      (fold_left (fun acc y => Store.Set_add y acc) ids
                         (Store.dimmedNodeIds
                            (Store.state
                               (Store.with_state (Store.set_dimmedNodeIds []) s)))))
                   (Store.with_state (Store.set_dimmedNodeIds []) s))) as H.
  match goal with |- final (let (p, t2) := let (q, t3) := ?m in _ in _) = _ =>
    destruct m as [[r s2] t2] end.
  cbn [final fst snd] in *. rewrite H. reflexivity.
Qed.

(** X25. Selecting a file, at a store that holds a diagram and for a path
    that is not empty: the path is stored as the selected one, and the
    dimmed nodes become ids of nodes of the diagram, each once, such that no
    node of the file is dimmed, no node joined by an edge, in either
    direction, to a node of the file is dimmed, and every node is dimmed that
    does not share its id with a node of the file and is touched by no edge;
    this holds whether or not a listener throws. The diagram itself and the
    comments are not written. *)
Theorem selecting_a_file_dims_the_unrelated (filePath : jsstring) (d : Store.UmlDiagram.t)
    (s : Store.State) :
  Store.diagram (Store.state s) = Some d ->
  filePath <> [] ->
  let after := Store.state (final (Store.selectFile filePath s)) in
  let dimmed := Store.dimmedNodeIds after in
  let nodes := Store.UmlDiagram.nodes d in
  let edges := Store.UmlDiagram.edges d in
  Store.selectedFilePath after = Some filePath /\
  Store.diagram after = Some d /\
  Store.comments after = Store.comments (Store.state s) /\
  NoDup dimmed /\
  (forall x, In x dimmed -> exists n, In n nodes /\ Store.UmlNode.id n = x) /\
  (forall n, In n nodes -> in_file filePath n -> ~ In (Store.UmlNode.id n) dimmed) /\
  (forall n e, In n nodes -> in_file filePath n -> In e edges ->
               touches e (Store.UmlNode.id n) ->
               ~ In (Store.UmlEdge.source e) dimmed /\
               ~ In (Store.UmlEdge.target e) dimmed) /\
  (forall m, In m nodes ->
             (forall n, In n nodes -> in_file filePath n ->
                        Store.UmlNode.id n <> Store.UmlNode.id m) ->
             (forall e, In e edges -> ~ touches e (Store.UmlNode.id m)) ->
             In (Store.UmlNode.id m) dimmed).
Proof.
  intros Hd Hpath. cbv zeta.
  set (related := Store.relatedNodeIds d filePath).
  set (toDim := map Store.UmlNode.id
                  (filter (fun node => negb (Store.Set_has (Store.UmlNode.id node) related))
                          (Store.UmlDiagram.nodes d))).
  assert (Hfinal : final (Store.selectFile filePath s)
                   = Store.with_state (Store.set_dimmedNodeIds (Store.new_Set toDim))
                       (Store.with_state (Store.set_selectedFilePath (Some filePath)) s)).
  { unfold Store.selectFile. unfold bind at 1. unfold modify at 1.
    unfold bind at 1. unfold read at 1.
    cbn [Store.with_state Store.state Store.set_selectedFilePath Store.diagram].
    rewrite Hd. destruct filePath as [|c rest]; [contradiction Hpath; reflexivity|].
    unfold bind at 1. unfold Store.dimUnrelatedNodes at 1.
    unfold bind at 1. unfold read at 1.
    cbn [Store.with_state Store.state Store.set_selectedFilePath Store.diagram].
    rewrite Hd.
    match goal with |- context [Store.dimNodes ?ids ?s0] =>
      pose proof (dimNodes_final ids s0) as Hdim;
      destruct (Store.dimNodes ids s0) as [[[[]|e] s1] t1]
    end; cbn [final fst snd] in Hdim; subst s1.
    - match goal with |- context [Store.notify ?s0] =>
        pose proof (store_notify_final s0) as Hn;
        destruct (Store.notify s0) as [[r2 s2] t2]
      end. cbn [final fst snd] in *. subst s2. reflexivity.
    - reflexivity. }
  rewrite Hfinal.
  cbn [Store.with_state Store.state Store.set_dimmedNodeIds Store.set_selectedFilePath
       Store.selectedFilePath Store.diagram Store.comments Store.dimmedNodeIds].
  assert (Hrel_file : forall n, In n (Store.UmlDiagram.nodes d) -> in_file filePath n ->
                                In (Store.UmlNode.id n) related).
  { intros n Hn Hf. unfold related, Store.relatedNodeIds. apply edges_grow.
    apply new_Set_In. apply in_map. apply filter_In. split; [exact Hn|].
    unfold in_file in Hf. rewrite Hf. apply str_eqb_refl. }
  assert (Hdim_iff : forall x, In x (Store.new_Set toDim) <->
                               exists n, In n (Store.UmlDiagram.nodes d) /\
                                         Store.UmlNode.id n = x /\ ~ In x related).
  { intros x. rewrite new_Set_In. unfold toDim. rewrite in_map_iff. split.
    - intros (n & <- & Hn). apply filter_In in Hn. destruct Hn as [Hn Hnot].
      exists n. split; [exact Hn|]. split; [reflexivity|].
      intros Hin. apply str_Set_has_In in Hin. rewrite Hin in Hnot. discriminate.
    - intros (n & Hn & <- & Hnot). exists n. split; [reflexivity|].
      apply filter_In. split; [exact Hn|].
      destruct (Store.Set_has (Store.UmlNode.id n) related) eqn:Hhas; [|reflexivity].
      apply str_Set_has_In in Hhas. contradiction. }
  split; [reflexivity|]. split; [exact Hd|]. split; [reflexivity|].
  split; [unfold Store.new_Set; apply adds_NoDup; constructor|].
  split.
  { intros x Hx. apply Hdim_iff in Hx. destruct Hx as (n & Hn & Hid & _).
    exists n. split; assumption. }
  split.
  { intros n Hn Hf Hx. apply Hdim_iff in Hx. destruct Hx as (_ & _ & _ & Hnot).
    apply Hnot. apply Hrel_file; assumption. }
  split.
  { intros n e Hn Hf He Ht.
    pose proof (Hrel_file n Hn Hf) as Hrel.
    assert (Hinit : In (Store.UmlNode.id n)
                       (Store.new_Set
                          (map Store.UmlNode.id
                             (filter (fun node => str_eqb (Store.UmlNode.file node) filePath)
                                     (Store.UmlDiagram.nodes d))))).
    { apply new_Set_In. apply in_map. apply filter_In. split; [exact Hn|].
      unfold in_file in Hf. rewrite Hf. apply str_eqb_refl. }
    destruct (edges_join (Store.UmlDiagram.edges d)
                (Store.new_Set
                   (map Store.UmlNode.id
                      (filter (fun node => str_eqb (Store.UmlNode.file node) filePath)
                              (Store.UmlDiagram.nodes d)))) e He) as [H1 H2].
    fold (Store.relatedNodeIds d filePath) in H1, H2. fold related in H1, H2.
    assert (Hboth : In (Store.UmlEdge.source e) related /\
                    In (Store.UmlEdge.target e) related).
    { destruct Ht as [Hs | Ht].
      - split; [rewrite Hs; exact Hrel|]. apply H1. rewrite Hs. exact Hinit.
      - split; [|rewrite Ht; exact Hrel]. apply H2. rewrite Ht. exact Hinit. }
    destruct Hboth as [Hsrc Htgt].
    split; intros Hx; apply Hdim_iff in Hx; destruct Hx as (_ & _ & _ & Hnot);
      apply Hnot; assumption. }
  intros m Hm Hids Hedges. apply Hdim_iff. exists m. split; [exact Hm|].
  split; [reflexivity|]. intros Hrel. unfold related, Store.relatedNodeIds in Hrel.
  apply edges_only_ends in Hrel. destruct Hrel as [Hinit | (e & He & Ht)].
  - apply (proj1 (new_Set_In _ _)) in Hinit. apply (proj1 (in_map_iff _ _ _)) in Hinit.
    destruct Hinit as (n & Hid & Hn). apply filter_In in Hn. destruct Hn as [Hn Hf].
    apply str_eqb_eq in Hf. exact (Hids n Hn Hf Hid).
  - exact (Hedges e He Ht).
Qed.

(* ================================================================== *)
(** * Facts on the client's connection *)
(* ================================================================== *)

Lemma store_notify_loop_quiet (ls : list Store.listener) (s : Store.State) :
  (forall l, In l ls -> l (Store.state s) = false) ->
  forEach ls (fun l : Store.listener =>
    bind (read Store.state) (fun st =>
      bind (emit (Store.Notified st)) (fun _ =>
        if l st then throw ListenerError else ret tt))) s
  = (Ok tt, s, map (fun _ => Store.Notified (Store.state s)) ls).
Proof.
  induction ls as [|l ls IH]; intros Hq; [reflexivity|].
  cbn [forEach map]. unfold bind at 1. unfold bind at 1. unfold read at 1.
  unfold bind at 1. unfold emit at 1. rewrite (Hq l (or_introl eq_refl)).
  unfold ret at 1. cbn [app]. rewrite IH; [reflexivity|].
  intros l' Hl'. apply Hq. right. exact Hl'.
Qed.

Lemma store_notify_quiet (s : Store.State) :
  quiet s ->
  Store.notify s
  = (Ok tt, s, map (fun _ => Store.Notified (Store.state s)) (Store.listeners s)).
Proof.
  intros Hq. unfold Store.notify. unfold bind at 1. unfold read at 1.
  rewrite store_notify_loop_quiet; [reflexivity|].
  intros l Hl. exact (Hq l (Store.state s) Hl).
Qed.

Lemma sent_app (t1 t2 : list WsClient.effect) :
  WsClient.sent (t1 ++ t2) = WsClient.sent t1 ++ WsClient.sent t2.
Proof.
  induction t1 as [|[] t1 IH]; cbn [app WsClient.sent]; rewrite ?IH; reflexivity.
Qed.

Lemma timeouts_app (t1 t2 : list WsClient.effect) :
  WsClient.timeouts (t1 ++ t2) = WsClient.timeouts t1 ++ WsClient.timeouts t2.
Proof.
  induction t1 as [|[] t1 IH]; cbn [app WsClient.timeouts]; rewrite ?IH; reflexivity.
Qed.

Lemma sent_of_store (t : list Store.effect) : WsClient.sent (map WsClient.OfStore t) = [].
Proof. induction t as [|e t IH]; [reflexivity | exact IH]. Qed.

Lemma sent_map_Sent (ms : list value) : WsClient.sent (map WsClient.Sent ms) = ms.
Proof.
  induction ms as [|m ms IH]; [reflexivity|]. cbn [map WsClient.sent]. rewrite IH.
  reflexivity.
Qed.

Lemma timeouts_of_store (t : list Store.effect) :
  WsClient.timeouts (map WsClient.OfStore t) = [].
Proof. induction t as [|e t IH]; [reflexivity | exact IH]. Qed.

Section ConnectionFacts.
Context {engine : Engine}.

(** The run of [setConnectionState] at a quiet store. *)
Lemma setConnectionState_run (connected : bool) (name : option jsstring)
    (s : WsClient.State) :
  quiet (WsClient.store s) ->
  exists t,
    WsClient.of_store (Store.setConnectionState connected name) s
    = (Ok tt,
       WsClient.set_store
         (Store.with_state (fun a =>
            Store.set_connection connected
              (match name with
               | Some (c :: n) => Some (c :: n)
               | _ => Store.channelName a
               end) a) (WsClient.store s)) s,
       map WsClient.OfStore t).
Proof.
  intros Hq. unfold WsClient.of_store, Store.setConnectionState.
  unfold bind at 1. unfold modify at 1.
  rewrite store_notify_quiet by exact Hq. cbn [app]. eexists. reflexivity.
Qed.

Lemma send_open (m : value) (s : WsClient.State) :
  WsClient.ws s = Some OPEN -> WsClient.send m s = (Ok tt, s, [WsClient.Sent m]).
Proof.
  intros H. unfold WsClient.send, bind, read. rewrite H. reflexivity.
Qed.

Lemma send_not_open (m : value) (s : WsClient.State) :
  WsClient.ws s <> Some OPEN ->
  WsClient.send m s
  = (Ok tt, WsClient.set_messageQueue (WsClient.messageQueue s ++ [m]) s, []).
Proof.
  intros H. unfold WsClient.send, bind, read.
  destruct (WsClient.ws s) as [[]|]; try reflexivity. contradiction H. reflexivity.
Qed.

(** The loop at an open socket. *)
Lemma flush_open (fuel : nat) (s : WsClient.State) :
  WsClient.ws s = Some OPEN ->
  (List.length (WsClient.messageQueue s) < fuel)%nat ->
  WsClient.processMessageQueue fuel s
  = (Ok (Some tt), WsClient.set_messageQueue [] s,
     map WsClient.Sent (filter truthy (WsClient.messageQueue s))).
Proof.
  revert s. induction fuel as [|fuel IH]; intros s Hopen Hlen; [lia|].
  cbn [WsClient.processMessageQueue]. unfold bind at 1. unfold read at 1.
  destruct (WsClient.messageQueue s) as [|m rest] eqn:Hq.
  - destruct s as [w c a q st]. cbn in Hq. subst q. reflexivity.
  - cbn [List.length] in Hlen. unfold bind at 1. unfold modify at 1.
    specialize (IH (WsClient.set_messageQueue rest s) Hopen).
    cbn [WsClient.set_messageQueue WsClient.messageQueue] in IH.
    specialize (IH ltac:(lia)). cbn [filter].
    destruct (truthy m).
    + unfold bind at 1. rewrite send_open by exact Hopen. rewrite IH. reflexivity.
    + unfold bind at 1. unfold ret at 1. rewrite IH. reflexivity.
Qed.

(** The loop at a socket that is not open, with a message that is not
    falsy in the queue: it has not ended after any number of turns, and has
    sent nothing. *)
Lemma flush_not_open (fuel : nat) (s : WsClient.State) :
  WsClient.ws s <> Some OPEN ->
  existsb truthy (WsClient.messageQueue s) = true ->
  exists s1, WsClient.processMessageQueue fuel s = (Ok None, s1, []).
Proof.
  revert s. induction fuel as [|fuel IH]; intros s Hopen Hex.
  - exists s. reflexivity.
  - cbn [WsClient.processMessageQueue]. unfold bind at 1. unfold read at 1.
    destruct (WsClient.messageQueue s) as [|m rest] eqn:Hq; [discriminate Hex|].
    cbn [existsb] in Hex. unfold bind at 1. unfold modify at 1.
    destruct (truthy m) eqn:Hm.
    + unfold bind at 1.
      rewrite send_not_open by exact Hopen.
      cbn [WsClient.set_messageQueue WsClient.messageQueue].
      match goal with |- context [WsClient.processMessageQueue fuel ?s0] =>
        destruct (IH s0) as (s1 & Hrun);
        [ exact Hopen
        | cbn [WsClient.set_messageQueue WsClient.messageQueue]; rewrite existsb_app;
          cbn [existsb]; rewrite Hm; rewrite orb_true_r; reflexivity
        | rewrite Hrun ]
      end.
      exists s1. reflexivity.
    + unfold bind at 1. unfold ret at 1.
      match goal with |- context [WsClient.processMessageQueue fuel ?s0] =>
        destruct (IH s0) as (s1 & Hrun); [exact Hopen | exact Hex | rewrite Hrun]
      end.
      exists s1. reflexivity.
Qed.

Lemma after_sends_queue (ms : list value) (s : WsClient.State) :
  WsClient.ws s <> Some OPEN ->
  after_sends ms s = WsClient.set_messageQueue (WsClient.messageQueue s ++ ms) s.
Proof.
  revert s. induction ms as [|m ms IH]; intros s Hopen; cbn [after_sends].
  - rewrite app_nil_r. destruct s. reflexivity.
  - rewrite send_not_open by exact Hopen. cbn [final fst snd].
    rewrite IH by exact Hopen.
    cbn [WsClient.set_messageQueue WsClient.messageQueue]. rewrite <- app_assoc.
    reflexivity.
Qed.

Lemma sends_are_silent (ms : list value) (s : WsClient.State) :
  WsClient.ws s <> Some OPEN -> trace_of_sends ms s = [].
Proof.
  revert s. induction ms as [|m ms IH]; intros s Hopen; [reflexivity|].
  cbn [trace_of_sends]. rewrite send_not_open by exact Hopen.
  cbn [trace final fst snd app]. apply IH. exact Hopen.
Qed.

(** X26. Messages handed to [send] while the socket is not open are kept in
    the order of the calls and nothing is sent, or done otherwise, by these
    calls; when the socket then opens, [onopen], at a store whose listeners
    do not throw, sends the join message of the channel first and the kept
    messages after it in the order of the calls, those that are falsy left
    out; it empties the queue, takes the count of reconnection attempts back
    to 0, marks the store connected and resolves the promise of connect. *)
Theorem queued_messages_follow_the_join (channel : jsstring) (ms : list value)
    (s : WsClient.State) (fuel : nat) :
  WsClient.ws s <> Some OPEN ->
  WsClient.messageQueue s = [] ->
  quiet (WsClient.store s) ->
  (List.length ms < fuel)%nat ->
  let queued := after_sends ms s in
  let r := WsClient.onopen channel fuel (WsClient.set_ws (Some OPEN) queued) in
  trace_of_sends ms s = [] /\
  WsClient.sent (trace_of_sends ms s) = [] /\
  WsClient.messageQueue queued = ms /\
  WsClient.store queued = WsClient.store s /\
  outcome r = Ok (Some tt) /\
  WsClient.sent (trace r)
  = obj [("type", str "join");
         ("channel", VStr channel);
         ("id", VStr (lit "msg_" ++ number_text (Store.now (WsClient.store s)) ++ lit "_"
                      ++ Store.random36 (WsClient.store s)))]
    :: filter truthy ms /\
  In WsClient.Resolved (trace r) /\
  WsClient.messageQueue (final r) = [] /\
  WsClient.reconnectAttempts (final r) = 0%Z /\
  Store.isConnected (Store.state (WsClient.store (final r))) = true.
Proof.
  intros Hopen Hq Hquiet Hfuel. cbv zeta.
  rewrite (sends_are_silent ms s Hopen).
  split; [reflexivity|]. split; [reflexivity|].
  rewrite (after_sends_queue ms s Hopen). rewrite Hq. cbn [app].
  cbn [WsClient.set_messageQueue WsClient.messageQueue WsClient.store].
  split; [reflexivity|]. split; [reflexivity|].
  set (s0 := WsClient.set_ws (Some OPEN) (WsClient.set_messageQueue ms s)).
  assert (Hrun : exists t st,
             WsClient.onopen channel fuel s0
             = (Ok (Some tt),
                WsClient.set_messageQueue []
                  (WsClient.set_store st (WsClient.set_reconnectAttempts 0 s0)),
                WsClient.ConsoleLog (lit "WebSocket connected")
                :: map WsClient.OfStore t
                ++ WsClient.Sent
                     (WsClient.join_message channel
                        (lit "msg_" ++ number_text (Store.now (WsClient.store s))
                         ++ lit "_" ++ Store.random36 (WsClient.store s)))
                :: map WsClient.Sent (filter truthy ms) ++ [WsClient.Resolved]) /\
             Store.isConnected (Store.state st) = true).
  { unfold WsClient.onopen.
    unfold bind at 1. unfold WsClient.console_log at 1. unfold emit at 1.
    unfold bind at 1. unfold modify at 1.
    unfold bind at 1.
    destruct (setConnectionState_run true (Some channel)
                (WsClient.set_reconnectAttempts 0 s0) Hquiet) as (t & Hrun).
    rewrite Hrun.
    unfold bind at 1. unfold WsClient.generateId at 1. unfold read at 1.
    unfold bind at 1. rewrite send_open by reflexivity.
    unfold bind at 1. rewrite flush_open; [|reflexivity|cbn; exact Hfuel].
    unfold bind, emit, ret. cbn [app]. eexists. eexists. split.
    - reflexivity.
    - reflexivity. }
  destruct Hrun as (t & st & Hrun & Hconn). rewrite Hrun.
  cbn [outcome trace final fst snd WsClient.set_messageQueue WsClient.messageQueue
       WsClient.store WsClient.set_store WsClient.set_reconnectAttempts
       WsClient.reconnectAttempts].
  split; [reflexivity|].
  split.
  { cbn [WsClient.sent]. rewrite sent_app, sent_of_store. cbn [app WsClient.sent]. f_equal.
    rewrite sent_app. cbn [WsClient.sent]. rewrite app_nil_r. apply sent_map_Sent. }
  split.
  { right. apply in_or_app. right. right. apply in_or_app. right. left. reflexivity. }
  split; [reflexivity|]. split; [reflexivity | exact Hconn].
Qed.

(** X27. [onopen] of a socket that [this.ws] no longer refers to, the
    field holding a socket that is not open or null: the join message goes to
    the queue, and the loop that empties the queue takes it out and puts it
    back without end; after any number of turns the handler has not returned,
    nothing has been sent and the promise of connect is not resolved. *)
Theorem open_of_a_replaced_socket_never_returns (channel : jsstring)
    (s : WsClient.State) (fuel : nat) :
  WsClient.ws s <> Some OPEN ->
  quiet (WsClient.store s) ->
  let r := WsClient.onopen channel fuel s in
  outcome r = Ok None /\
  WsClient.sent (trace r) = [] /\
  ~ In WsClient.Resolved (trace r).
Proof.
  intros Hopen Hquiet. cbv zeta.
  assert (Hrun : exists t s1,
             WsClient.onopen channel fuel s
             = (Ok None, s1,
                WsClient.ConsoleLog (lit "WebSocket connected") :: map WsClient.OfStore t)).
  { unfold WsClient.onopen.
    unfold bind at 1. unfold WsClient.console_log at 1. unfold emit at 1.
    unfold bind at 1. unfold modify at 1.
    unfold bind at 1.
    destruct (setConnectionState_run true (Some channel)
                (WsClient.set_reconnectAttempts 0 s) Hquiet) as (t & Hrun).
    rewrite Hrun.
    unfold bind at 1. unfold WsClient.generateId at 1. unfold read at 1.
    unfold bind at 1. rewrite send_not_open by exact Hopen.
    unfold bind at 1.
    match goal with |- context [WsClient.processMessageQueue fuel ?s0] =>
      destruct (flush_not_open fuel s0) as (s1 & Hflush);
      [ exact Hopen
      | cbn [WsClient.set_messageQueue WsClient.messageQueue]; rewrite existsb_app;
        cbn [existsb truthy WsClient.join_message obj]; rewrite orb_true_r; reflexivity
      | rewrite Hflush ]
    end.
    unfold ret. cbn [app]. rewrite !app_nil_r. eexists. eexists. reflexivity. }
  destruct Hrun as (t & s1 & Hrun). rewrite Hrun. cbn [outcome trace final fst snd].
  split; [reflexivity|].
  split.
  - cbn [WsClient.sent]. apply sent_of_store.
  - intros [H | H]; [discriminate H|]. apply in_map_iff in H.
    destruct H as (e & He & _). discriminate He.
Qed.

(** The run of [onclose] at a quiet store. *)
Lemma onclose_run (s : WsClient.State) :
  quiet (WsClient.store s) ->
  let a := WsClient.reconnectAttempts s in
  let r := WsClient.onclose s in
  outcome r = Ok tt /\
  WsClient.timeouts (trace r) = (if (a <? 5)%Z then [1000 * (a + 1)] else [])%Z /\
  WsClient.reconnectAttempts (final r) = (if (a <? 5)%Z then a + 1 else a)%Z /\
  Store.listeners (WsClient.store (final r)) = Store.listeners (WsClient.store s) /\
  Store.isConnected (Store.state (WsClient.store (final r))) = false /\
  WsClient.ws (final r) = WsClient.ws s /\
  WsClient.messageQueue (final r) = WsClient.messageQueue s.
Proof.
  intros Hquiet. cbv zeta.
  destruct (setConnectionState_run false None s Hquiet) as (t & Hrun).
  assert (Hclose : exists t2,
             WsClient.onclose s
             = (Ok tt,
                (if (WsClient.reconnectAttempts s <? 5)%Z
                 then WsClient.set_reconnectAttempts (WsClient.reconnectAttempts s + 1)
                 else fun s0 => s0)
                  (WsClient.set_store
                     (Store.with_state
                        (fun a => Store.set_connection false (Store.channelName a) a)
                        (WsClient.store s)) s),
                t2) /\
             WsClient.timeouts t2
             = (if (WsClient.reconnectAttempts s <? 5)%Z
                then [1000 * (WsClient.reconnectAttempts s + 1)] else [])%Z).
  { unfold WsClient.onclose.
    unfold bind at 1. unfold WsClient.console_log at 1. unfold emit at 1.
    unfold bind at 1. rewrite Hrun.
    unfold WsClient.attemptReconnect. unfold bind at 1. unfold read at 1.
    cbn [WsClient.set_store WsClient.reconnectAttempts].
    unfold WsClient.maxReconnectAttempts, WsClient.reconnectInterval.
    destruct (WsClient.reconnectAttempts s <? 5)%Z.
    - unfold bind, modify, WsClient.console_log, emit. cbn [app].
      eexists. split; [reflexivity|].
      cbn [WsClient.timeouts]. rewrite timeouts_app, timeouts_of_store. reflexivity.
    - unfold WsClient.console_error, emit. cbn [app].
      eexists. split; [reflexivity|].
      cbn [WsClient.timeouts]. rewrite timeouts_app, timeouts_of_store. reflexivity. }
  destruct Hclose as (t2 & Hclose & Htimers). rewrite Hclose.
  cbn [outcome trace final fst snd]. rewrite Htimers.
  destruct (WsClient.reconnectAttempts s <? 5)%Z;
    cbn [WsClient.set_reconnectAttempts WsClient.reconnectAttempts WsClient.store
         WsClient.set_store WsClient.ws WsClient.messageQueue Store.with_state
         Store.listeners Store.state Store.set_connection Store.isConnected];
    repeat split.
Qed.

(** X28. Closes of the socket that follow one another with no open in
    between, at a store whose listeners do not throw: the close number i
    sets one timer of i seconds while the count of attempts is below five,
    and the closes after the fifth attempt set none, so that at most five
    reconnections are tried, after 1, 2, 3, 4 and 5 seconds; the count never
    passes five. *)
Theorem reconnect_backoff (k : nat) (s : WsClient.State) :
  quiet (WsClient.store s) ->
  (0 <= WsClient.reconnectAttempts s <= 5)%Z ->
  let a := WsClient.reconnectAttempts s in
  timers_of_closes k s = backoff a k /\
  WsClient.reconnectAttempts (after_closes k s) = Z.min (a + Z.of_nat k) 5 /\
  (a = 0%Z -> (5 <= k)%nat -> timers_of_closes k s = [1000; 2000; 3000; 4000; 5000]%Z).
Proof.
  intros Hquiet Ha. cbv zeta.
  assert (Hmain : timers_of_closes k s = backoff (WsClient.reconnectAttempts s) k /\
                  WsClient.reconnectAttempts (after_closes k s)
                  = Z.min (WsClient.reconnectAttempts s + Z.of_nat k) 5).
  { revert s Hquiet Ha. induction k as [|k IH]; intros s Hquiet Ha.
    - cbn [timers_of_closes backoff after_closes]. split; [reflexivity | lia].
    - cbn [timers_of_closes backoff after_closes].
      destruct (onclose_run s Hquiet) as (_ & Ht & Hn & Hl & _). cbv zeta in Ht, Hn.
      assert (Hq' : quiet (WsClient.store (final (WsClient.onclose s)))).
      { intros l a0 Hin. rewrite Hl in Hin. exact (Hquiet l a0 Hin). }
      destruct (IH (final (WsClient.onclose s)) Hq') as [IH1 IH2].
      { rewrite Hn. destruct (Z.ltb_spec (WsClient.reconnectAttempts s) 5); lia. }
      rewrite Ht, IH1, IH2, Hn.
      destruct (Z.ltb_spec (WsClient.reconnectAttempts s) 5) as [Hlt | Hge].
      + split; [reflexivity | lia].
      + split; [|lia]. cbn [app].
        assert (Hfive : WsClient.reconnectAttempts s = 5%Z) by lia. rewrite Hfive.
        destruct k; reflexivity. }
  split; [exact (proj1 Hmain)|]. split; [exact (proj2 Hmain)|].
  intros H0 Hk. rewrite (proj1 Hmain), H0.
  do 5 (destruct k as [|k]; [lia|]). cbn [backoff Z.ltb Z.compare Z.add Z.mul Pos.mul
                                          Pos.add Pos.compare Pos.compare_cont Pos.succ].
  destruct k; reflexivity.
Qed.

End ConnectionFacts.

(** ** Comments *)

Lemma findIndex_none {A} (p : A -> bool) (xs : list A) :
  Store.findIndex p xs = None <-> forall x, In x xs -> p x = false.
Proof.
  induction xs as [|x xs IH]; cbn [Store.findIndex In].
  - split; [intros _ x [] | reflexivity].
  - destruct (p x) eqn:Hx.
    + split; [discriminate|]. intros H. rewrite (H x (or_introl eq_refl)) in Hx.
      discriminate.
    + split.
      * intros H y [<- | Hy]; [exact Hx|]. apply (proj1 IH); [|exact Hy].
        destruct (Store.findIndex p xs); [discriminate H | reflexivity].
      * intros H. rewrite (proj2 IH (fun y Hy => H y (or_intror Hy))). reflexivity.
Qed.

Lemma findIndex_first {A} (p : A -> bool) (before after : list A) (c : A) :
  (forall b, In b before -> p b = false) -> p c = true ->
  Store.findIndex p (before ++ c :: after) = Some (List.length before).
Proof.
  intros Hb Hc. induction before as [|b before IH]; cbn [app Store.findIndex List.length].
  - rewrite Hc. reflexivity.
  - rewrite (Hb b (or_introl eq_refl)). rewrite IH; [reflexivity|].
    intros b' Hb'. apply Hb. right. exact Hb'.
Qed.

Lemma replace_at_middle {A} (before after : list A) (c x : A) :
  Store.replace_at (List.length before) x (before ++ c :: after) = before ++ x :: after.
Proof.
  induction before as [|b before IH]; cbn [app List.length Store.replace_at];
    [reflexivity|]. rewrite IH. reflexivity.
Qed.

Lemma nth_error_middle {A} (before after : list A) (c : A) :
  nth_error (before ++ c :: after) (List.length before) = Some c.
Proof.
  induction before as [|b before IH]; [reflexivity | exact IH].
Qed.

Section CommentFacts.
Context {engine : Engine}.

Lemma addComment_final (draft : Store.CommentDraft.t) (st : Store.State) :
  final (Store.addComment draft st)
  = Store.with_state (fun a =>
      Store.set_comments
        (Store.comments a
         ++ [{| Store.CodeComment.id := Store.local_comment_id st;
                Store.CodeComment.file := Store.CommentDraft.file draft;
                Store.CodeComment.line := Store.CommentDraft.line draft;
                Store.CodeComment.text := Store.CommentDraft.text draft;
                Store.CodeComment.createdAt := Store.local_timestamp st;
                Store.CodeComment.range := Store.CommentDraft.range draft |}]) a) st.
Proof.
  unfold Store.addComment. unfold bind at 1. unfold read at 1.
  unfold bind at 1. unfold read at 1. cbv zeta.
  unfold bind at 1. unfold modify at 1. unfold bind at 1.
  match goal with |- context [Store.notify ?s0] =>
    pose proof (store_notify_final s0) as Hn; destruct (Store.notify s0) as [[[[]|e] s2] t2]
  end; cbn [final fst snd] in *; subst s2; reflexivity.
Qed.

Lemma updateComment_final (i : jsstring) (u : Store.CommentUpdates.t) (st : Store.State)
    (before after : list Store.CodeComment.t) (c : Store.CodeComment.t) :
  Store.comments (Store.state st) = before ++ c :: after ->
  Store.CodeComment.id c = i ->
  (forall b, In b before -> Store.CodeComment.id b <> i) ->
  final (Store.updateComment i u st)
  = Store.with_state
      (Store.set_comments (before ++ Store.spread_updates c u :: after)) st.
Proof.
  intros Hcs Hc Hb. unfold Store.updateComment. unfold bind at 1. unfold read at 1.
  rewrite Hcs. rewrite findIndex_first.
  - rewrite nth_error_middle, replace_at_middle.
    match goal with |- final (let (p, t2) := ?m in _) = ?x =>
      assert (Hw : final m = x) by apply write_notify_final;
      destruct m as [[r s2] t2]
    end. exact Hw.
  - intros b Hin. destruct (str_eqb (Store.CodeComment.id b) i) eqn:H; [|reflexivity].
    apply str_eqb_eq in H. contradiction (Hb b Hin H).
  - rewrite Hc. apply str_eqb_refl.
Qed.

(** X29. A comments:upsert frame whose id no comment of the store has,
    or which has none: the client adds a comment with the
    file, line, text and range of the payload, under an id and a creation
    time that it makes itself; the id and the time of the payload are not
    kept. The comments before are unchanged, and as long as the id made
    differs from the id of the payload, the store still has no comment with
    the id of the payload, so that the same frame arriving again adds
    again. *)
Theorem upsert_of_unknown_id_adds_a_local_copy (p : WsClient.UpsertPayload)
    (s : WsClient.State) :
  let cs := Store.comments (Store.state (WsClient.store s)) in
  (forall c, In c cs -> WsClient.has_id (WsClient.id p) c = false) ->
  let after := Store.comments
                 (Store.state (WsClient.store (final (WsClient.handleCommentUpsert p s)))) in
  after = cs ++ [local_copy p (WsClient.store s)] /\
  (forall i, WsClient.id p = Some i ->
             Store.local_comment_id (WsClient.store s) <> i ->
             forall c, In c after -> WsClient.has_id (WsClient.id p) c = false).
Proof.
  cbv zeta. intros Hnone.
  assert (Hafter : Store.comments
                     (Store.state
                        (WsClient.store (final (WsClient.handleCommentUpsert p s))))
                   = Store.comments (Store.state (WsClient.store s))
                     ++ [local_copy p (WsClient.store s)]).
  { unfold WsClient.handleCommentUpsert.
    unfold bind at 1. unfold WsClient.console_log at 1. unfold emit at 1.
    unfold bind at 1. unfold read at 1.
    rewrite (proj2 (findIndex_none _ _) Hnone).
    unfold bind at 1. unfold WsClient.of_store at 1.
    pose proof (addComment_final (WsClient.as_draft p) (WsClient.store s)) as Hadd.
    destruct (Store.addComment (WsClient.as_draft p) (WsClient.store s))
      as [[[c|e] st1] t1]; cbn [final fst snd] in Hadd; subst st1; reflexivity. }
  rewrite Hafter. split; [reflexivity|].
  intros i Hi Hfresh c Hc. apply in_app_or in Hc. destruct Hc as [Hc | [<- | []]].
  - apply Hnone. exact Hc.
  - rewrite Hi. cbn [WsClient.has_id local_copy Store.CodeComment.id].
    destruct (str_eqb (Store.local_comment_id (WsClient.store s)) i) eqn:H; [|reflexivity].
    apply str_eqb_eq in H. contradiction.
Qed.

(** X30. A comments:upsert frame whose id a comment of the store has: the
    first comment with the id takes the file, line and text of the payload,
    and its creation time and range when the payload has them; it keeps its
    place and its id; the comments before and after it, later comments with
    the same id included, are unchanged, and no comment is added. *)
Theorem upsert_of_known_id_updates_the_first (p : WsClient.UpsertPayload)
    (s : WsClient.State) (i : jsstring)
    (before after : list Store.CodeComment.t) (c : Store.CodeComment.t) :
  WsClient.id p = Some i ->
  Store.comments (Store.state (WsClient.store s)) = before ++ c :: after ->
  Store.CodeComment.id c = i ->
  (forall b, In b before -> Store.CodeComment.id b <> i) ->
  let updated := Store.spread_updates c (WsClient.as_updates p) in
  Store.comments (Store.state (WsClient.store (final (WsClient.handleCommentUpsert p s))))
  = before ++ updated :: after /\
  Store.CodeComment.id updated = i /\
  Store.CodeComment.file updated = WsClient.file p /\
  Store.CodeComment.line updated = WsClient.line p /\
  Store.CodeComment.text updated = WsClient.text p /\
  Store.CodeComment.createdAt updated
  = match WsClient.createdAt p with
    | Some t => t
    | None => Store.CodeComment.createdAt c
    end.
Proof.
  intros Hi Hcs Hc Hb. cbv zeta.
  split; [|unfold Store.spread_updates, WsClient.as_updates;
           cbn [Store.CodeComment.id Store.CodeComment.file Store.CodeComment.line
                Store.CodeComment.text Store.CodeComment.createdAt
                Store.CommentUpdates.id Store.CommentUpdates.file
                Store.CommentUpdates.line Store.CommentUpdates.text
                Store.CommentUpdates.createdAt];
           rewrite Hi; repeat split].
  unfold WsClient.handleCommentUpsert.
  unfold bind at 1. unfold WsClient.console_log at 1. unfold emit at 1.
  unfold bind at 1. unfold read at 1. rewrite Hcs, Hi.
  rewrite findIndex_first.
  - unfold WsClient.of_store.
    pose proof (updateComment_final i (WsClient.as_updates p) (WsClient.store s)
                  before after c Hcs Hc Hb) as Hupd.
    destruct (Store.updateComment i (WsClient.as_updates p) (WsClient.store s))
      as [[r st1] t1]; cbn [final fst snd] in Hupd; subst st1. reflexivity.
  - intros b Hin. cbn [WsClient.has_id].
    destruct (str_eqb (Store.CodeComment.id b) i) eqn:H; [|reflexivity].
    apply str_eqb_eq in H. contradiction (Hb b Hin H).
  - cbn [WsClient.has_id]. rewrite Hc. apply str_eqb_refl.
Qed.

End CommentFacts.

(* ================================================================== *)
(** * The further theorems at sample inputs *)
(* ================================================================== *)

Import MoreSamples.

Lemma sample_world_distinct :
  distinct (sample_world [(room, [1; 2]); (lit "other", [2; 4])] [] []).
Proof.
  split.
  - repeat (constructor; [cbn; intuition discriminate|]). constructor.
  - repeat constructor; cbn; intuition discriminate.
Defined.

(** C9 fails when connection 1 joins the room again while the socket of
    member 2 is closing: 2 is a current member other than the joiner and is
    sent no notification, not exactly one. *)
Lemma join_skips_closing_member :
  let w := sample_world [(room, [1; 2])] [2] [] in
  let r := message (engine := sample_engine) (loop := alone) 1
             (Parsed (VObj (frame_of "join" []))) w in
  In 1 (members_of room w) /\
  In 2 (members_of room w) /\
  members_of room (final r) = [1; 2] /\
  attempts_to 2 (trace r) = [] /\
  List.length (attempts_to 2 (trace r)) <> 1.
Proof.
  cbv zeta. split; [left; reflexivity|]. split; [right; left; reflexivity|].
  split; [reflexivity|]. split; [reflexivity | discriminate].
Qed.

(** C9 as amended, at a second join of connection 1 to the room of 1, 2
    and 3, where 3 is closing, and at the same join where the send to 2
    throws: the member set is the same after both. *)
Lemma join_notifies_open_members_witness :
  let w := sample_world [(room, [1; 2; 3])] [3] [] in
  let w' := sample_world [(room, [1; 2; 3])] [3] [2] in
  let run w := message (engine := sample_engine) (loop := alone) 1
                 (Parsed (VObj (frame_of "join" []))) w in
  NoDup (members_of room w) /\
  members_of room (final (run w)) = members_of room w /\
  List.length (attempts_to 1 (trace (run w))) = 2 /\
  attempts_to 2 (trace (run w))
  = [obj [("type", str "system");
          ("message", str "A new user has joined the channel");
          ("channel", str "room")]] /\
  attempts_to 3 (trace (run w)) = [] /\
  outcome (run w') = Ok tt /\
  members_of room (final (run w')) = members_of room w'.
Proof.
  cbv zeta.
  assert (Hnd : NoDup (members_of room (sample_world [(room, [1; 2; 3])] [3] [])))
    by distinct_members.
  assert (Hnd' : NoDup (members_of room (sample_world [(room, [1; 2; 3])] [3] [2])))
    by distinct_members.
  split; [exact Hnd|].
  destruct (join_notifies_open_members (engine := sample_engine) (loop := alone) 1
              (frame_of "join" []) room
              (sample_world [(room, [1; 2; 3])] [3] [])
              eq_refl eq_refl ltac:(discriminate) Hnd)
    as (_ & _ & Hsame & Ha).
  destruct (join_notifies_open_members (engine := sample_engine) (loop := alone) 1
              (frame_of "join" []) room
              (sample_world [(room, [1; 2; 3])] [3] [2])
              eq_refl eq_refl ltac:(discriminate) Hnd')
    as (Ho' & _ & Hsame' & _).
  specialize (Ha ltac:(intros c _; reflexivity)).
  exact (conj (Hsame ltac:(left; reflexivity))
          (conj (f_equal (@List.length value) (Ha 1))
             (conj (Ha 2) (conj (Ha 3) (conj Ho' (Hsame' ltac:(left; reflexivity))))))).
Defined.

(** A chat frame of connection 1 leaves the registry as it was, and so does
    a uml:payload frame of 1 MiB and three code units, whose handler waits
    three times, when no socket event comes meanwhile. *)
Lemma only_join_writes_registry_witness :
  let w := sample_world [(room, [1; 2])] [] [] in
  let chat := Parsed (VObj (frame_of "message" [("message", str "hi")])) in
  let large := Parsed (VObj (frame_of "uml:payload" [("payload", VStr big_text)])) in
  channels (final (message (engine := sample_engine) (loop := alone) 1 chat w)) = channels w /\
  channels (final (message (engine := sample_engine) (loop := alone) 1 large w)) = channels w.
Proof.
  cbv zeta.
  destruct (only_join_writes_registry (engine := sample_engine) (loop := alone) 1
              (Parsed (VObj (frame_of "message" [("message", str "hi")])))
              (sample_world [(room, [1; 2])] [] []))
    as (_ & Hchat).
  { intros data H. injection H as <-. discriminate. }
  destruct (only_join_writes_registry (engine := sample_engine) (loop := alone) 1
              (Parsed (VObj (frame_of "uml:payload" [("payload", VStr big_text)])))
              (sample_world [(room, [1; 2])] [] []))
    as (_ & Hlarge).
  { intros data H. injection H as <-. discriminate. }
  exact (conj (Hchat (fun w0 => eq_refl)) (Hlarge (fun w0 => eq_refl))).
Defined.

(** Connection 3 is a member of the room after its join frame, and was not
    before. *)
Lemma membership_only_by_own_join_witness :
  let w := sample_world [(room, [1; 2])] [] [] in
  let ev := Receives 3 (Parsed (VObj (frame_of "join" []))) in
  In 3 (members_of room (final (websocket (engine := sample_engine) (loop := alone) ev w))) /\
  (In 3 (members_of room w) \/
   (exists data, ev = Receives 3 (Parsed data) /\
                 get data "type" = Ok (str "join") /\
                 get data "channel" = Ok (VStr room)) \/
   (exists w0, In 3 (members_of room (meanwhile (EventLoop := alone) w0))
               /\ ~ In 3 (members_of room w0))).
Proof.
  cbv zeta.
  assert (Hin : In 3 (members_of room
                        (final (websocket (engine := sample_engine) (loop := alone)
                                  (Receives 3 (Parsed (VObj (frame_of "join" []))))
                                  (sample_world [(room, [1; 2])] [] [])))))
    by (cbn; tauto).
  exact (conj Hin
           (membership_only_by_own_join (engine := sample_engine) (loop := alone)
              (Receives 3 (Parsed (VObj (frame_of "join" []))))
              (sample_world [(room, [1; 2])] [] []) room 3 Hin)).
Defined.

(** A chat frame of connection 1 in the room of 1, 2 and 3, where the socket
    of 2 is closing. *)
Lemma chat_reaches_members_witness :
  let w := sample_world [(room, [1; 2; 3])] [2] [] in
  let fields := frame_of "message" [("message", str "hi")] in
  let r := message (engine := sample_engine) (loop := alone) 1 (Parsed (VObj fields)) w in
  outcome r = Ok tt /\
  attempts_to 1 (trace r) = [chat_envelope 1 fields 1] /\
  attempts_to 2 (trace r) = [] /\
  attempts_to 3 (trace r) = [chat_envelope 1 fields 3].
Proof.
  cbv zeta.
  destruct (chat_reaches_members (engine := sample_engine) (loop := alone) 1
              (frame_of "message" [("message", str "hi")]) room
              (sample_world [(room, [1; 2; 3])] [2] []))
    as (Ho & _ & Ha).
  - reflexivity.
  - reflexivity.
  - discriminate.
  - cbn. tauto.
  - distinct_members.
  - intros c _. reflexivity.
  - exact (conj Ho (conj (Ha 1) (conj (Ha 2) (Ha 3)))).
Defined.

(** The same frame where the send to connection 2 throws: 3 is sent
    nothing. *)
Lemma chat_stops_at_failing_send_witness :
  let w := sample_world [(room, [1; 2; 3])] [] [2] in
  let fields := frame_of "message" [("message", str "hi")] in
  let r := message (engine := sample_engine) (loop := alone) 1 (Parsed (VObj fields)) w in
  outcome r = Ok tt /\
  attempts_to 3 (trace r) = [] /\
  attempts_to 1 (trace r) = [chat_envelope 1 fields 1].
Proof.
  cbv zeta.
  destruct (chat_stops_at_failing_send (engine := sample_engine) (loop := alone) 1 2
              (frame_of "message" [("message", str "hi")]) room
              (sample_world [(room, [1; 2; 3])] [] [2]) [1] [3])
    as (Ho & Hafter & Hbefore).
  - reflexivity.
  - reflexivity.
  - discriminate.
  - cbn. tauto.
  - distinct_members.
  - reflexivity.
  - intros c [<- | []]. reflexivity.
  - reflexivity.
  - reflexivity.
  - exact (conj Ho (conj (Hafter 3 (or_introl eq_refl))
                         (Hbefore 1 (or_introl eq_refl) eq_refl))).
Defined.

(** A join frame without a channel, and the frame null. *)
Lemma channel_name_required_witness :
  let w := sample_world [(room, [1; 2])] [] [] in
  let data := obj [("type", str "join"); ("id", str "m1")] in
  let r := message (engine := sample_engine) (loop := alone) 3 (Parsed data) w in
  let r0 := message (engine := sample_engine) (loop := alone) 3 (Parsed VNull) w in
  nameless (Parsed data) = true /\
  nameless (Parsed VNull) = true /\
  outcome r = Ok tt /\ final r = w /\
  attempts_to 3 (trace r)
  = [obj [("type", str "error"); ("message", str "Channel name is required")]] /\
  attempts_to 1 (trace r) = [] /\
  attempts_to 3 (trace r0) = [].
Proof.
  cbv zeta.
  destruct (channel_name_required (engine := sample_engine) (loop := alone) 3
              (Parsed (obj [("type", str "join"); ("id", str "m1")]))
              (sample_world [(room, [1; 2])] [] []) eq_refl)
    as (Ho & Hf & Hothers & Ha).
  destruct (channel_name_required (engine := sample_engine) (loop := alone) 3
              (Parsed VNull) (sample_world [(room, [1; 2])] [] []) eq_refl)
    as (_ & _ & _ & Ha0).
  exact (conj eq_refl (conj eq_refl
          (conj Ho (conj Hf (conj Ha (conj (Hothers 1 ltac:(discriminate)) Ha0)))))).
Defined.

(** A code:open frame of connection 1 in the room of 1, 2 and 3, where the
    socket of 2 is closing. *)
Lemma pass_through_fan_out_witness :
  let w := sample_world [(room, [1; 2; 3])] [2] [] in
  let fields := frame_of "code:open" [("payload", obj [("file", str "a.ts")])] in
  let r := message (engine := sample_engine) (loop := alone) 1 (Parsed (VObj fields)) w in
  outcome r = Ok tt /\ final r = w /\
  attempts_to 2 (trace r) = [] /\
  attempts_to 3 (trace r) = [relayed "code:open" fields].
Proof.
  cbv zeta.
  destruct (pass_through_fan_out (engine := sample_engine) (loop := alone) 1
              (frame_of "code:open" [("payload", obj [("file", str "a.ts")])])
              "code:open" room (sample_world [(room, [1; 2; 3])] [2] []))
    as (Ho & Hf & Ha).
  - left. reflexivity.
  - reflexivity.
  - reflexivity.
  - discriminate.
  - cbn. tauto.
  - distinct_members.
  - exact (conj Ho (conj Hf (conj (Ha 2) (Ha 3)))).
Defined.

(** A uml:generate frame of connection 1 in the room of 1 and 2. *)
Lemma generate_started_fan_out_witness :
  let w := sample_world [(room, [1; 2])] [] [] in
  let payload := obj [("rootPath", str "/src")] in
  let fields := frame_of "uml:generate" [("payload", payload)] in
  let r := message (engine := sample_engine) (loop := alone) 1 (Parsed (VObj fields)) w in
  outcome r = Ok tt /\ final r = w /\
  attempts_to 2 (trace r)
  = [obj [("type", str "uml:generate:started");
          ("message", str "UML generation started");
          ("payload", payload);
          ("channel", VStr room);
          ("id", str "m1")]].
Proof.
  cbv zeta.
  destruct (generate_started_fan_out (engine := sample_engine) (loop := alone) 1
              (frame_of "uml:generate" [("payload", obj [("rootPath", str "/src")])])
              room (sample_world [(room, [1; 2])] [] []))
    as (Ho & Hf & Ha).
  - reflexivity.
  - reflexivity.
  - discriminate.
  - cbn. tauto.
  - distinct_members.
  - exact (conj Ho (conj Hf (Ha 2))).
Defined.

(** A comments:upsert frame whose payload is null. *)
Lemma missing_payload_is_reported_witness :
  let w := sample_world [(room, [1; 2])] [] [] in
  let fields := frame_of "comments:upsert" [("payload", VNull)] in
  let r := message (engine := sample_engine) (loop := alone) 1 (Parsed (VObj fields)) w in
  exists property : string,
    outcome r = Ok tt /\ final r = w /\
    attempts_to 2 (trace r)
    = [obj [("type", str "error");
            ("message", VStr (lit "Failed to handle " ++ lit "comments:upsert" ++ lit ": "
                              ++ @error_text sample_engine (TypeError property)));
            ("channel", VStr room)]].
Proof.
  cbv zeta.
  destruct (missing_payload_is_reported (engine := sample_engine) (loop := alone) 1
              (frame_of "comments:upsert" [("payload", VNull)])
              "comments:upsert" room (sample_world [(room, [1; 2])] [] []))
    as (property & Ho & Hf & Ha).
  - right. split; [reflexivity|]. right. reflexivity.
  - reflexivity.
  - reflexivity.
  - discriminate.
  - cbn. tauto.
  - distinct_members.
  - exists property. exact (conj Ho (conj Hf (Ha 2))).
Defined.

(** The only chunk of a text of ten code units. *)
Lemma chunk_sizes_witness :
  let text := repeat 120%N 10 in
  List.length (slice text (0 * 524288) (Z.min ((0 + 1) * 524288) 10)) = 10%nat.
Proof.
  cbv zeta.
  destruct (chunk_sizes (repeat 120%N 10) 0) as (Hlen & _).
  - vm_compute. split; [discriminate | reflexivity].
  - apply Nat2Z.inj. exact Hlen.
Defined.

(** Connection 3 joins the room of 1 and 2 and its socket closes. *)
Lemma join_then_close_restores_members_witness :
  let w := sample_world [(room, [1; 2])] [] [] in
  let w1 := final (message (engine := sample_engine) (loop := alone) 3
                     (Parsed (VObj (frame_of "join" []))) w) in
  let w2 := final (websocket (engine := sample_engine) (loop := alone) (Closes 3) w1) in
  members_of room w2 = [1; 2] /\ Map_has room (channels w2) = true.
Proof.
  cbv zeta.
  destruct (join_then_close_restores_members (engine := sample_engine) (loop := alone) 3
              (frame_of "join" []) room (sample_world [(room, [1; 2])] [] []))
    as (Hall & _ & Hhas).
  - reflexivity.
  - reflexivity.
  - discriminate.
  - exact (conj (Hall room) Hhas).
Defined.

(** Connection 3 joins the room of 1 and 2, then chats. *)
Lemma joined_member_may_chat_witness :
  let w := sample_world [(room, [1; 2])] [] [] in
  let join := frame_of "join" [] in
  let chat := frame_of "message" [("message", str "hi")] in
  let w1 := final (message (engine := sample_engine) (loop := alone) 3 (Parsed (VObj join)) w) in
  let r := message (engine := sample_engine) (loop := alone) 3 (Parsed (VObj chat)) w1 in
  In 3 (members_of room w1) /\
  outcome r = Ok tt /\
  attempts_to 3 (trace r) = [chat_envelope 3 chat 3] /\
  attempts_to 1 (trace r) = [chat_envelope 3 chat 1].
Proof.
  cbv zeta.
  destruct (joined_member_may_chat (engine := sample_engine) (loop := alone) 3
              (frame_of "join" []) (frame_of "message" [("message", str "hi")]) room
              (sample_world [(room, [1; 2])] [] []))
    as (Hin & Ho & Ha).
  - reflexivity.
  - reflexivity.
  - reflexivity.
  - reflexivity.
  - discriminate.
  - distinct_members.
  - intros c. reflexivity.
  - exact (conj Hin (conj Ho (conj (Ha 3) (Ha 1)))).
Defined.

(** The function kept in [ws.close], called for connection 2, a member of
    both rooms. *)
Lemma stored_close_notifies_witness :
  let w := sample_world [(room, [1; 2]); (lit "other", [2; 4])] [] [] in
  let r := handleConnection_close 2 w in
  outcome r = Ok tt /\
  members_of room (final r) = [1] /\
  attempts_to 1 (trace r) = [left_notice room] /\
  attempts_to 4 (trace r) = [left_notice (lit "other")] /\
  attempts_to 2 (trace r) = [].
Proof.
  cbv zeta.
  destruct (stored_close_notifies 2
              (sample_world [(room, [1; 2]); (lit "other", [2; 4])] [] [])
              sample_world_distinct (fun c => eq_refl))
    as (Ho & Hm & Ha).
  exact (conj Ho (conj (Hm room) (conj (Ha 1) (conj (Ha 4) (Ha 2))))).
Defined.

(** A diagram and a directory delivered to a client with two listeners. *)
Lemma diagram_delivery_witness :
  let s := listening_client [calm; calm] in
  let r := Client.handleUmlPayload diagram_frame s in
  let st1 := with_diagram (str "d") (Client.store s) in
  let st2 := with_directory (str "t") st1 in
  outcome r = Ok tt /\
  Client.store (final r) = st2 /\
  Client.selectedNodeIds (Client.store (final r)) = [] /\
  trace r = [Client.Notified st1; Client.Notified st1;
             Client.Notified st2; Client.Notified st2;
             Client.ConsoleLog (lit "UML diagram loaded:")].
Proof.
  cbv zeta.
  destruct (diagram_delivery diagram_frame diagram_payload
              (listening_client [calm; calm]))
    as (Ho & _ & _ & _ & _ & Hboth).
  - reflexivity.
  - intros l st [<- | [<- | []]]; reflexivity.
  - destruct (Hboth eq_refl eq_refl) as [Hst Ht].
    exact (conj Ho (conj Hst (conj (f_equal Client.selectedNodeIds Hst) Ht))).
Defined.

(** The same delivery where the second of three listeners throws. *)
Lemma listener_failure_stops_delivery_witness :
  let s := listening_client [calm; throwing; calm] in
  let r := Client.handleUmlPayload diagram_frame s in
  let st1 := with_diagram (str "d") (Client.store s) in
  outcome r = Throw ListenerError /\
  Client.store (final r) = st1 /\
  Client.directoryTree (Client.store (final r)) = VNull /\
  trace r = [Client.Notified st1; Client.Notified st1].
Proof.
  cbv zeta.
  exact (listener_failure_stops_delivery diagram_frame
           diagram_payload (listening_client [calm; throwing; calm]) [calm] [calm] throwing
           eq_refl eq_refl eq_refl
           (fun l' H => match H with
                        | or_introl e => match e in _ = x return x _ = false with
                                         | eq_refl => eq_refl
                                         end
                        | or_intror f => match f with end
                        end)
           eq_refl).
Defined.

(** A completion frame for the session m1, whose two slots join into the
    text of an object with the diagram d. *)
Lemma complete_delivers_the_parsed_text_witness :
  let fields := frame_of "uml:payload:chunked:complete" [] in
  let s := sample_client [(str "m1", diagram_session)] in
  let r := Client.handleChunkedComplete (engine := sample_engine) (VObj fields) s in
  Client.join_empty (engine := sample_engine) (Client.chunks diagram_session)
  = Ok diagram_text /\
  outcome r = Ok tt /\
  Client.diagram (Client.store (final r)) = str "d" /\
  Client.Map_get (str "m1") (Client.chunkedMessages (final r)) = None.
Proof.
  cbv zeta.
  destruct (complete_delivers_the_parsed_text (engine := sample_engine)
              (frame_of "uml:payload:chunked:complete" [])
              (sample_client [(str "m1", diagram_session)]) diagram_session
              diagram_text
              (obj [("diagram", str "d")])
              (obj [("payload", obj [("diagram", str "d")])]))
    as (Ho & Hst & Hgone & _).
  - reflexivity.
  - reflexivity.
  - reflexivity.
  - reflexivity.
  - exact (conj eq_refl (conj Ho (conj (f_equal Client.diagram Hst) Hgone))).
Defined.

(** A completion frame for a session whose slot is still the empty string:
    the empty text is no JSON. *)
Lemma unparseable_text_is_dropped_witness :
  let fields := frame_of "uml:payload:chunked:complete" [] in
  let s := sample_client [(str "m1", waiting_session)] in
  let r := Client.handleChunkedComplete (engine := sample_engine) (VObj fields) s in
  Client.join_empty (engine := sample_engine) (Client.chunks waiting_session) = Ok [] /\
  outcome r = Ok tt /\
  Client.store (final r) = Client.store s /\
  Client.Map_get (str "m1") (Client.chunkedMessages (final r)) = None.
Proof.
  cbv zeta.
  destruct (unparseable_text_is_dropped (engine := sample_engine)
              (frame_of "uml:payload:chunked:complete" [])
              (sample_client [(str "m1", waiting_session)]) waiting_session [])
    as (Ho & Hst & _ & _ & Hgone).
  - reflexivity.
  - reflexivity.
  - reflexivity.
  - exact (conj eq_refl (conj Ho (conj Hst Hgone))).
Defined.

(** The two halves of the text sent under the id m1. *)
Lemma chunks_in_order_reassemble_witness :
  let ps := [diagram_head; diagram_tail] in
  let s := sample_client [] in
  let s1 := final (Client.handleChunkedStart (engine := sample_engine)
                     (VObj (start_frame (str "m1") 2)) s) in
  let s2 := after_chunks (engine := sample_engine) (chunk_frames (str "m1") 0 ps) s1 in
  exists session,
    Client.Map_get (str "m1") (Client.chunkedMessages s2) = Some session /\
    Client.received session = 2%Z /\
    Client.join_empty (engine := sample_engine) (Client.chunks session) = Ok diagram_text.
Proof.
  cbv zeta.
  destruct (chunks_in_order_reassemble (engine := sample_engine) (str "m1")
              [diagram_head; diagram_tail] (sample_client []))
    as ((session & Hs & _ & _ & Hr & Hj & _) & _).
  - right. exists (lit "m1"). reflexivity.
  - reflexivity.
  - exists session. exact (conj Hs (conj Hr Hj)).
Defined.

(** The text of the object with the diagram d, which the relay would cut
    into one piece, sent in chunks under the id m1 to a client with two
    listeners. *)
Lemma chunked_transfer_as_direct_witness :
  let v := obj [("diagram", str "d")] in
  let s := listening_client [calm; calm] in
  let s1 := final (Client.handleChunkedStart (engine := sample_engine)
                     (VObj (start_frame (str "m1") 1)) s) in
  let s2 := after_chunks (engine := sample_engine)
              (chunk_frames (str "m1") 0 (pieces diagram_text)) s1 in
  let r := Client.handleChunkedComplete (engine := sample_engine)
             (VObj (complete_frame (str "m1"))) s2 in
  let r' := Client.handleUmlPayload (payload_frame (str "m1") v) s in
  @json_parse sample_engine diagram_text = Some v /\
  outcome r = Ok tt /\
  Client.store (final r) = Client.store (final r') /\
  Client.diagram (Client.store (final r')) = str "d" /\
  notifications (trace r) = notifications (trace r') /\
  List.length (notifications (trace r')) = 2%nat /\
  Client.Map_get (str "m1") (Client.chunkedMessages (final r)) = None.
Proof.
  cbv zeta.
  destruct (chunked_transfer_as_direct (engine := sample_engine) (str "m1") diagram_text
              (obj [("diagram", str "d")]) (listening_client [calm; calm]))
    as (Ho & Hst & _ & _ & Hn & Hgone).
  - right. exists (lit "m1"). reflexivity.
  - reflexivity.
  - reflexivity.
  - exact (conj eq_refl (conj Ho (conj Hst (conj eq_refl (conj Hn (conj eq_refl Hgone)))))).
Defined.

(** A start frame of the id m1 beside the session m2. *)
Lemma sessions_are_independent_witness :
  let s := sample_client [(str "m2", sample_session)] in
  let fields := start_frame (str "m1") 3 in
  Client.Map_get (str "m2")
    (Client.chunkedMessages
       (final (Client.handleChunkedStart (engine := sample_engine) (VObj fields) s)))
  = Some sample_session /\
  Client.Map_get (str "m2")
    (Client.chunkedMessages
       (final (Client.handleChunkedComplete (engine := sample_engine) (VObj fields) s)))
  = Some sample_session.
Proof.
  cbv zeta.
  destruct (sessions_are_independent (engine := sample_engine)
              (start_frame (str "m1") 3) (sample_client [(str "m2", sample_session)])
              (str "m2") eq_refl)
    as (Hstart & _ & _ & _ & Hcomplete).
  exact (conj Hstart Hcomplete).
Defined.

(** The envelope with which the relay passes on a chat message. *)
Lemma other_types_change_nothing_witness :
  let s := sample_client [(str "m1", sample_session)] in
  let fields := [(lit "type", str "broadcast"); (lit "message", str "hi");
                 (lit "sender", str "User"); (lit "channel", str "room")] in
  Inbox.onmessage (engine := sample_engine) idle_handler idle_handler idle_handler
    (Parsed (VObj fields)) s
  = (Ok tt, s, [inbox_received; Client.ConsoleLog (lit "Unhandled message type:")]).
Proof.
  cbv zeta.
  apply (other_types_change_nothing (engine := sample_engine)
           idle_handler idle_handler idle_handler).
  repeat constructor.
Defined.

(** The envelopes of a short text at a client without sessions. *)
Lemma relayed_chunks_never_reach_store_witness :
  let s := sample_client [] in
  let fields := frame_of "uml:payload" [("payload", str "x")] in
  after_frames (engine := sample_engine) idle_handler idle_handler idle_handler
    (relay_chunk_envelopes fields (lit "{}")) s = s.
Proof.
  cbv zeta.
  destruct (relayed_chunks_never_reach_store (engine := sample_engine)
              idle_handler idle_handler idle_handler
              (frame_of "uml:payload" [("payload", str "x")]) (lit "{}") (sample_client []))
    as (_ & _ & Hnone).
  exact (proj2 (Hnone eq_refl)).
Defined.

(** Selecting a.ts in the diagram of a, b and c, where b imports a: c alone
    is dimmed. *)
Lemma selecting_a_file_dims_the_unrelated_witness :
  let s := sample_store (Some sample_diagram) [] in
  let after := Store.state (final (Store.selectFile (lit "a.ts") s)) in
  Store.selectedFilePath after = Some (lit "a.ts") /\
  ~ In (lit "a") (Store.dimmedNodeIds after) /\
  ~ In (lit "b") (Store.dimmedNodeIds after) /\
  In (lit "c") (Store.dimmedNodeIds after).
Proof.
  cbv zeta.
  destruct (selecting_a_file_dims_the_unrelated (lit "a.ts") sample_diagram
              (sample_store (Some sample_diagram) []))
    as (Hsel & _ & _ & _ & _ & Hfile & Hedge & Hrest).
  - reflexivity.
  - discriminate.
  - refine (conj Hsel (conj (Hfile (node_of "a" "a.ts") _ _) (conj _ (Hrest (node_of "c" "c.ts") _ _ _)))).
    + left. reflexivity.
    + reflexivity.
    + refine (proj1 (Hedge (node_of "a" "a.ts")
                       {| Store.UmlEdge.id := lit "e1"; Store.UmlEdge.source := lit "b";
                          Store.UmlEdge.target := lit "a";
                          Store.UmlEdge.type := Store.EImport |} _ _ _ _)).
      * left. reflexivity.
      * reflexivity.
      * left. reflexivity.
      * right. reflexivity.
    + right. right. left. reflexivity.
    + intros n [<- | [<- | [<- | []]]] Hf; try discriminate Hf. discriminate.
    + intros e [<- | []] [H | H]; discriminate H.
Defined.

Lemma sample_store_quiet (cs : list Store.CodeComment.t) : quiet (sample_store None cs).
Proof. intros l a [<- | []]. reflexivity. Defined.

(** Two requests made while the socket is connecting, and the socket
    opening. *)
Lemma queued_messages_follow_the_join_witness :
  let s := sample_connection (Some CONNECTING) 2 [] in
  let m1 := obj [("type", str "code:open")] in
  let m2 := obj [("type", str "comments:export")] in
  let queued := after_sends [m1; m2] s in
  let r := WsClient.onopen (engine := sample_engine) room 3
             (WsClient.set_ws (Some OPEN) queued) in
  WsClient.sent (trace_of_sends [m1; m2] s) = [] /\
  WsClient.messageQueue queued = [m1; m2] /\
  outcome r = Ok (Some tt) /\
  WsClient.sent (trace r)
  = [obj [("type", str "join"); ("channel", str "room");
          ("id", str "msg_1700000000000_k3j9x2m1q")]; m1; m2] /\
  WsClient.messageQueue (final r) = [] /\
  WsClient.reconnectAttempts (final r) = 0%Z.
Proof.
  cbv zeta.
  destruct (queued_messages_follow_the_join (engine := sample_engine) room
              [obj [("type", str "code:open")]; obj [("type", str "comments:export")]]
              (sample_connection (Some CONNECTING) 2 []) 3)
    as (_ & Hsilent & Hq & _ & Ho & Hsent & _ & Hempty & Hzero & _).
  - discriminate.
  - reflexivity.
  - exact (sample_store_quiet []).
  - cbn. lia.
  - exact (conj Hsilent (conj Hq (conj Ho (conj Hsent (conj Hempty Hzero))))).
Defined.

(** [onopen] of an earlier socket while the field holds one that is still
    connecting, after a hundred turns of the loop. *)
Lemma open_of_a_replaced_socket_never_returns_witness :
  let s := sample_connection (Some CONNECTING) 0 [] in
  let r := WsClient.onopen (engine := sample_engine) room 100 s in
  outcome r = Ok None /\ WsClient.sent (trace r) = [].
Proof.
  cbv zeta.
  destruct (open_of_a_replaced_socket_never_returns (engine := sample_engine) room
              (sample_connection (Some CONNECTING) 0 []) 100)
    as (Ho & Hsent & _).
  - discriminate.
  - exact (sample_store_quiet []).
  - exact (conj Ho Hsent).
Defined.

(** Seven closes in a row. *)
Lemma reconnect_backoff_witness :
  let s := sample_connection (Some CLOSED) 0 [] in
  timers_of_closes 7 s = [1000; 2000; 3000; 4000; 5000]%Z /\
  WsClient.reconnectAttempts (after_closes 7 s) = 5%Z.
Proof.
  cbv zeta.
  destruct (reconnect_backoff 7 (sample_connection (Some CLOSED) 0 []))
    as (_ & Hn & Hfive).
  - exact (sample_store_quiet []).
  - cbn. lia.
  - refine (conj (Hfive eq_refl _) Hn). lia.
Defined.

(** The upsert of the comment c1 at a store without comments. *)
Lemma upsert_of_unknown_id_adds_a_local_copy_witness :
  let s := sample_connection (Some OPEN) 0 [] in
  let after := Store.comments
                 (Store.state
                    (WsClient.store
                       (final (WsClient.handleCommentUpsert (engine := sample_engine)
                                 sample_upsert s)))) in
  after = [local_copy (engine := sample_engine) sample_upsert (WsClient.store s)] /\
  map Store.CodeComment.id after = [lit "comment_1700000000000_k3j9x2m1q"] /\
  forall c, In c after -> WsClient.has_id (Some (lit "c1")) c = false.
Proof.
  cbv zeta.
  destruct (upsert_of_unknown_id_adds_a_local_copy (engine := sample_engine) sample_upsert
              (sample_connection (Some OPEN) 0 []))
    as (Hafter & Hstill).
  - intros c [].
  - refine (conj Hafter (conj (f_equal (map Store.CodeComment.id) Hafter)
                              (Hstill (lit "c1") eq_refl _))).
    discriminate.
Defined.

(** The same upsert at a store that has the comment c1. *)
Lemma upsert_of_known_id_updates_the_first_witness :
  let s := sample_connection (Some OPEN) 0 [sample_comment] in
  let after := Store.comments
                 (Store.state
                    (WsClient.store
                       (final (WsClient.handleCommentUpsert (engine := sample_engine)
                                 sample_upsert s)))) in
  map Store.CodeComment.id after = [lit "c1"] /\
  map Store.CodeComment.text after = [lit "because"] /\
  map Store.CodeComment.createdAt after = [lit "2024-05-02T08:00:00.000Z"].
Proof.
  cbv zeta.
  destruct (upsert_of_known_id_updates_the_first (engine := sample_engine) sample_upsert
              (sample_connection (Some OPEN) 0 [sample_comment]) (lit "c1")
              [] [] sample_comment)
    as (Hafter & _).
  - reflexivity.
  - reflexivity.
  - reflexivity.
  - intros b [].
  - exact (conj (f_equal (map Store.CodeComment.id) Hafter)
             (conj (f_equal (map Store.CodeComment.text) Hafter)
                   (f_equal (map Store.CodeComment.createdAt) Hafter))).
Defined.
